(** * ASKADEMIC schedule engine: a shallow embedding and its properties

    The repository holds two implementations of the same engine:
    - the backend ([backend/scheduleGenerator.js] and the
      [/api/generate-schedules] handler of [backend/server.js]);
    - the frontend ([frontend/src/utils/scheduler.js] and the
      [handleGenerateSchedules] callback of [Dashboard.jsx]).

    Both are embedded below, each in a module of its own, on top of a
    small model of the JavaScript built-ins they call (module [JS]).

    Conventions of the embedding:
    - a JavaScript Number is an IEEE 754 binary64 value: Rocq's primitive
      [float], whose operations compute bit for bit what the engine computes;
    - integer-valued Numbers that only count things (array lengths, the
      penalty score) are [nat] and [Z]; they stay far below 2^53, where
      binary64 arithmetic on integers is exact;
    - a string is a [string] of code units below 256;
    - an abrupt completion ([throw]) is explicit: [completion];
    - an object used as a map is a [Dict.t]: its own properties in creation
      order, enumerated the way ECMAScript orders own keys (array indices
      first, ascending, then the other keys in creation order).  A lookup
      [obj[key]] that finds no own property reaches [Object.prototype]:
      [inherited_property] says for which keys it finds a member there.
      The catalog and the handlers of the backend are modelled with
      these lookups; the frontend engine, and the days under which the
      two scorers group the timeslots, are modelled on keys that name no
      such member (a day is one character).

    Around the engine the file also embeds the [/api/courses] endpoint, the
    script of the backend's page, the course selector and the navigation
    of the dashboard, the grid of [SchedulePlot.jsx], and the parts of the
    scraper that compute without the browser or the file system: the
    fill-down of the scraped rows and the timing check. *)

From Stdlib Require Import ZArith List String Ascii Bool Floats Lia Arith.
From Stdlib Require Import Permutation Sorted DecimalString.
Import ListNotations.

Set Implicit Arguments.

(* ================================================================== *)
(** * Completions *)
(* ================================================================== *)

Inductive error : Type :=
| TypeError.

(** [OutOfFuel] is not a JavaScript outcome: it marks a loop of the model
    that was cut before the source loop ended. *)
Inductive completion (A : Type) : Type :=
| Normal (a : A)
| Throw (e : error)
| OutOfFuel.

Arguments Normal {A} a.
Arguments Throw {A} e.
Arguments OutOfFuel {A}.

Definition bind {A B : Type} (c : completion A) (k : A -> completion B)
  : completion B :=
  match c with
  | Normal a => k a
  | Throw e => Throw e
  | OutOfFuel => OutOfFuel
  end.

Notation "x <- c ;; k" := (bind c (fun x => k))
  (at level 61, c at next level, right associativity).

(** [try { body } catch (e) { handler }] *)
Definition try_catch {A : Type} (body : completion A)
  (handler : error -> completion A) : completion A :=
  match body with
  | Throw e => handler e
  | other => other
  end.

Fixpoint mapM {A B : Type} (f : A -> completion B) (l : list A)
  : completion (list B) :=
  match l with
  | [] => Normal []
  | x :: l' => y <- f x ;; ys <- mapM f l' ;; Normal (y :: ys)
  end.

(* ================================================================== *)
(** * JavaScript built-ins *)
(* ================================================================== *)

Module JS.

(** ** Values *)

(** [VObject] stands for any object (array, plain object) without a
    callable [split] property, which is all that parsed JSON can hold. *)
Inductive value : Type :=
| VUndefined
| VNull
| VBool (b : bool)
| VNum (x : float)
| VStr (s : string)
| VObject.

Definition zero : float := 0%float.
Definition sixty : float := 60%float.
Definition twelve : float := 12%float.

(** [a > b] and [a < b] on Numbers. *)
Definition gt (a b : float) : bool := PrimFloat.ltb b a.
Definition lt (a b : float) : bool := PrimFloat.ltb a b.
(** [a === b] and [a == b] on Numbers. *)
Definition num_eq (a b : float) : bool := PrimFloat.eqb a b.

(** ToBoolean *)
Definition truthy_num (x : float) : bool :=
  negb (PrimFloat.eqb x zero) && negb (PrimFloat.is_nan x).

Definition truthy (v : value) : bool :=
  match v with
  | VUndefined | VNull => false
  | VBool b => b
  | VNum x => truthy_num x
  | VStr s => negb (String.eqb s "")
  | VObject => true
  end.

Definition typeof (v : value) : string :=
  match v with
  | VUndefined => "undefined"
  | VNull => "object"
  | VBool _ => "boolean"
  | VNum _ => "number"
  | VStr _ => "string"
  | VObject => "object"
  end.

(** ** Strings *)

(** [s.split(sep)] for a one-character separator. *)
Fixpoint split (sep : ascii) (s : string) : list string :=
  match s with
  | EmptyString => [EmptyString]
  | String c s' =>
      if Ascii.eqb c sep then EmptyString :: split sep s'
      else match split sep s' with
           | [] => [String c EmptyString]
           | w :: ws => String c w :: ws
           end
  end.

(** [v.split(sep)]: only a string has the method. *)
Definition call_split (v : value) (sep : ascii) : completion (list string) :=
  match v with
  | VStr s => Normal (split sep s)
  | _ => Throw TypeError
  end.

Definition code (c : ascii) : nat := nat_of_ascii c.

Definition is_digit (c : ascii) : bool :=
  (48 <=? code c)%nat && (code c <=? 57)%nat.

Definition is_letter (c : ascii) : bool :=
  ((65 <=? code c)%nat && (code c <=? 90)%nat)
  || ((97 <=? code c)%nat && (code c <=? 122)%nat).

(** WhiteSpace and LineTerminator code units below 256. *)
Definition is_space (c : ascii) : bool :=
  match code c with
  | 9 | 10 | 11 | 12 | 13 | 32 | 160 => true
  | _ => false
  end.

Fixpoint trim_start (s : string) : string :=
  match s with
  | EmptyString => EmptyString
  | String c s' => if is_space c then trim_start s' else s
  end.

Fixpoint rev_string (acc s : string) : string :=
  match s with
  | EmptyString => acc
  | String c s' => rev_string (String c acc) s'
  end.

Definition trim (s : string) : string :=
  rev_string "" (trim_start (rev_string "" (trim_start s))).

(** The longest prefix whose characters satisfy [p], and the rest. *)
Fixpoint span (p : ascii -> bool) (s : string) : string * string :=
  match s with
  | EmptyString => (EmptyString, EmptyString)
  | String c s' =>
      if p c then let '(a, b) := span p s' in (String c a, b)
      else (EmptyString, s)
  end.

(** [s.replace(/c/g, '')] *)
Fixpoint remove_char (c : ascii) (s : string) : string :=
  match s with
  | EmptyString => EmptyString
  | String d s' =>
      if Ascii.eqb d c then remove_char c s' else String d (remove_char c s')
  end.

(** The characters of a string, one string each ([for (const ch of s)]). *)
Fixpoint chars (s : string) : list string :=
  match s with
  | EmptyString => []
  | String c s' => String c EmptyString :: chars s'
  end.

(** [c.toUpperCase()] on the letters a-z. *)
Definition upper (c : ascii) : ascii :=
  if ((97 <=? code c)%nat && (code c <=? 122)%nat)
  then ascii_of_nat (code c - 32) else c.

(** [s.charAt(0).toUpperCase()] *)
Definition charAt0_upper (s : string) : string :=
  match s with
  | EmptyString => EmptyString
  | String c _ => String (upper c) EmptyString
  end.

(** [s.match(/^[A-Za-z]+\d+/)]: the matched text, if any.  The greedy run
    of letters must be followed by a digit; backtracking into the letters
    cannot help, since it only puts a letter where a digit is needed. *)
Definition match_letters_digits (s : string) : option string :=
  let '(letters, rest) := span is_letter s in
  let '(digits, _) := span is_digit rest in
  match letters, digits with
  | EmptyString, _ => None
  | _, EmptyString => None
  | _, _ => Some (letters ++ digits)%string
  end.

(** ** Number(string) *)

(** The binary64 value nearest to an integer. *)
Definition Z2float (z : Z) : float :=
  SF2Prim (binary_normalize prec emax z 0 false).

(** The binary64 value nearest to [(-1)^neg * m * 10^e]. *)
Definition dec2float (neg : bool) (m : Z) (e : Z) : float :=
  match m with
  | Zpos p =>
      if (0 <=? e)%Z
      then SF2Prim (binary_normalize prec emax
                      ((if neg then -1 else 1) * (m * 10 ^ e)) 0 false)
      else match (10 ^ (- e))%Z with
           | Zpos q =>
               SF2Prim (SFdiv prec emax (S754_finite neg p 0)
                                        (S754_finite false q 0))
           | _ => PrimFloat.nan
           end
  | _ => SF2Prim (S754_zero neg)
  end.

Definition hex_val (c : ascii) : option Z :=
  let n := code c in
  if is_digit c then Some (Z.of_nat (n - 48))
  else if ((65 <=? n)%nat && (n <=? 70)%nat) then Some (Z.of_nat (n - 55))
  else if ((97 <=? n)%nat && (n <=? 102)%nat) then Some (Z.of_nat (n - 87))
  else None.

(** The value of a non-empty digit string in a base, if every character is
    a digit of that base. *)
Fixpoint radix_val (base : Z) (acc : Z) (s : string) : option Z :=
  match s with
  | EmptyString => Some acc
  | String c s' =>
      match hex_val c with
      | Some d => if (d <? base)%Z then radix_val base (acc * base + d) s'
                  else None
      | None => None
      end
  end.

Definition digits_val (s : string) : Z :=
  match radix_val 10 0 s with Some z => z | None => 0%Z end.

(** [0x...], [0o...], [0b...] *)
Definition non_decimal (s : string) : option float :=
  match s with
  | String "0" (String k (String c rest)) =>
      let body := String c rest in
      let base :=
        match code k with
        | 120 | 88 => Some 16%Z
        | 111 | 79 => Some 8%Z
        | 98 | 66 => Some 2%Z
        | _ => None
        end in
      match base with
      | Some b => option_map Z2float (radix_val b 0 body)
      | None => None
      end
  | _ => None
  end.

(** The exponent part: empty, or [e] or [E], an optional sign, digits. *)
Definition exponent_part (s : string) : option Z :=
  match s with
  | EmptyString => Some 0%Z
  | String k rest =>
      match code k with
      | 101 | 69 =>
          let '(neg, ds) :=
            match rest with
            | String "-" r => (true, r)
            | String "+" r => (false, r)
            | _ => (false, rest)
            end in
          match ds with
          | EmptyString => None
          | _ => match radix_val 10 0 ds with
                 | Some z => Some (if neg then (- z)%Z else z)
                 | None => None
                 end
          end
      | _ => None
      end
  end.

(** An unsigned StrDecimalLiteral. *)
Definition unsigned_decimal (neg : bool) (s : string) : float :=
  if String.eqb s "Infinity"
  then (if neg then PrimFloat.neg_infinity else PrimFloat.infinity)
  else
    let '(ip, r1) := span is_digit s in
    let '(fp, r2) :=
      match r1 with
      | String "." r => span is_digit r
      | _ => (EmptyString, r1)
      end in
    match (ip ++ fp)%string with
    | EmptyString => PrimFloat.nan
    | ds =>
        match exponent_part r2 with
        | Some e => dec2float neg (digits_val ds)
                      (e - Z.of_nat (String.length fp))
        | None => PrimFloat.nan
        end
    end.

(** StringToNumber.  The value of a decimal literal is rounded to nearest
    (ECMAScript lets an engine approximate past the 20th significant
    digit; the model does not). *)
Definition Number (s : string) : float :=
  let t := trim s in
  match t with
  | EmptyString => zero
  | String "+" r => unsigned_decimal false r
  | String "-" r => unsigned_decimal true r
  | _ => match non_decimal t with
         | Some x => x
         | None => unsigned_decimal false t
         end
  end.

(** ToNumber of an array element read by destructuring: a Number, or
    [undefined] when the array is too short. *)
Definition num_or_undefined (o : option float) : float :=
  match o with
  | Some x => x
  | None => PrimFloat.nan
  end.

(** ** Array.prototype.sort

    The sort is stable, and when the comparator is consistent the result
    is the one sorted arrangement that keeps equal elements in order; it is
    computed here by a stable insertion sort.  [neg a b] says that the
    comparator returns a negative Number on [(a, b)].  For an inconsistent
    comparator ECMAScript leaves the order to the engine. *)
Section Sort.
Variable A : Type.
Variable neg : A -> A -> bool.

Fixpoint insert (x : A) (l : list A) : list A :=
  match l with
  | [] => [x]
  | y :: l' => if neg y x then y :: insert x l' else x :: y :: l'
  end.

Definition sort (l : list A) : list A := fold_right insert [] l.
End Sort.

End JS.

(* ================================================================== *)
(** * Objects used as maps *)
(* ================================================================== *)

Module Dict.

(** Own properties, in creation order. *)
Definition t (V : Type) : Type := list (string * V).

Definition empty {V : Type} : t V := [].

(** [d[k]] *)
Fixpoint get {V : Type} (d : t V) (k : string) : option V :=
  match d with
  | [] => None
  | (k', v) :: d' => if String.eqb k' k then Some v else get d' k
  end.

(** [d[k] = v]: an existing property keeps its place. *)
Fixpoint set {V : Type} (d : t V) (k : string) (v : V) : t V :=
  match d with
  | [] => [(k, v)]
  | (k', v') :: d' =>
      if String.eqb k' k then (k, v) :: d' else (k', v') :: set d' k v
  end.

(** An array index: a canonical numeric string below 2^32 - 1. *)
Definition is_index (k : string) : bool :=
  match k with
  | EmptyString => false
  | String "0" EmptyString => true
  | String "0" _ => false
  | _ =>
      match JS.radix_val 10 0 k with
      | Some z => (z <? 4294967295)%Z
      | None => false
      end
  end.

Definition index_lt {V : Type} (a b : string * V) : bool :=
  (JS.digits_val (fst a) <? JS.digits_val (fst b))%Z.

(** Own properties in enumeration order. *)
Definition entries {V : Type} (d : t V) : list (string * V) :=
  JS.sort index_lt (filter (fun e => is_index (fst e)) d)
  ++ filter (fun e => negb (is_index (fst e))) d.

(** [Object.keys(d)], also the order of [for (k in d)]. *)
Definition keys {V : Type} (d : t V) : list string := map fst (entries d).

(** [Object.values(d)] *)
Definition values {V : Type} (d : t V) : list V := map snd (entries d).

End Dict.

(** Monadic left fold: a loop with an accumulator and a body that may
    throw. *)
Fixpoint foldM {A S : Type} (f : S -> A -> completion S) (l : list A) (s : S)
  : completion S :=
  match l with
  | [] => Normal s
  | x :: l' => s' <- f s x ;; foldM f l' s'
  end.

(** [arr[i] = v] for [i] within the array. *)
Fixpoint set_nth {A : Type} (i : nat) (v : A) (l : list A) : list A :=
  match l, i with
  | [], _ => []
  | _ :: l', 0 => v :: l'
  | x :: l', S i' => x :: set_nth i' v l'
  end.

(** A [Set] of strings: its elements in insertion order. *)
Definition set_add (s : list string) (x : string) : list string :=
  if existsb (String.eqb x) s then s else s ++ [x].

(** [Math.min(first, ...rest)] on integer-valued Numbers. *)
Definition Math_min (first : Z) (rest : list Z) : Z :=
  fold_left Z.min rest first.

(** [MINIMUM_GAP_TOLERANCE = 1.5 / 60.0] *)
Definition MINIMUM_GAP_TOLERANCE : float := (1.5 / 60)%float.

(** The property names that every object literal inherits from
    [Object.prototype]; reading one of them from an object that has no own
    property of that name gives a function or an object, which is truthy. *)
Definition inherited_property (k : string) : bool :=
  existsb (String.eqb k)
    ["constructor"; "hasOwnProperty"; "isPrototypeOf";
     "propertyIsEnumerable"; "toLocaleString"; "toString"; "valueOf";
     "__proto__"; "__defineGetter__"; "__defineSetter__";
     "__lookupGetter__"; "__lookupSetter__"]%string.

(* ================================================================== *)
(** * The backend: scheduleGenerator.js and server.js *)
(* ================================================================== *)

Module Backend.

(** A timeslot is the array [[day, start_str, end_str, start, end]]. *)
Record Timeslot : Type := mkTimeslot {
  ts_day : string;
  ts_start_str : string;
  ts_end_str : string;
  ts_start : float;
  ts_end : float
}.

Record Section : Type := mkSection {
  course_code : string;
  section_id : string;
  timeslots : list Timeslot
}.

Definition Schedule : Type := list Section.

(** The test of the inner loop of [conflictsWith]:
    [d1 === d2 && e1 > s2 && e2 > s1]. *)
Definition overlaps (t1 t2 : Timeslot) : bool :=
  String.eqb (ts_day t1) (ts_day t2)
  && JS.gt (ts_end t1) (ts_start t2)
  && JS.gt (ts_end t2) (ts_start t1).

Definition conflictsWith (this other : Section) : bool :=
  existsb (fun t1 => existsb (fun t2 => overlaps t1 t2) (timeslots other))
          (timeslots this).

(** [function* product(...iterables)], its yields in order. *)
Fixpoint product {A : Type} (iterables : list (list A)) : list (list A) :=
  match iterables with
  | [] => [[]]
  | head :: tail =>
      let remaining := product tail in
      flat_map (fun item => map (fun items => item :: items) remaining) head
  end.

Section Combinations.
Variable A : Type.
Variable pool : list A.
Variable r : nat.

Definition n : nat := List.length pool.

(** [indices.map(i => pool[i])]; an index outside the pool reads
    [undefined]. *)
Definition pick (indices : list nat) : list (option A) :=
  map (fun i => nth_error pool i) indices.

(** [let i = r - 1; while (i >= 0 && indices[i] === i + n - r) i--;]
    started with [i = k - 1]; [None] is [i < 0]. *)
Fixpoint scan (k : nat) (indices : list nat) : option nat :=
  match k with
  | 0 => None
  | S i =>
      if (Z.of_nat (nth i indices 0%nat) =? Z.of_nat i + Z.of_nat n - Z.of_nat r)%Z
      then scan i indices
      else Some i
  end.

(** [indices[i]++; for (j = i + 1; j < r; j++)
     indices[j] = indices[j - 1] + 1;] *)
Definition advance (i : nat) (indices : list nat) : list nat :=
  let indices := set_nth i (S (nth i indices 0)) indices in
  fold_left (fun ind j => set_nth j (S (nth (j - 1) ind 0)) ind)
            (seq (S i) (r - S i)) indices.

(** The [while (true)] loop: the combinations it yields. *)
Fixpoint loop (fuel : nat) (indices : list nat)
  : completion (list (list (option A))) :=
  match fuel with
  | 0 => OutOfFuel
  | S fuel' =>
      match scan r indices with
      | None => Normal []
      | Some i =>
          let indices := advance i indices in
          rest <- loop fuel' indices ;;
          Normal (pick indices :: rest)
      end
  end.

Definition combinations_fuel (fuel : nat)
  : completion (list (list (option A))) :=
  if (n <? r)%nat then Normal []
  else
    let indices := seq 0 r in
    rest <- loop fuel indices ;;
    Normal (pick indices :: rest).

(** [function* combinations(iterable, r)], its yields in order.  There
    are at most [n ^ r] index vectors, which bounds the loop. *)
Definition combinations : completion (list (list (option A))) :=
  combinations_fuel (S (n ^ r)).
End Combinations.

(** [for (const [s1, s2] of combinations(c, 2))
      if (s1.conflictsWith(s2)) { hasConflict = true; break; }]
    A missing [s1] throws on the method call; a missing [s2] throws when
    [conflictsWith] reads its timeslots. *)
Fixpoint any_conflict (pairs : list (list (option Section)))
  : completion bool :=
  match pairs with
  | [] => Normal false
  | p :: rest =>
      match nth 0 p None, nth 1 p None with
      | Some s1, Some s2 =>
          if conflictsWith s1 s2 then Normal true else any_conflict rest
      | Some s1, None =>
          match timeslots s1 with
          | [] => any_conflict rest
          | _ => Throw TypeError
          end
      | None, _ => Throw TypeError
      end
  end.

Definition hasConflict (c : Schedule) : completion bool :=
  pairs <- combinations c 2 ;; any_conflict pairs.

Definition generateSchedules (courses : Dict.t (list Section))
  : completion (list Schedule) :=
  let courseSections := Dict.values courses in
  let combos := product courseSections in
  foldM (fun validSchedules c =>
           conflict <- hasConflict c ;;
           Normal (if conflict then validSchedules
                   else validSchedules ++ [c]))
        combos [].

Definition parseTime (t : JS.value) : completion float :=
  try_catch
    (parts <- JS.call_split t ":" ;;
     let nums := map JS.Number parts in
     let hours := JS.num_or_undefined (nth_error nums 0) in
     let minutes := JS.num_or_undefined (nth_error nums 1) in
     Normal (hours + minutes / JS.sixty)%float)
    (fun _ => Normal JS.zero).

Definition getBaseCode (fullCode : string) : string :=
  match JS.match_letters_digits fullCode with
  | Some m => m
  | None => fullCode
  end.

Record Session : Type := mkSession {
  days : string;
  start_time : string;
  end_time : string
}.

Record CourseInfo : Type := mkCourseInfo {
  course_name : string;
  sessions : list Session
}.

Definition CourseData : Type := Dict.t CourseInfo.

(** The two inner loops of [processCourseData] for one session. *)
Definition session_timeslots (timeslots : list Timeslot) (session : Session)
  : completion (list Timeslot) :=
  foldM (fun timeslots day =>
           startTime <- parseTime (JS.VStr (start_time session)) ;;
           endTime <- parseTime (JS.VStr (end_time session)) ;;
           Normal (if JS.truthy_num startTime && JS.truthy_num endTime
                   then timeslots ++
                          [mkTimeslot day (start_time session)
                             (end_time session) startTime endTime]
                   else timeslots))
        (JS.chars (JS.remove_char "," (days session))) timeslots.

(** [processCourseData].  [courses[baseCode]] is an array under an own
    key; under no own key it is [undefined], and an array is created,
    unless the base code names a member of [Object.prototype]: that member
    is truthy, no array is created, and the call of its [push] throws. *)
Definition processCourseData (courseData : CourseData)
  : completion (Dict.t (list Section)) :=
  foldM (fun courses fullCode =>
           let baseCode := getBaseCode fullCode in
           let courses :=
             match Dict.get courses baseCode with
             | Some _ => courses
             | None => if inherited_property baseCode then courses
                       else Dict.set courses baseCode []
             end in
           match Dict.get courseData fullCode with
           | None => Throw TypeError
           | Some courseInfo =>
               timeslots <- foldM session_timeslots (sessions courseInfo) [] ;;
               match timeslots with
               | [] => Normal courses
               | _ =>
                   match Dict.get courses baseCode with
                   | Some group =>
                       Normal (Dict.set courses baseCode
                                 (group ++ [mkSection baseCode fullCode
                                              timeslots]))
                   | None => Throw TypeError
                   end
               end
           end)
        (Dict.keys courseData) Dict.empty.

(** ** Scoring *)

Definition countMorningClasses (schedule : Schedule) (cutoff : float) : nat :=
  fold_left (fun acc sec =>
               acc + List.length (filter (fun ts => JS.lt (ts_start ts) cutoff)
                                    (timeslots sec)))
            schedule 0.

Definition countEveningClasses (schedule : Schedule) (cutoff : float) : nat :=
  fold_left (fun acc sec =>
               acc + List.length (filter (fun ts => JS.gt (ts_start ts) cutoff)
                                    (timeslots sec)))
            schedule 0.

Definition countFridayClasses (schedule : Schedule) : nat :=
  fold_left (fun acc sec =>
               acc + List.length (filter (fun ts => String.eqb (ts_day ts) "F")
                                    (timeslots sec)))
            schedule 0.

(** [dailyTimeslots[day].push([start_time, end_time])], after creating the
    array when the day is new.  The day is taken not to name a member of
    [Object.prototype]. *)
Definition push_daily (dailyTimeslots : Dict.t (list (float * float)))
  (day : string) (slot : float * float) : Dict.t (list (float * float)) :=
  match Dict.get dailyTimeslots day with
  | Some l => Dict.set dailyTimeslots day (l ++ [slot])
  | None => Dict.set dailyTimeslots day [slot]
  end.

(** The comparator [(a, b) => a[0] - b[0]] is negative.  On a start that
    is NaN the difference is NaN and the comparator is not consistent:
    the order that [JS.sort] gives then need not be the engine's. *)
Definition by_start (a b : float * float) : bool :=
  JS.lt (fst a - fst b)%float JS.zero.

(** [for (let i = 1; i < sortedTimes.length; i++)
      if (sortedTimes[i][0] - sortedTimes[i - 1][1] < TOLERANCE) count++] *)
Definition count_adjacent (sortedTimes : list (float * float)) (count : nat)
  : nat :=
  fold_left (fun count i =>
               let previous_end_time :=
                 snd (nth (i - 1) sortedTimes (JS.zero, JS.zero)) in
               let current_start_time :=
                 fst (nth i sortedTimes (JS.zero, JS.zero)) in
               if JS.lt (current_start_time - previous_end_time)%float
                        MINIMUM_GAP_TOLERANCE
               then S count else count)
            (seq 1 (List.length sortedTimes - 1)) count.

Definition group_by_day (schedule : Schedule)
  : Dict.t (list (float * float)) :=
  fold_left (fun daily section =>
               fold_left (fun daily ts =>
                            push_daily daily (ts_day ts)
                                       (ts_start ts, ts_end ts))
                         (timeslots section) daily)
            schedule Dict.empty.

Definition countBackToBack (schedule : Schedule) : nat :=
  let dailyTimeslots := group_by_day schedule in
  fold_left (fun backToBackCount day =>
               match Dict.get dailyTimeslots day with
               | Some slots =>
                   if (List.length slots <? 2)%nat then backToBackCount
                   else count_adjacent (JS.sort by_start slots)
                                       backToBackCount
               | None => backToBackCount
               end)
            (Dict.keys dailyTimeslots) 0.

Definition countDaysUsed (schedule : Schedule) : nat :=
  List.length (fold_left (fun days sec =>
                       fold_left (fun days ts => set_add days (ts_day ts))
                                 (timeslots sec) days)
                    schedule []).

Record Preferences : Type := mkPreferences {
  no_before : bool;
  before_cutoff : float;
  no_after : bool;
  after_cutoff : float;
  avoid_friday : bool;
  avoid_back_to_back : bool;
  minimize_days : bool
}.

Definition scoreSchedule (schedule : Schedule) (prefs : Preferences) : Z :=
  let score := 0%Z in
  let score :=
    if no_before prefs
    then (score + Z.of_nat (countMorningClasses schedule (before_cutoff prefs)))%Z
    else score in
  let score :=
    if no_after prefs
    then (score + Z.of_nat (countEveningClasses schedule (after_cutoff prefs)))%Z
    else score in
  let score :=
    if avoid_friday prefs
    then (score + Z.of_nat (countFridayClasses schedule))%Z else score in
  let score :=
    if avoid_back_to_back prefs
    then (score + Z.of_nat (countBackToBack schedule))%Z else score in
  let score :=
    if minimize_days prefs
    then (score + Z.of_nat (countDaysUsed schedule))%Z else score in
  score.

(** ** The [/api/generate-schedules] handler *)

Inductive response : Type :=
| Status404
| Status400
| Json (schedules : list Schedule).

(** [allSchedules.filter((s, i) => scores[i] === minScore)] *)
Definition filter_by_score (allSchedules : list Schedule) (scores : list Z)
  (minScore : Z) : list Schedule :=
  map fst (filter (fun p => (snd p =? minScore)%Z)
                  (combine allSchedules scores)).

(** The branch on [allSchedules.length > 0] and what it sends. *)
Definition bestSchedules (allSchedules : list Schedule)
  (preferences : Preferences) : list Schedule :=
  match map (fun s => scoreSchedule s preferences) allSchedules with
  | first :: rest =>
      let scores := first :: rest in
      let minScore := Math_min first rest in
      filter_by_score allSchedules scores minScore
  | [] => []
  end.

(** [selectedCourses.forEach(code => { if (sectionsByCourse[code])
      coursesToSchedule[code] = sectionsByCourse[code]; })]: the entries
    that the loop takes from the own keys of the catalog, which are the
    arrays of sections.  An array is truthy, the empty one too. *)
Definition coursesToSchedule (sectionsByCourse : Dict.t (list Section))
  (selectedCourses : list string) : Dict.t (list Section) :=
  fold_left (fun acc code =>
               match Dict.get sectionsByCourse code with
               | Some group => Dict.set acc code group
               | None => acc
               end)
            selectedCourses Dict.empty.

(** The same loop on a selected code that is no own key of the catalog
    but names a member of [Object.prototype]: [sectionsByCourse[code]] is
    that member, which is truthy, and the assignment stores it under the
    code.  It is a function, which cannot be iterated.  Under
    ["__proto__"] the member is [Object.prototype] itself and the
    assignment sets the prototype of [coursesToSchedule] to what it was:
    nothing is stored. *)
Definition stores_inherited (sectionsByCourse : Dict.t (list Section))
  (code : string) : bool :=
  match Dict.get sectionsByCourse code with
  | Some _ => false
  | None => inherited_property code && negb (String.eqb code "__proto__")
  end.

(** The handler.  When the loop has stored an inherited function,
    [coursesToSchedule] has a key, and [generateSchedules] spreads the
    function into [product] among the arrays, where
    [for (const item of head)] throws a [TypeError] on it as soon as the
    first combination is asked for, whatever the other values are. *)
Definition handler (data : option CourseData) (selectedCourses : list string)
  (preferences : Preferences) : completion response :=
  match data with
  | None => Normal Status404
  | Some data =>
      sectionsByCourse <- processCourseData data ;;
      let toSchedule := coursesToSchedule sectionsByCourse selectedCourses in
      if existsb (stores_inherited sectionsByCourse) selectedCourses
      then Throw TypeError
      else if (List.length (Dict.keys toSchedule) =? 0)%nat
           then Normal Status400
           else
             allSchedules <- generateSchedules toSchedule ;;
             Normal (Json (bestSchedules allSchedules preferences))
  end.

End Backend.

(* ================================================================== *)
(** * The frontend: utils/scheduler.js and Dashboard.jsx *)
(* ================================================================== *)

Module Frontend.

(** [modifier === 'PM'] for a destructured element that may be missing. *)
Definition is_modifier (modifier : option string) (m : string) : bool :=
  match modifier with
  | Some s => String.eqb s m
  | None => false
  end.

(** [minutes || 0] *)
Definition or_zero (minutes : option float) : float :=
  match minutes with
  | Some m => if JS.truthy_num m then m else JS.zero
  | None => JS.zero
  end.

Definition parseTime (timeStr : JS.value) : completion float :=
  if negb (JS.truthy timeStr)
     || negb (String.eqb (JS.typeof timeStr) "string")
  then Normal JS.zero
  else
    parts <- JS.call_split timeStr " " ;;
    let time := nth_error parts 0 in
    let modifier := nth_error parts 1 in
    nums <- match time with
            | Some time => Normal (map JS.Number (JS.split ":" time))
            | None => Throw TypeError
            end ;;
    let hours := JS.num_or_undefined (nth_error nums 0) in
    let minutes := nth_error nums 1 in
    let hours :=
      if is_modifier modifier "PM" && JS.lt hours JS.twelve
      then (hours + JS.twelve)%float else hours in
    let hours :=
      if is_modifier modifier "AM" && JS.num_eq hours JS.twelve
      then JS.zero else hours in
    Normal (hours + or_zero minutes / JS.sixty)%float.

Record Timeslot : Type := mkTimeslot {
  day : string;
  startTime : float;
  endTime : float
}.

(** [new Timeslot(day, startTimeStr, endTimeStr)] *)
Definition new_Timeslot (day startTimeStr endTimeStr : string)
  : completion Timeslot :=
  startTime <- parseTime (JS.VStr startTimeStr) ;;
  endTime <- parseTime (JS.VStr endTimeStr) ;;
  Normal (mkTimeslot day startTime endTime).

Record Section : Type := mkSection {
  courseCode : string;
  sectionId : string;
  timeslots : list Timeslot
}.

Definition Schedule : Type := list Section.

Definition overlaps (t1 t2 : Timeslot) : bool :=
  String.eqb (day t1) (day t2)
  && JS.gt (endTime t1) (startTime t2)
  && JS.gt (endTime t2) (startTime t1).

Definition conflictsWith (this otherSection : Section) : bool :=
  existsb (fun t1 => existsb (fun t2 => overlaps t1 t2)
                             (timeslots otherSection))
          (timeslots this).

(** [arrays.reduce((acc, array) =>
       acc.flatMap(x => array.map(y => [...x, y])), [[]])] *)
Definition product {A : Type} (arrays : list (list A)) : list (list A) :=
  fold_left (fun acc array =>
               flat_map (fun x => map (fun y => x ++ [y]) array) acc)
            arrays [[]].

(** A row of the course table; only these columns are read. *)
Record Row : Type := mkRow {
  Course : string;
  Days : string;
  Start_Time : string;
  End_Time : string
}.

Record RawSlot : Type := mkRawSlot {
  raw_day : string;
  raw_start : string;
  raw_end : string
}.

Record SectionData : Type := mkSectionData {
  data_courseCode : string;
  timeslotsRaw : list RawSlot
}.

(** [selectedCourseCodes.includes(baseCode)]; a failed match gives [null],
    which no list of strings includes. *)
Definition includes (selectedCourseCodes : list string)
  (baseCode : option string) : bool :=
  match baseCode with
  | Some c => existsb (String.eqb c) selectedCourseCodes
  | None => false
  end.

(** [row.Days.split(',').map(d => d.trim()).filter(d => d)] *)
Definition row_days (row : Row) : list string :=
  filter (fun d => negb (String.eqb d ""))
         (map JS.trim (JS.split "," (Days row))).

(** The body of [allCoursesData.forEach]. *)
Definition add_row (selectedCourseCodes : list string)
  (sectionsData : Dict.t SectionData) (row : Row) : Dict.t SectionData :=
  let baseCode := JS.match_letters_digits (Course row) in
  match baseCode with
  | Some code =>
      if includes selectedCourseCodes baseCode then
        let sectionId := Course row in
        let sectionsData :=
          match Dict.get sectionsData sectionId with
          | Some _ => sectionsData
          | None => Dict.set sectionsData sectionId (mkSectionData code [])
          end in
        fold_left (fun sectionsData day =>
                     match Dict.get sectionsData sectionId with
                     | Some data =>
                         Dict.set sectionsData sectionId
                           (mkSectionData (data_courseCode data)
                              (timeslotsRaw data ++
                                 [mkRawSlot (JS.charAt0_upper day)
                                    (Start_Time row) (End_Time row)]))
                     | None => sectionsData
                     end)
                  (row_days row) sectionsData
      else sectionsData
  | None => sectionsData
  end.

(** The body of [for (const sectionId in sectionsData)]. *)
Definition add_section (sectionsData : Dict.t SectionData)
  (courses : Dict.t (list Section)) (sectionId : string)
  : completion (Dict.t (list Section)) :=
  match Dict.get sectionsData sectionId with
  | None => Throw TypeError
  | Some data =>
      timeslots <- mapM (fun t => new_Timeslot (raw_day t) (raw_start t)
                                               (raw_end t))
                        (timeslotsRaw data) ;;
      let section := mkSection (data_courseCode data) sectionId timeslots in
      match Dict.get courses (data_courseCode data) with
      | Some group =>
          Normal (Dict.set courses (data_courseCode data) (group ++ [section]))
      | None => Throw TypeError
      end
  end.

(** [for (i = 0; i < combo.length; i++)
      for (j = i + 1; j < combo.length; j++)
        if (combo[i].conflictsWith(combo[j])) ...]; both indices stay
    within the array. *)
Definition hasConflict (combo : Schedule) : bool :=
  existsb (fun i =>
             existsb (fun j =>
                        match nth_error combo i, nth_error combo j with
                        | Some a, Some b => conflictsWith a b
                        | _, _ => false
                        end)
                     (seq (i + 1) (List.length combo - (i + 1))))
          (seq 0 (List.length combo)).

(** Step 1 of [generateSchedules]: the sections of each selected course. *)
Definition build_courses (allCoursesData : list Row)
  (selectedCourseCodes : list string) : completion (Dict.t (list Section)) :=
  let courses :=
    fold_left (fun courses code => Dict.set courses code [])
              selectedCourseCodes Dict.empty in
  let sectionsData :=
    fold_left (add_row selectedCourseCodes) allCoursesData Dict.empty in
  foldM (add_section sectionsData) (Dict.keys sectionsData) courses.

Definition generateSchedules (allCoursesData : list Row)
  (selectedCourseCodes : list string) : completion (list Schedule) :=
  courses <- build_courses allCoursesData selectedCourseCodes ;;
  let sectionGroups :=
    filter (fun group => (0 <? List.length group)%nat) (Dict.values courses) in
  if negb (List.length sectionGroups =? List.length selectedCourseCodes)%nat
  then Normal []
  else
    let combinations := product sectionGroups in
    Normal (fold_left (fun validSchedules combo =>
                         if hasConflict combo then validSchedules
                         else validSchedules ++ [combo])
                      combinations []).

(** ** Scoring *)

Definition all_timeslots (schedule : Schedule) : list Timeslot :=
  flat_map timeslots schedule.

Definition countMorningClasses (schedule : Schedule) (cutoff : float) : nat :=
  List.length (filter (fun ts => JS.lt (startTime ts) cutoff)
                      (all_timeslots schedule)).

Definition countEveningClasses (schedule : Schedule) (cutoff : float) : nat :=
  List.length (filter (fun ts => JS.gt (startTime ts) cutoff)
                      (all_timeslots schedule)).

Definition countFridayClasses (schedule : Schedule) : nat :=
  List.length (filter (fun ts => String.eqb (day ts) "F")
                      (all_timeslots schedule)).

Definition countDaysUsed (schedule : Schedule) : nat :=
  List.length (fold_left set_add (map day (all_timeslots schedule)) []).

(** [dailyTimeslots[ts.day].push({ start, end })], after creating the
    array when the day is new.  The day is taken not to name a member of
    [Object.prototype]. *)
Definition push_daily (dailyTimeslots : Dict.t (list (float * float)))
  (day : string) (slot : float * float) : Dict.t (list (float * float)) :=
  match Dict.get dailyTimeslots day with
  | Some l => Dict.set dailyTimeslots day (l ++ [slot])
  | None => Dict.set dailyTimeslots day [slot]
  end.

(** The comparator [(a, b) => a.start - b.start] is negative.  On a start
    that is NaN the difference is NaN and the comparator is not
    consistent: the order that [JS.sort] gives then need not be the
    engine's. *)
Definition by_start (a b : float * float) : bool :=
  JS.lt (fst a - fst b)%float JS.zero.

Definition count_adjacent (slots : list (float * float)) (b2bCount : nat)
  : nat :=
  fold_left (fun b2bCount i =>
               if JS.lt (fst (nth i slots (JS.zero, JS.zero))
                         - snd (nth (i - 1) slots (JS.zero, JS.zero)))%float
                        MINIMUM_GAP_TOLERANCE
               then S b2bCount else b2bCount)
            (seq 1 (List.length slots - 1)) b2bCount.

Definition group_by_day (schedule : Schedule)
  : Dict.t (list (float * float)) :=
  fold_left (fun daily ts => push_daily daily (day ts)
                                        (startTime ts, endTime ts))
            (all_timeslots schedule) Dict.empty.

Definition countBackToBack (schedule : Schedule) : nat :=
  let dailyTimeslots := group_by_day schedule in
  fold_left (fun b2bCount day =>
               match Dict.get dailyTimeslots day with
               | Some slots => count_adjacent (JS.sort by_start slots) b2bCount
               | None => b2bCount
               end)
            (Dict.keys dailyTimeslots) 0.

Record Prefs : Type := mkPrefs {
  noBefore : bool;
  beforeTime : string;
  noAfter : bool;
  afterTime : string;
  avoidFriday : bool;
  avoidB2B : bool;
  minimizeDays : bool
}.

Definition scoreSchedule (schedule : Schedule) (prefs : Prefs)
  : completion Z :=
  let score := 0%Z in
  score <- (if noBefore prefs then
              beforeCutoff <- parseTime (JS.VStr (beforeTime prefs ++ " AM")) ;;
              Normal (score + Z.of_nat (countMorningClasses schedule
                                          beforeCutoff))%Z
            else Normal score) ;;
  score <- (if noAfter prefs then
              afterCutoff <- parseTime (JS.VStr (afterTime prefs ++ " PM")) ;;
              Normal (score + Z.of_nat (countEveningClasses schedule
                                          afterCutoff))%Z
            else Normal score) ;;
  let score :=
    if avoidFriday prefs
    then (score + Z.of_nat (countFridayClasses schedule))%Z else score in
  let score :=
    if avoidB2B prefs
    then (score + Z.of_nat (countBackToBack schedule))%Z else score in
  let score :=
    if minimizeDays prefs
    then (score + Z.of_nat (countDaysUsed schedule))%Z else score in
  Normal score.

(** ** [handleGenerateSchedules] of the dashboard *)

(** The comparator [(a, b) => a.score - b.score] is negative. *)
Definition by_score (a b : Schedule * Z) : bool :=
  (snd a - snd b <? 0)%Z.

(** The branch on [schedules.length > 0] and the list handed to
    [setBestSchedules]. *)
Definition bestSchedules (schedules : list Schedule) (prefs : Prefs)
  : completion (list Schedule) :=
  match schedules with
  | _ :: _ =>
      scored <- mapM (fun s => score <- scoreSchedule s prefs ;;
                               Normal (s, score)) schedules ;;
      let scored := JS.sort by_score scored in
      match scored with
      | first :: _ =>
          let minScore := snd first in
          Normal (map fst (filter (fun s => (snd s =? minScore)%Z) scored))
      | [] => Throw TypeError
      end
  | [] => Normal []
  end.

(** [None]: no course is selected and the callback returns at once. *)
Definition handleGenerateSchedules (allCourses : list Row)
  (courseCodes : list string) (prefs : Prefs)
  : completion (option (list Schedule)) :=
  match courseCodes with
  | [] => Normal None
  | _ =>
      schedules <- generateSchedules allCourses courseCodes ;;
      best <- bestSchedules schedules prefs ;;
      Normal (Some best)
  end.

End Frontend.

(* ================================================================== *)
(** * Specification-level notions used by the statements *)
(* ================================================================== *)

Section Pairs.
Variable S : Type.
Variable conf : S -> S -> bool.

(** Some section of the list conflicts with a later one. *)
Fixpoint any_pair (c : list S) : bool :=
  match c with
  | [] => false
  | s :: rest => existsb (conf s) rest || any_pair rest
  end.
End Pairs.

(** The conflict test read off a pair yielded by [combinations(c, 2)]. *)
Definition pair_conflict (p : list (option Backend.Section)) : bool :=
  match p with
  | [Some s1; Some s2] => Backend.conflictsWith s1 s2
  | _ => false
  end.

(** The score the frontend gives a schedule, read off the completion of
    [scoreSchedule] (which is shown below to be normal always). *)
Definition frontend_score (prefs : Frontend.Prefs)
  (schedule : Frontend.Schedule) : Z :=
  match Frontend.scoreSchedule schedule prefs with
  | Normal score => score
  | _ => 0%Z
  end.

(** The [(start, end)] pairs of the timeslots of a day, in the order of
    the schedule. *)
Definition backend_day_slots (d : string) (schedule : Backend.Schedule)
  : list (float * float) :=
  map (fun ts => (Backend.ts_start ts, Backend.ts_end ts))
      (filter (fun ts => String.eqb (Backend.ts_day ts) d)
              (flat_map Backend.timeslots schedule)).

(** The same for the frontend. *)
Definition frontend_day_slots (d : string) (schedule : Frontend.Schedule)
  : list (float * float) :=
  map (fun ts => (Frontend.startTime ts, Frontend.endTime ts))
      (filter (fun ts => String.eqb (Frontend.day ts) d)
              (flat_map Frontend.timeslots schedule)).

(** The adjacent pairs of a list in which the next slot starts less than
    1.5 minutes after the previous one ends. *)
Fixpoint close_pairs (l : list (float * float)) : nat :=
  match l with
  | [] => 0
  | prev :: rest =>
      match rest with
      | [] => 0
      | next :: _ =>
          (if JS.lt (fst next - snd prev)%float (1.5 / 60)%float
           then 1 else 0) + close_pairs rest
      end
  end.

(** A comparator is consistent on a list when, on its elements, it never
    orders two elements both ways and "not after" is transitive. *)
Definition consistent_on {A : Type} (neg : A -> A -> bool) (l : list A)
  : bool :=
  forallb (fun a =>
     forallb (fun b =>
        implb (neg a b) (negb (neg b a))
        && forallb (fun c =>
             implb (negb (neg b a) && negb (neg c b)) (negb (neg c a))) l)
       l) l.

(** ** The order of Numbers

    The place of a binary64 value on the number line, as an integer: the
    value in units of 2^-1074 when it is finite, beyond every finite value
    when it is infinite.  The two zeros have the same place; the place
    given to NaN means nothing. *)
Definition SF_rank (x : spec_float) : Z :=
  match x with
  | S754_zero _ => 0
  | S754_finite s m e => cond_Zopp s (Zpos m * 2 ^ (e + 1074))
  | S754_infinity s => cond_Zopp s (2 ^ 2098)
  | S754_nan => 0
  end.

Definition rank (x : float) : Z := SF_rank (Prim2SF x).

(** ** Well-formed 12-hour clock strings *)

Definition digit_char (d : nat) : ascii := ascii_of_nat (48 + d).

Definition two_digits (k : nat) : string :=
  String (digit_char (k / 10)) (String (digit_char (k mod 10)) EmptyString).

(** The hour, on two digits when [pad] is set or the hour needs them. *)
Definition hour_text (pad : bool) (h : nat) : string :=
  if pad || (10 <=? h)%nat then two_digits h
  else String (digit_char h) EmptyString.

(** ["H:MM AM"], ["HH:MM AM"], ["H:MM PM"] or ["HH:MM PM"]. *)
Definition clock12 (pad : bool) (h m : nat) (pm : bool) : string :=
  (hour_text pad h ++ ":" ++ two_digits m
   ++ (if pm then " PM" else " AM"))%string.

(** The hour of the day that a 12-hour clock reading stands for in the
    claim: 12 AM is hour 0, a PM hour below 12 is advanced by 12. *)
Definition hour24 (h : nat) (pm : bool) : nat :=
  if pm then (if (h <? 12)%nat then h + 12 else h)
  else (if (h =? 12)%nat then 0 else h).

(** The completion is normal with exactly this Number (the very same
    binary64 value; all NaNs are one value). *)
Definition returns (c : completion float) (x : float) : bool :=
  match c with
  | Normal y => PrimFloat.Leibniz.eqb y x
  | _ => false
  end.

(** Both parsers on a well-formed 12-hour string: the frontend parser
    gives the hour of the day plus the minutes over sixty, the backend
    parser gives NaN. *)
Definition clock12_ok (pad : bool) (h m : nat) (pm : bool) : bool :=
  returns (Frontend.parseTime (JS.VStr (clock12 pad h m pm)))
          (JS.Z2float (Z.of_nat (hour24 h pm))
           + JS.Z2float (Z.of_nat m) / 60)%float
  && returns (Backend.parseTime (JS.VStr (clock12 pad h m pm)))
             PrimFloat.nan.

(** A test on every hour from 1 to 12 and every minute from 0 to 59, with
    and without padding, AM and PM. *)
Definition on_every_clock12 (ok : bool -> nat -> nat -> bool -> bool) : bool :=
  forallb (fun pad =>
    forallb (fun h =>
      forallb (fun m =>
        forallb (fun pm => ok pad h m pm) [false; true])
        (seq 0 60))
      (seq 1 12))
    [false; true].

(** The catalog has a list, possibly empty, for the code. *)
Definition known (sections : Dict.t (list Backend.Section)) (code : string)
  : bool :=
  match Dict.get sections code with
  | Some _ => true
  | None => false
  end.

(* ================================================================== *)
(** * Worked examples *)
(* ================================================================== *)

Module Example.

(** A backend section that meets once on Monday. *)
Definition monday (code id start_str end_str : string) (s e : float)
  : Backend.Section :=
  Backend.mkSection code id [Backend.mkTimeslot "M" start_str end_str s e].

Definition cs_10_11 : Backend.Section :=
  monday "CS101" "CS101-01" "10:00" "11:00" 10 11.

(** Starts when [cs_10_11] ends. *)
Definition ma_11_12 : Backend.Section :=
  monday "MA201" "MA201-01" "11:00" "12:00" 11 12.

(** Starts 1.4 minutes after [cs_10_11] ends. *)
Definition ma_gap_1_4 : Backend.Section :=
  monday "MA201" "MA201-02" "11:01.4" "12:00" (11 + 14 / 10 / 60) 12.

(** Starts 2 minutes after [cs_10_11] ends. *)
Definition ma_gap_2 : Backend.Section :=
  monday "MA201" "MA201-03" "11:02" "12:00" (11 + 2 / 60) 12.

(** Starts an hour after [cs_10_11] ends. *)
Definition ma_12_13 : Backend.Section :=
  monday "MA201" "MA201-04" "12:00" "13:00" 12 13.

(** Only [avoid_back_to_back] is on. *)
Definition only_back_to_back : Backend.Preferences :=
  Backend.mkPreferences false 0 false 0 false true false.

(** A scraped catalog: two sections of CS101, a section of MA201 that
    overlaps the first of them on Monday, and PH150, whose only session has
    no time. *)
Definition catalog_data : Backend.CourseData :=
  [("CS101-01"%string, Backend.mkCourseInfo "Programming"
                  [Backend.mkSession "M,W" "10:00" "11:00"]);
   ("CS101-02"%string, Backend.mkCourseInfo "Programming"
                  [Backend.mkSession "T,R" "10:00" "11:00"]);
   ("MA201-01"%string, Backend.mkCourseInfo "Calculus"
                  [Backend.mkSession "M" "10:30" "11:30"]);
   ("PH150-01"%string, Backend.mkCourseInfo "Physics"
                  [Backend.mkSession "F" "" ""])].

Definition cs101_01 : Backend.Section :=
  Backend.mkSection "CS101" "CS101-01"
    [Backend.mkTimeslot "M" "10:00" "11:00" 10 11;
     Backend.mkTimeslot "W" "10:00" "11:00" 10 11].

Definition cs101_02 : Backend.Section :=
  Backend.mkSection "CS101" "CS101-02"
    [Backend.mkTimeslot "T" "10:00" "11:00" 10 11;
     Backend.mkTimeslot "R" "10:00" "11:00" 10 11].

Definition ma201_01 : Backend.Section :=
  Backend.mkSection "MA201" "MA201-01"
    [Backend.mkTimeslot "M" "10:30" "11:30" 10.5 11.5].

(** What [processCourseData] makes of [catalog_data]. *)
Definition catalog : Dict.t (list Backend.Section) :=
  [("CS101"%string, [cs101_01; cs101_02]); ("MA201"%string, [ma201_01]); ("PH150"%string, [])].

Definition no_preferences : Backend.Preferences :=
  Backend.mkPreferences false 0 false 0 false false false.

(** A section that meets on Friday, and the preference against Fridays. *)
Definition ma201_friday : Backend.Section :=
  Backend.mkSection "MA201" "MA201-05"
    [Backend.mkTimeslot "F" "10:30" "11:30" 10.5 11.5].

Definition no_friday : Backend.Preferences :=
  Backend.mkPreferences false 0 false 0 true false false.

(** The course table of the frontend, with the same two sections of
    CS101. *)
Definition rows : list Frontend.Row :=
  [Frontend.mkRow "CS101-01" "M,W" "10:00 AM" "11:00 AM";
   Frontend.mkRow "CS101-02" "T,R" "10:00 AM" "11:00 AM"].

End Example.

(** Every unordered pair of a list once, the pairs of an earlier element
    first, each pair in the order of the list. *)
Fixpoint pairs_of {A : Type} (pool : list A) : list (list (option A)) :=
  match pool with
  | [] => []
  | x :: rest => map (fun y => [Some x; Some y]) rest ++ pairs_of rest
  end.

(* ================================================================== *)
(** * The [/api/courses] endpoint of the backend (server.js) *)
(* ================================================================== *)

Module Server.

Inductive courses_response : Type :=
| CoursesNotFound
| CoursesJson (uniqueCourses : Dict.t string).

(** The loop of the handler: the name of a course is recorded under its
    base code unless a name that is not empty is there already, or the
    base code names an inherited property. *)
Definition uniqueCourses (data : Backend.CourseData)
  : completion (Dict.t string) :=
  foldM (fun uniqueCourses fullCode =>
           let baseCode := Backend.getBaseCode fullCode in
           match Dict.get data fullCode with
           | None => Throw TypeError
           | Some courseInfo =>
               let recorded :=
                 match Dict.get uniqueCourses baseCode with
                 | Some name => JS.truthy (JS.VStr name)
                 | None => inherited_property baseCode
                 end in
               Normal (if recorded then uniqueCourses
                       else Dict.set uniqueCourses baseCode
                                     (Backend.course_name courseInfo))
           end)
        (Dict.keys data) Dict.empty.

(** [app.get('/api/courses/:semester', ...)] on the cached data of the
    semester. *)
Definition courses_handler (data : option Backend.CourseData)
  : completion courses_response :=
  match data with
  | Some data =>
      unique <- uniqueCourses data ;;
      Normal (CoursesJson unique)
  | None => Normal CoursesNotFound
  end.

End Server.

(* ================================================================== *)
(** * The page of the backend (the script of its index.html) *)
(* ================================================================== *)

Module Legacy.

(** [s.includes(c)] for a one-character [c]. *)
Fixpoint includes (c : ascii) (s : string) : bool :=
  match s with
  | EmptyString => false
  | String d s' => Ascii.eqb d c || includes c s'
  end.

Definition parseTimeToFloat (timeStr : string) : float :=
  if negb (JS.truthy (JS.VStr timeStr)) || negb (includes ":" timeStr)
  then JS.zero
  else
    let nums := map JS.Number (JS.split ":" timeStr) in
    let hours := JS.num_or_undefined (nth_error nums 0) in
    let minutes := JS.num_or_undefined (nth_error nums 1) in
    (hours + minutes / JS.sixty)%float.

(** [getPreferences()], on the values of the two time inputs and of the
    five check boxes. *)
Definition getPreferences (before_time after_time : string)
  (no_before no_after avoid_friday avoid_b2b minimize_days : bool)
  : Backend.Preferences :=
  let before := map JS.Number (JS.split ":" before_time) in
  let beforeHour := JS.num_or_undefined (nth_error before 0) in
  let beforeMinute := JS.num_or_undefined (nth_error before 1) in
  let after := map JS.Number (JS.split ":" after_time) in
  let afterHour := JS.num_or_undefined (nth_error after 0) in
  let afterMinute := JS.num_or_undefined (nth_error after 1) in
  Backend.mkPreferences
    no_before (beforeHour + beforeMinute / JS.sixty)%float
    no_after (afterHour + afterMinute / JS.sixty)%float
    avoid_friday avoid_b2b minimize_days.

(** [navigateSchedules(direction)]: the new [currentScheduleIndex], for
    [bestSchedules.length] schedules.  [%] is the remainder that takes the
    sign of the dividend. *)
Definition navigateSchedules (length currentScheduleIndex direction : Z) : Z :=
  if (length =? 0)%Z then currentScheduleIndex
  else Z.rem (currentScheduleIndex + direction + length) length.

Definition days : list string := ["M"; "T"; "W"; "R"; "F"]%string.

Definition colors : list string :=
  ["#FF6384"; "#36A2EB"; "#FFCE56"; "#4BC0C0"; "#9966FF"; "#FF9F40"]%string.

(** A bar of the chart: [{label, data: [{x: [x0, x1], y}],
    backgroundColor}]. *)
Record Dataset : Type := mkDataset {
  label : string;
  x0 : float;
  x1 : float;
  y : string;
  backgroundColor : string
}.

Record plot_state : Type := mkPlotState {
  dayColors : Dict.t string;
  colorIndex : nat;
  datasets : list Dataset
}.

(** [colors[colorIndex % colors.length]] *)
Definition pick_color (colorIndex : nat) : string :=
  nth (colorIndex mod List.length colors) colors EmptyString.

(** [dayColors[code]], [undefined] read as the empty string: it is only
    tested and used after the test. *)
Definition color_of (dayColors : Dict.t string) (code : string) : string :=
  match Dict.get dayColors code with
  | Some c => c
  | None => EmptyString
  end.

(** The body of [schedule.forEach] in [plotSchedule]. *)
Definition plot_section (st : plot_state) (section : Backend.Section)
  : plot_state :=
  let code := Backend.course_code section in
  let st :=
    if negb (JS.truthy (JS.VStr (color_of (dayColors st) code)))
    then mkPlotState (Dict.set (dayColors st) code (pick_color (colorIndex st)))
                     (S (colorIndex st)) (datasets st)
    else st in
  fold_left (fun st ts =>
               if existsb (String.eqb (Backend.ts_day ts)) days
               then mkPlotState (dayColors st) (colorIndex st)
                      (datasets st ++
                         [mkDataset code
                            (parseTimeToFloat (Backend.ts_start_str ts))
                            (parseTimeToFloat (Backend.ts_end_str ts))
                            (Backend.ts_day ts)
                            (color_of (dayColors st) code)])
               else st)
            (Backend.timeslots section) st.

(** The datasets that [plotSchedule] hands to the chart. *)
Definition plotSchedule (schedule : Backend.Schedule) : list Dataset :=
  datasets (fold_left plot_section schedule (mkPlotState Dict.empty 0 [])).

End Legacy.

(** What the catalog builder guarantees of a timeslot: its two numbers are
    what the parser makes of its two strings, both are truthy (not 0, not
    NaN), and its day is one character, not a comma. *)
Definition slot_ok (ts : Backend.Timeslot) : Prop :=
  Backend.parseTime (JS.VStr (Backend.ts_start_str ts))
  = Normal (Backend.ts_start ts)
  /\ Backend.parseTime (JS.VStr (Backend.ts_end_str ts))
     = Normal (Backend.ts_end ts)
  /\ JS.truthy_num (Backend.ts_start ts) = true
  /\ JS.truthy_num (Backend.ts_end ts) = true
  /\ exists c, Backend.ts_day ts = String c EmptyString /\ c <> ","%char.

(** Every character of the string passes the test. *)
Fixpoint string_forall (p : ascii -> bool) (s : string) : bool :=
  match s with
  | EmptyString => true
  | String c s' => p c && string_forall p s'
  end.

(** The first character of the string, if any, fails the test. *)
Definition stops_at (p : ascii -> bool) (s : string) : bool :=
  match s with
  | EmptyString => true
  | String c _ => negb (p c)
  end.

(** ** Well-formed 24-hour clock strings *)

(** ["H:MM"] or ["HH:MM"]. *)
Definition clock24 (pad : bool) (h m : nat) : string :=
  (hour_text pad h ++ ":" ++ two_digits m)%string.

(** The number of hours of a reading, [h + m / 60] in binary64. *)
Definition hours_of (h m : nat) : float :=
  (JS.Z2float (Z.of_nat h) + JS.Z2float (Z.of_nat m) / 60)%float.

(** A test on every hour from 0 to 23 and every minute from 0 to 59, with
    and without padding. *)
Definition on_every_clock24 (ok : bool -> nat -> nat -> bool) : bool :=
  forallb (fun pad =>
    forallb (fun h =>
      forallb (fun m => ok pad h m) (seq 0 60))
      (seq 0 24))
    [false; true].

(** The three parsers and [getPreferences] read a 24-hour string as
    [h + m / 60]; the result is falsy at midnight only. *)
Definition clock24_ok (pad : bool) (h m : nat) : bool :=
  let s := clock24 pad h m in
  let x := hours_of h m in
  returns (Backend.parseTime (JS.VStr s)) x
  && returns (Frontend.parseTime (JS.VStr s)) x
  && PrimFloat.Leibniz.eqb (Legacy.parseTimeToFloat s) x
  && PrimFloat.Leibniz.eqb
       (Backend.before_cutoff
          (Legacy.getPreferences s s false false false false false)) x
  && PrimFloat.Leibniz.eqb
       (Backend.after_cutoff
          (Legacy.getPreferences s s false false false false false)) x
  && Bool.eqb (JS.truthy_num x) (negb ((h =? 0)%nat && (m =? 0)%nat)).

(** The cutoffs of the frontend scorer, read from a 24-hour string with
    [" AM"] or [" PM"] appended: hour 12 becomes 0 before noon, an hour
    below 12 is advanced by 12 after noon. *)
Definition cutoff_ok (pad : bool) (h m : nat) : bool :=
  let s := clock24 pad h m in
  returns (Frontend.parseTime (JS.VStr (s ++ " AM")))
          (hours_of (if (h =? 12)%nat then 0 else h) m)
  && returns (Frontend.parseTime (JS.VStr (s ++ " PM")))
             (hours_of (if (h <? 12)%nat then h + 12 else h) m).

(** A course table with two sections of CS101 and one of MA201, listed
    after them. *)
Definition course_table : list Frontend.Row :=
  [Frontend.mkRow "CS101-01" "M,W" "10:00 AM" "11:00 AM";
   Frontend.mkRow "CS101-02" "T,R" "10:00 AM" "11:00 AM";
   Frontend.mkRow "MA201-01" "M,W" "10:30 AM" "11:30 AM"].

(** ** The backend's sections as the frontend has them *)

(** The timeslot array [[day, start_str, end_str, start, end]] as the
    frontend object [{day, startTime, endTime}]. *)
Definition as_frontend_timeslot (ts : Backend.Timeslot) : Frontend.Timeslot :=
  Frontend.mkTimeslot (Backend.ts_day ts) (Backend.ts_start ts)
                      (Backend.ts_end ts).

Definition as_frontend (s : Backend.Section) : Frontend.Section :=
  Frontend.mkSection (Backend.course_code s) (Backend.section_id s)
                     (map as_frontend_timeslot (Backend.timeslots s)).

(* ================================================================== *)
(** * The dashboard of the frontend (Dashboard.jsx) *)
(* ================================================================== *)

Module Dashboard.

(** A row of the course table as the dashboard reads it: the columns of
    the generator, and the course name. *)
Record Course : Type := mkCourse {
  row : Frontend.Row;
  Course_Name : string
}.

(** An option of the course selector. *)
Record Option : Type := mkOption {
  value : string;
  label : string
}.

(** U+2014, in UTF-8. *)
Definition em_dash : string :=
  String (ascii_of_nat 226)
    (String (ascii_of_nat 128) (String (ascii_of_nat 148) EmptyString)).

(** [(course.Course.match(/^[A-Za-z]+\d+/) || [course.Course])[0]] *)
Definition baseCode (course : Course) : string :=
  match JS.match_letters_digits (Frontend.Course (row course)) with
  | Some m => m
  | None => Frontend.Course (row course)
  end.

(** The body of [allCourses.forEach] in [courseOptions]. *)
Definition add_option (uniqueCourses : Dict.t string) (course : Course)
  : Dict.t string :=
  let baseCode := baseCode course in
  let listed :=
    match Dict.get uniqueCourses baseCode with
    | Some label => JS.truthy (JS.VStr label)
    | None => inherited_property baseCode
    end in
  if JS.truthy (JS.VStr baseCode) && negb listed
  then Dict.set uniqueCourses baseCode
         (baseCode ++ " " ++ em_dash ++ " " ++ Course_Name course)%string
  else uniqueCourses.

Definition courseOptions (allCourses : list Course) : list Option :=
  map (fun e => mkOption (fst e) (snd e))
      (Dict.entries (fold_left add_option allCourses Dict.empty)).

(** [generateSchedules(allCourses, courseCodes)] on the codes of the
    selected options. *)
Definition schedules_of (allCourses : list Course)
  (selectedCourses : list Option)
  : completion (list Frontend.Schedule) :=
  Frontend.generateSchedules (map row allCourses)
                             (map value selectedCourses).

(** The two navigation buttons:
    [setScheduleIndex(Math.max(0, scheduleIndex - 1))] and
    [setScheduleIndex(Math.min(bestSchedules.length - 1, scheduleIndex + 1))]. *)
Definition prev (scheduleIndex : Z) : Z := Z.max 0 (scheduleIndex - 1).

Definition next (length scheduleIndex : Z) : Z :=
  Z.min (length - 1) (scheduleIndex + 1).

End Dashboard.

(** A table whose second row has an identifier that the pattern of the
    base codes does not match. *)
Definition lab_table : list Dashboard.Course :=
  [Dashboard.mkCourse
     (Frontend.mkRow "CS101-01" "M,W" "10:00 AM" "11:00 AM") "Programming";
   Dashboard.mkCourse
     (Frontend.mkRow "LAB-A" "F" "2:00 PM" "4:00 PM") "Laboratory"].

(* ================================================================== *)
(** * The timing check of the scraper (scraper.js) *)
(* ================================================================== *)

Module Scraper.

(** A row read from a CSV file: the three columns that the check reads.
    A column that the file does not have is [undefined]. *)
Record Row : Type := mkRow {
  Course : option string;
  Start_Time : option string;
  End_Time : option string
}.

(** [v?.trim()] *)
Definition trimmed (v : option string) : option string :=
  option_map JS.trim v.

(** [row['Course']?.trim() || lastCode] *)
Definition code_of (row : Row) (lastCode : option string) : option string :=
  match trimmed (Course row) with
  | Some code => if JS.truthy (JS.VStr code) then Some code else lastCode
  | None => lastCode
  end.

(** The body of the loop of [groupCourses], on [groups] and [lastCode].
    Under the name of an inherited property [groups[code]] is truthy
    without being an array, and the call of its [push] throws. *)
Definition group_row (state : Dict.t (list Row) * option string) (row : Row)
  : completion (Dict.t (list Row) * option string) :=
  let groups := fst state in
  let lastCode := snd state in
  match code_of row lastCode with
  | None => Normal state
  | Some code =>
      if negb (JS.truthy (JS.VStr code)) then Normal state
      else
        match Dict.get groups code with
        | Some group =>
            Normal (Dict.set groups code (group ++ [row]), Some code)
        | None =>
            if inherited_property code then Throw TypeError
            else Normal (Dict.set groups code [row], Some code)
        end
  end.

Definition groupCourses (rows : list Row) : completion (Dict.t (list Row)) :=
  state <- foldM group_row rows (Dict.empty, None) ;;
  Normal (fst state).

(** A value in a template literal. *)
Definition show (v : option string) : string :=
  match v with
  | Some s => s
  | None => "undefined"
  end.

(** [index + 1] in a template literal. *)
Definition session_number (index : nat) : string :=
  NilEmpty.string_of_uint (Nat.to_uint (index + 1)).

(** [a !== b] on values that are strings or [undefined]. *)
Definition differ (a b : option string) : bool :=
  match a, b with
  | Some x, Some y => negb (String.eqb x y)
  | None, None => false
  | _, _ => true
  end.

(** The callback of [currentSessions.forEach]. *)
Definition compare_session (code : string) (backupSessions : list Row)
  (changes : list string) (index : nat) (current : Row) : list string :=
  let backup := nth_error backupSessions index in
  let curStart := trimmed (Start_Time current) in
  let curEnd := trimmed (End_Time current) in
  match backup with
  | Some backup =>
      let backStart := trimmed (Start_Time backup) in
      let backEnd := trimmed (End_Time backup) in
      if differ curStart backStart || differ curEnd backEnd
      then changes ++
             ["Course " ++ code ++ " session " ++ session_number index
                ++ " changed: new " ++ show curStart ++ "-" ++ show curEnd
                ++ ", was " ++ show backStart ++ "-" ++ show backEnd]%string
      else changes
  | None =>
      changes ++
        ["Course " ++ code ++ " session " ++ session_number index
           ++ " is new: " ++ show curStart ++ "-" ++ show curEnd]%string
  end.

(** The loop [for (const code in currentGroups)].  A code of
    [currentGroups] names no inherited property, so that
    [backupGroups[code] || []] is the own group or the empty array. *)
Definition compare_groups (currentGroups backupGroups : Dict.t (list Row))
  : list string :=
  fold_left (fun changes code =>
               match Dict.get currentGroups code with
               | Some currentSessions =>
                   let backupSessions :=
                     match Dict.get backupGroups code with
                     | Some group => group
                     | None => []
                     end in
                   fold_left (fun changes indexed =>
                                compare_session code backupSessions changes
                                                (fst indexed) (snd indexed))
                             (combine (seq 0 (List.length currentSessions))
                                      currentSessions)
                             changes
               | None => changes
               end)
            (Dict.keys currentGroups) [].

(** [readCsv] on a file, which is absent or holds rows.  The module binds
    [fs] to [require('fs').promises], which has no [existsSync]: the call
    [fs.existsSync(filePath)] throws a [TypeError] in the executor of the
    promise, which is rejected before the file is looked at. *)
Definition readCsv (file : option (list Row)) : completion (list Row) :=
  Throw TypeError.

(** [checkTimingChanges] on the current file and the backup, each absent
    or holding rows: what the promise resolves to, or its rejection.
    [fs.access] is rejected on an absent file.  The copies that the check
    writes to the backup are not part of the result. *)
Definition checkTimingChanges (current backup : option (list Row))
  : completion (list string) :=
  match current with
  | None =>
      Normal ["Current course data not found. Please scrape first."%string]
  | Some _ =>
      currentRows <- readCsv current ;;
      match backup with
      | None => Normal []
      | Some _ =>
          backupRows <- readCsv backup ;;
          currentGroups <- groupCourses currentRows ;;
          backupGroups <- groupCourses backupRows ;;
          Normal (compare_groups currentGroups backupGroups)
      end
  end.

End Scraper.

(** The rows of the two files list the same courses at the same places. *)
Definition same_course (current backup : Scraper.Row) : Prop :=
  Scraper.Course current = Scraper.Course backup.

(** The two rows have the same times, surrounding blanks apart. *)
Definition same_times (current backup : Scraper.Row) : Prop :=
  Scraper.trimmed (Scraper.Start_Time current)
  = Scraper.trimmed (Scraper.Start_Time backup)
  /\ Scraper.trimmed (Scraper.End_Time current)
     = Scraper.trimmed (Scraper.End_Time backup).

(** The row carries a course code of its own, which names no inherited
    property; or it carries none. *)
Definition code_own (row : Scraper.Row) : Prop :=
  forall code, Scraper.trimmed (Scraper.Course row) = Some code ->
               inherited_property code = false.

(** Two sessions of MA201 and one of CS101, the code filled in on the
    first row of each course only. *)
Definition timing_rows : list Scraper.Row :=
  [Scraper.mkRow (Some "MA201"%string) (Some "09:00"%string) (Some "10:00"%string);
   Scraper.mkRow (Some ""%string) (Some "11:00"%string) (Some "12:00"%string);
   Scraper.mkRow (Some "CS101"%string) (Some "13:00"%string) (Some "14:00"%string)].

(** The same rows, the second session of MA201 an hour later. *)
Definition timing_rows_before : list Scraper.Row :=
  [Scraper.mkRow (Some "MA201"%string) (Some "09:00"%string) (Some "10:00"%string);
   Scraper.mkRow (Some ""%string) (Some "12:00"%string) (Some "13:00"%string);
   Scraper.mkRow (Some "CS101"%string) (Some "13:00"%string) (Some "14:00"%string)].

(** The same keys, a function applied to each value. *)
Definition map_values {V W : Type} (f : V -> W) (d : Dict.t V) : Dict.t W :=
  map (fun e => (fst e, f (snd e))) d.

(** The first row of the file, if any, carries a course code. *)
Definition first_coded (rows : list Scraper.Row) : Prop :=
  match rows with
  | row :: _ => Scraper.code_of row None <> None
  | [] => True
  end.

(* ================================================================== *)
(** * Numbers in the charts *)
(* ================================================================== *)

(** [Math.floor(x)]: a finite binary64 number is [(-1)^s * m * 2^e]; with
    [e] negative its floor is an integer below 2^53. *)
Definition Math_floor (x : float) : float :=
  match Prim2SF x with
  | S754_finite s m e =>
      if (e <? 0)%Z
      then JS.Z2float (Z.shiftr (if s then Z.neg m else Z.pos m) (- e))
      else x
  | _ => x
  end.

(** [Math.round(x)]: the integer nearest to [x], the greater one of two
    nearest; [-0] for a negative [x] from [-0.5] on. *)
Definition Math_round (x : float) : float :=
  match Prim2SF x with
  | S754_finite s m e =>
      if (e <? 0)%Z
      then
        let twice := (2 * (if s then Z.neg m else Z.pos m) + 2 ^ (- e))%Z in
        let n := Z.shiftr twice (- e + 1) in
        if (n =? 0)%Z && s then PrimFloat.neg_zero else JS.Z2float n
      else x
  | _ => x
  end.

(** [x.toString()] and [`${x}`] for a Number that is an integer below
    10^21 in magnitude, or is not finite; [None] for the other Numbers,
    whose digits are not modelled. *)
Definition integer_toString (x : float) : option string :=
  match Prim2SF x with
  | S754_zero _ => Some "0"%string
  | S754_nan => Some "NaN"%string
  | S754_infinity s => Some (if s then "-Infinity" else "Infinity")%string
  | S754_finite s m e =>
      let n := if (e <? 0)%Z then Z.shiftr (Z.pos m) (- e)
               else (Z.pos m * 2 ^ e)%Z in
      if ((0 <=? e)%Z || (Z.shiftl n (- e) =? Z.pos m)%Z)
         && (n <? 10 ^ 21)%Z
      then Some ((if s then "-" else "")
                   ++ NilZero.string_of_uint (N.to_uint (Z.to_N n)))%string
      else None
  end.

(** [s.padStart(2, '0')] *)
Definition padStart2 (s : string) : string :=
  match String.length s with
  | 0 => "00"%string
  | 1 => ("0" ++ s)%string
  | _ => s
  end.

(** ** The chart of the backend's page: tick and tooltip labels *)

Module Tooltip.

(** [formatTime(time)] of the tooltip; the tick callback of the time axis
    has the same body. *)
Definition formatTime (time : float) : option string :=
  let h := Math_floor time in
  let m := Math_round ((time - h) * 60)%float in
  match integer_toString h, integer_toString m with
  | Some hs, Some ms => Some (padStart2 hs ++ ":" ++ padStart2 ms)%string
  | _, _ => None
  end.

End Tooltip.

(** ** The grid of the frontend (SchedulePlot.jsx) *)

Module SchedulePlot.

Definition HOUR_START : nat := 8.
Definition HOUR_END : nat := 20.

(** [timeLabels]: one label for each hour from [HOUR_START] to
    [HOUR_END]. *)
Definition timeLabels : list string :=
  map (fun i => match integer_toString (JS.Z2float (Z.of_nat i)) with
                | Some s => (padStart2 s ++ ":00")%string
                | None => EmptyString
                end)
      (seq HOUR_START (HOUR_END - HOUR_START + 1)).

(** The [gridRow] of the label at a place of [timeLabels]:
    [index * 2 + 1]. *)
Definition label_row (index : nat) : nat := index * 2 + 1.

(** [Math.round((time - HOUR_START) * 2 + 1)] *)
Definition grid_row (time : float) : float :=
  Math_round ((time - JS.Z2float (Z.of_nat HOUR_START)) * 2 + 1)%float.

(** The [gridRow] of the block of a timeslot. *)
Definition gridRow (ts : Frontend.Timeslot) : option string :=
  match integer_toString (grid_row (Frontend.startTime ts)),
        integer_toString (grid_row (Frontend.endTime ts)) with
  | Some a, Some b => Some (a ++ " / " ++ b)%string
  | _, _ => None
  end.

Definition colors : list string :=
  ["#4e79a7"; "#f28e2c"; "#e15759"; "#76b7b2"; "#59a14f"; "#edc949";
   "#af7aa1"; "#ff9da7"; "#9c755f"; "#bab0ab"]%string.

(** [[...new Set(schedule.map(s => s.courseCode))]] *)
Definition courseCodes (schedule : Frontend.Schedule) : list string :=
  fold_left set_add (map Frontend.courseCode schedule) [].

(** The [reduce] that builds [colorMap].  Writing a string to
    ["__proto__"] changes nothing. *)
Definition colorMap (schedule : Frontend.Schedule) : Dict.t string :=
  fold_left (fun acc indexed =>
               if String.eqb (snd indexed) "__proto__" then acc
               else Dict.set acc (snd indexed)
                      (nth (fst indexed mod List.length colors) colors
                           EmptyString))
            (combine (seq 0 (List.length (courseCodes schedule)))
                     (courseCodes schedule))
            Dict.empty.

(** [colorMap[section.courseCode]] when it is a colour: an own property of
    the map. *)
Definition backgroundColor (schedule : Frontend.Schedule)
  (section : Frontend.Section) : option string :=
  Dict.get (colorMap schedule) (Frontend.courseCode section).

End SchedulePlot.

(** The tooltip shows a parsed clock time as it was written, padded. *)
Definition tooltip_ok (pad : bool) (h m : nat) : bool :=
  match Tooltip.formatTime (Legacy.parseTimeToFloat (clock24 pad h m)) with
  | Some s => String.eqb s (clock24 true h m)
  | None => false
  end.

(** The grid row of a time of the day: that of the label of its hour, one
    more from a quarter past, two more from a quarter to the next hour. *)
Definition row_of (h m : nat) : nat :=
  SchedulePlot.label_row (h - SchedulePlot.HOUR_START) + (m + 15) / 30.

(** On the hours of the grid the row computed from the parsed time is
    [row_of], and it is printed in decimal. *)
Definition row_ok (pad : bool) (h m : nat) : bool :=
  (h <? SchedulePlot.HOUR_START)%nat || (SchedulePlot.HOUR_END <? h)%nat
  || (PrimFloat.Leibniz.eqb (SchedulePlot.grid_row (hours_of h m))
                            (JS.Z2float (Z.of_nat (row_of h m)))
      && match integer_toString (JS.Z2float (Z.of_nat (row_of h m))) with
         | Some s =>
             String.eqb s (NilZero.string_of_uint (Nat.to_uint (row_of h m)))
         | None => false
         end).

(* ================================================================== *)
(** * The rows written by the scraper (scraper.js, scrapeCourses) *)
(* ================================================================== *)

Module ScrapeCourses.

(** A scraped row: the three columns of the course and the seven other
    columns. *)
Record Course : Type := mkCourse {
  Course_code : string;
  Course_Name : string;
  Credits : string;
  details : list string
}.

(** [lastCourse] *)
Record Last : Type := mkLast {
  last_Course : string;
  last_Course_Name : string;
  last_Credits : string
}.

(** The callback of [courses.map], on [lastCourse] and the rows returned
    so far. *)
Definition fill (state : Last * list Course) (course : Course)
  : Last * list Course :=
  let lastCourse := fst state in
  if JS.truthy (JS.VStr (Course_code course))
  then (mkLast (Course_code course) (Course_Name course) (Credits course),
        snd state ++ [course])
  else (lastCourse,
        snd state ++
          [mkCourse (last_Course lastCourse) (last_Course_Name lastCourse)
                    (last_Credits lastCourse) (details course)]).

Definition fill_from (courses : list Course) : Last * list Course :=
  fold_left fill courses (mkLast "" "" "", []).

(** [processedCourses] *)
Definition processedCourses (courses : list Course) : list Course :=
  snd (fill_from courses).

End ScrapeCourses.

(** The three course columns of a row. *)
Definition course_columns (c : ScrapeCourses.Course) : ScrapeCourses.Last :=
  ScrapeCourses.mkLast (ScrapeCourses.Course_code c)
                       (ScrapeCourses.Course_Name c) (ScrapeCourses.Credits c).

(* ================================================================== *)
(** * Properties *)
(* ================================================================== *)

(** ** Completions and folds *)

(** A loop whose body cannot throw is a plain left fold. *)
Lemma foldM_pure {A S : Type} (f : S -> A -> completion S) (g : S -> A -> S)
  (l : list A) :
  (forall s x, In x l -> f s x = Normal (g s x)) ->
  forall s, foldM f l s = Normal (fold_left g l s).
Proof.
  induction l as [|x l IH]; intros Hf s; simpl; [reflexivity|].
  rewrite Hf by (left; reflexivity). simpl.
  apply IH. intros s' y Hy. apply Hf. right; exact Hy.
Qed.

(** Pushing the elements that pass a test is [filter]. *)
Lemma fold_left_push_filter {A : Type} (keep : A -> bool) (l acc : list A) :
  fold_left (fun valid c => if keep c then valid ++ [c] else valid) l acc
  = acc ++ filter keep l.
Proof.
  revert acc. induction l as [|x l IH]; intros acc; simpl.
  - now rewrite app_nil_r.
  - rewrite IH. destruct (keep x); [|reflexivity].
    now rewrite <- app_assoc.
Qed.

(** ** Pairs of a list *)

Section PairsFacts.
Variable S : Type.
Variable conf : S -> S -> bool.

Lemma any_pair_true_iff (c : list S) :
  any_pair conf c = true <->
  exists i j a b, i < j /\ nth_error c i = Some a /\ nth_error c j = Some b
                  /\ conf a b = true.
Proof.
  induction c as [|s rest IH]; simpl.
  - split; [discriminate|].
    intros (i & j & a & b & _ & Hi & _). destruct i; discriminate.
  - rewrite orb_true_iff, existsb_exists, IH. split.
    + intros [(b & Hb & Hc) | (i & j & a & b & Hij & Hi & Hj & Hc)].
      * apply In_nth_error in Hb. destruct Hb as [j Hj].
        exists 0, (Datatypes.S j), s, b. repeat split; auto; lia.
      * exists (Datatypes.S i), (Datatypes.S j), a, b.
        repeat split; auto; lia.
    + intros (i & j & a & b & Hij & Hi & Hj & Hc).
      destruct j as [|j]; [lia|]. simpl in Hj.
      destruct i as [|i]; simpl in Hi.
      * left. injection Hi as <-. exists b. split; auto.
        eapply nth_error_In; eauto.
      * right. exists i, j, a, b. repeat split; auto; lia.
Qed.

Lemma any_pair_false_iff (c : list S) :
  any_pair conf c = false <->
  forall i j a b, i < j -> nth_error c i = Some a -> nth_error c j = Some b
                  -> conf a b = false.
Proof.
  split.
  - intros H i j a b Hij Hi Hj.
    destruct (conf a b) eqn:Hc; [|reflexivity].
    assert (any_pair conf c = true) as Ht
      by (apply any_pair_true_iff; exists i, j, a, b; auto).
    congruence.
  - intros H. destruct (any_pair conf c) eqn:Ht; [|reflexivity].
    apply any_pair_true_iff in Ht.
    destruct Ht as (i & j & a & b & Hij & Hi & Hj & Hc).
    rewrite (H i j a b Hij Hi Hj) in Hc. discriminate.
Qed.
End PairsFacts.

(** ** Comparison of Numbers *)

Lemma SFcompare_swap (x y : spec_float) :
  SFcompare y x = option_map CompOpp (SFcompare x y).
Proof.
  destruct x as [sx|sx| |sx mx ex], y as [sy|sy| |sy my ey]; simpl;
    try reflexivity;
    try (destruct sx; reflexivity); try (destruct sy; reflexivity);
    try (destruct sx, sy; reflexivity).
  destruct sx, sy; try reflexivity;
    rewrite (Z.compare_antisym ey ex);
    destruct (ey ?= ex)%Z; simpl; try reflexivity;
    change (PosDef.Pos.compare_cont Eq my mx) with (Pos.compare my mx);
    change (PosDef.Pos.compare_cont Eq mx my) with (Pos.compare mx my);
    rewrite (Pos.compare_antisym my mx);
    destruct (Pos.compare my mx); reflexivity.
Qed.

(** [a == b] excludes [b < a]. *)
Lemma num_eq_not_gt (a b : float) :
  JS.num_eq a b = true -> JS.gt a b = false.
Proof.
  unfold JS.num_eq, JS.gt. rewrite eqb_spec, ltb_spec.
  unfold SFeqb, SFltb. rewrite (SFcompare_swap (Prim2SF a) (Prim2SF b)).
  destruct (SFcompare (Prim2SF a) (Prim2SF b)) as [[| |]|]; simpl;
    intros H; congruence.
Qed.

(** ** The Conflict Detector *)

Lemma backend_overlaps_iff (t1 t2 : Backend.Timeslot) :
  Backend.overlaps t1 t2 = true <->
  Backend.ts_day t1 = Backend.ts_day t2
  /\ JS.gt (Backend.ts_end t1) (Backend.ts_start t2) = true
  /\ JS.gt (Backend.ts_end t2) (Backend.ts_start t1) = true.
Proof.
  unfold Backend.overlaps. rewrite !andb_true_iff, String.eqb_eq. tauto.
Qed.

Lemma frontend_overlaps_iff (t1 t2 : Frontend.Timeslot) :
  Frontend.overlaps t1 t2 = true <->
  Frontend.day t1 = Frontend.day t2
  /\ JS.gt (Frontend.endTime t1) (Frontend.startTime t2) = true
  /\ JS.gt (Frontend.endTime t2) (Frontend.startTime t1) = true.
Proof.
  unfold Frontend.overlaps. rewrite !andb_true_iff, String.eqb_eq. tauto.
Qed.

Lemma backend_conflictsWith_iff (a b : Backend.Section) :
  Backend.conflictsWith a b = true <->
  exists t1 t2, In t1 (Backend.timeslots a) /\ In t2 (Backend.timeslots b)
                /\ Backend.overlaps t1 t2 = true.
Proof.
  unfold Backend.conflictsWith. rewrite existsb_exists. split.
  - intros (t1 & H1 & H). apply existsb_exists in H.
    destruct H as (t2 & H2 & H). eauto.
  - intros (t1 & t2 & H1 & H2 & H). exists t1. split; [assumption|].
    apply existsb_exists. eauto.
Qed.

Lemma frontend_conflictsWith_iff (a b : Frontend.Section) :
  Frontend.conflictsWith a b = true <->
  exists t1 t2, In t1 (Frontend.timeslots a) /\ In t2 (Frontend.timeslots b)
                /\ Frontend.overlaps t1 t2 = true.
Proof.
  unfold Frontend.conflictsWith. rewrite existsb_exists. split.
  - intros (t1 & H1 & H). apply existsb_exists in H.
    destruct H as (t2 & H2 & H). eauto.
  - intros (t1 & t2 & H1 & H2 & H). exists t1. split; [assumption|].
    apply existsb_exists. eauto.
Qed.

Lemma backend_overlaps_sym (t1 t2 : Backend.Timeslot) :
  Backend.overlaps t1 t2 = Backend.overlaps t2 t1.
Proof.
  unfold Backend.overlaps. rewrite (String.eqb_sym (Backend.ts_day t1)).
  destruct (String.eqb _ _); simpl; [apply andb_comm|reflexivity].
Qed.

Lemma frontend_overlaps_sym (t1 t2 : Frontend.Timeslot) :
  Frontend.overlaps t1 t2 = Frontend.overlaps t2 t1.
Proof.
  unfold Frontend.overlaps. rewrite (String.eqb_sym (Frontend.day t1)).
  destruct (String.eqb _ _); simpl; [apply andb_comm|reflexivity].
Qed.

Lemma backend_conflictsWith_sym (a b : Backend.Section) :
  Backend.conflictsWith a b = Backend.conflictsWith b a.
Proof.
  apply eq_true_iff_eq. rewrite !backend_conflictsWith_iff.
  split; intros (t1 & t2 & H1 & H2 & H); exists t2, t1;
    rewrite backend_overlaps_sym; auto.
Qed.

Lemma frontend_conflictsWith_sym (a b : Frontend.Section) :
  Frontend.conflictsWith a b = Frontend.conflictsWith b a.
Proof.
  apply eq_true_iff_eq. rewrite !frontend_conflictsWith_iff.
  split; intros (t1 & t2 & H1 & H2 & H); exists t2, t1;
    rewrite frontend_overlaps_sym; auto.
Qed.

(** C3: a section conflicts with another exactly when a timeslot of the
    first and a timeslot of the second have the same day and satisfy
    [a.end > b.start] and [b.end > a.start]; a timeslot that ends when the
    other starts does not overlap it, whatever the days.  Both
    implementations. *)
Theorem conflictsWith_contract :
  (forall a b : Backend.Section,
      Backend.conflictsWith a b = true <->
      exists t1 t2,
        In t1 (Backend.timeslots a) /\ In t2 (Backend.timeslots b)
        /\ Backend.ts_day t1 = Backend.ts_day t2
        /\ JS.gt (Backend.ts_end t1) (Backend.ts_start t2) = true
        /\ JS.gt (Backend.ts_end t2) (Backend.ts_start t1) = true)
  /\ (forall (t1 t2 : Backend.Timeslot) c1 i1 c2 i2,
         JS.num_eq (Backend.ts_end t1) (Backend.ts_start t2) = true ->
         Backend.conflictsWith (Backend.mkSection c1 i1 [t1])
                               (Backend.mkSection c2 i2 [t2]) = false)
  /\ (forall a b : Frontend.Section,
         Frontend.conflictsWith a b = true <->
         exists t1 t2,
           In t1 (Frontend.timeslots a) /\ In t2 (Frontend.timeslots b)
           /\ Frontend.day t1 = Frontend.day t2
           /\ JS.gt (Frontend.endTime t1) (Frontend.startTime t2) = true
           /\ JS.gt (Frontend.endTime t2) (Frontend.startTime t1) = true)
  /\ (forall (t1 t2 : Frontend.Timeslot) c1 i1 c2 i2,
         JS.num_eq (Frontend.endTime t1) (Frontend.startTime t2) = true ->
         Frontend.conflictsWith (Frontend.mkSection c1 i1 [t1])
                                (Frontend.mkSection c2 i2 [t2]) = false).
Proof.
  split; [|split; [|split]].
  - intros a b. rewrite backend_conflictsWith_iff.
    split; intros (t1 & t2 & H1 & H2 & H); exists t1, t2;
      repeat split; try assumption; try (apply backend_overlaps_iff in H; tauto).
  - intros t1 t2 c1 i1 c2 i2 Heq.
    unfold Backend.conflictsWith, Backend.overlaps; simpl.
    rewrite (num_eq_not_gt Heq).
    now rewrite andb_false_r.
  - intros a b. rewrite frontend_conflictsWith_iff.
    split; intros (t1 & t2 & H1 & H2 & H); exists t1, t2;
      repeat split; try assumption; try (apply frontend_overlaps_iff in H; tauto).
  - intros t1 t2 c1 i1 c2 i2 Heq.
    unfold Frontend.conflictsWith, Frontend.overlaps; simpl.
    rewrite (num_eq_not_gt Heq).
    now rewrite andb_false_r.
Qed.

(** Monday 10:00-11:00 against Monday 11:00-12:00. *)
Lemma conflictsWith_contract_witness :
  Backend.conflictsWith
    (Backend.mkSection "CS101" "CS101-01"
       [Backend.mkTimeslot "M" "10:00" "11:00" 10 11])
    (Backend.mkSection "MA201" "MA201-01"
       [Backend.mkTimeslot "M" "11:00" "12:00" 11 12]) = false.
Proof.
  apply (proj1 (proj2 conflictsWith_contract)). reflexivity.
Defined.


(** ** The pairs enumerated by [combinations(c, 2)] *)

Section CombinationsOfTwo.
Variable A : Type.
Variable pool : list A.

(** [later a b i j]: the pair of positions [(i, j)] comes after [(a, b)]
    in the enumeration. *)
Let later (a b i j : nat) : Prop :=
  i < j < Backend.n pool /\ (a < i \/ (a = i /\ b < j)).

Lemma loop_two (fuel : nat) :
  forall a b,
    a < b < Backend.n pool ->
    (Backend.n pool - 2 - a) * Backend.n pool + (Backend.n pool - 1 - b) < fuel ->
    exists out,
      Backend.loop pool 2 fuel [a; b] = Normal out
      /\ forall p, In p out <->
                   exists i j, later a b i j
                               /\ p = [nth_error pool i; nth_error pool j].
Proof.
  induction fuel as [|fuel IH]; intros a b Hab Hfuel;
    [exfalso; exact (Nat.nlt_0_r _ Hfuel)|].
  cbn [Backend.loop Backend.scan nth].
  destruct (Z.eqb_spec (Z.of_nat b) (Z.of_nat 1 + Z.of_nat (Backend.n pool) - Z.of_nat 2))
    as [Hb|Hb].
  - destruct (Z.eqb_spec (Z.of_nat a) (Z.of_nat 0 + Z.of_nat (Backend.n pool) - Z.of_nat 2))
      as [Ha|Ha].
    + exists []. split; [reflexivity|].
      intros p. split; [intros []|].
      intros (i & j & [Hij Hlex] & _). lia.
    + destruct (IH (S a) (S (S a))) as (out & Hout & Hin); [lia|nia|].
      change (Backend.advance 2 0 [a; b]) with [S a; S (S a)].
      rewrite Hout. cbn [bind]. eexists. split; [reflexivity|].
      intros p. cbn [In Backend.pick map]. rewrite Hin. split.
      * intros [<- | (i & j & [Hij Hlex] & ->)].
        -- exists (S a), (S (S a)). split; [split; lia|reflexivity].
        -- exists i, j. split; [split; lia|reflexivity].
      * intros (i & j & [Hij Hlex] & ->).
        destruct (Nat.eq_dec i (S a)) as [->|Hi];
          [destruct (Nat.eq_dec j (S (S a))) as [->|Hj]|].
        -- left; reflexivity.
        -- right. exists (S a), j. split; [split; lia|reflexivity].
        -- right. exists i, j. split; [split; lia|reflexivity].
  - destruct (IH a (S b)) as (out & Hout & Hin); [lia|lia|].
    change (Backend.advance 2 1 [a; b]) with [a; S b].
    rewrite Hout. cbn [bind]. eexists. split; [reflexivity|].
    intros p. cbn [In Backend.pick map]. rewrite Hin. split.
    + intros [<- | (i & j & [Hij Hlex] & ->)].
      * exists a, (S b). split; [split; lia|reflexivity].
      * exists i, j. split; [split; lia|reflexivity].
    + intros (i & j & [Hij Hlex] & ->).
      destruct (Nat.eq_dec i a) as [->|Hi];
        [destruct (Nat.eq_dec j (S b)) as [->|Hj]|].
      * left; reflexivity.
      * right. exists a, j. split; [split; lia|reflexivity].
      * right. exists i, j. split; [split; lia|reflexivity].
Qed.

(** The generator ends, and yields the pairs [pool[i], pool[j]] with
    [i < j], nothing else. *)
Lemma combinations_two :
  exists out,
    Backend.combinations pool 2 = Normal out
    /\ forall p, In p out <->
                 exists i j, i < j < Backend.n pool
                             /\ p = [nth_error pool i; nth_error pool j].
Proof.
  unfold Backend.combinations, Backend.combinations_fuel.
  destruct (Nat.ltb_spec (Backend.n pool) 2) as [Hn|Hn].
  - exists []. split; [reflexivity|].
    intros p. split; [intros []|]. intros (i & j & Hij & _). lia.
  - destruct (@loop_two (S ((Backend.n pool) ^ 2)) 0 1) as (out & Hout & Hin);
      [lia| simpl; nia |].
    change (seq 0 2) with [0; 1]. rewrite Hout. cbn [bind].
    eexists. split; [reflexivity|].
    intros p. cbn [In Backend.pick map]. rewrite Hin. split.
    + intros [<- | (i & j & [Hij Hlex] & ->)].
      * exists 0, 1. split; [lia|reflexivity].
      * exists i, j. split; [lia|reflexivity].
    + intros (i & j & Hij & ->).
      destruct (Nat.eq_dec i 0) as [->|Hi];
        [destruct (Nat.eq_dec j 1) as [->|Hj]|].
      * left; reflexivity.
      * right. exists 0, j. split; [split; lia|reflexivity].
      * right. exists i, j. split; [split; lia|reflexivity].
Qed.
End CombinationsOfTwo.


Lemma any_conflict_spec (pairs : list (list (option Backend.Section))) :
  (forall p, In p pairs -> exists s1 s2, p = [Some s1; Some s2]) ->
  Backend.any_conflict pairs = Normal (existsb pair_conflict pairs).
Proof.
  induction pairs as [|p rest IH]; intros Hwf; [reflexivity|].
  destruct (Hwf p (or_introl eq_refl)) as (s1 & s2 & ->).
  cbn [Backend.any_conflict nth existsb pair_conflict].
  destruct (Backend.conflictsWith s1 s2); [reflexivity|].
  apply IH. intros q Hq. apply Hwf. right; exact Hq.
Qed.

(** The loop over [combinations(c, 2)] ends without throwing and finds a
    conflict exactly when some section conflicts with a later one. *)
Lemma backend_hasConflict_spec (c : Backend.Schedule) :
  Backend.hasConflict c = Normal (any_pair Backend.conflictsWith c).
Proof.
  unfold Backend.hasConflict.
  destruct (combinations_two c) as (out & -> & Hin). cbn [bind].
  rewrite any_conflict_spec.
  - f_equal. apply eq_true_iff_eq.
    rewrite existsb_exists, any_pair_true_iff. split.
    + intros (p & Hp & Hc). apply Hin in Hp.
      destruct Hp as (i & j & Hij & ->).
      destruct (nth_error c i) as [a|] eqn:Hi,
               (nth_error c j) as [b|] eqn:Hj; try discriminate.
      exists i, j, a, b. repeat split; auto; lia.
    + intros (i & j & a & b & Hij & Hi & Hj & Hc).
      exists [Some a; Some b]. split; [|exact Hc].
      apply Hin. exists i, j. rewrite Hi, Hj. split; [|reflexivity].
      split; [exact Hij|]. apply nth_error_Some. unfold Backend.n. congruence.
  - intros p Hp. apply Hin in Hp. destruct Hp as (i & j & Hij & ->).
    destruct (nth_error c i) as [a|] eqn:Hi.
    + destruct (nth_error c j) as [b|] eqn:Hj; [eauto|].
      apply nth_error_None in Hj. unfold Backend.n in Hij. lia.
    + apply nth_error_None in Hi. unfold Backend.n in Hij. lia.
Qed.

(** The backend generator keeps, in order, the tuples of the product in
    which no section conflicts with a later one. *)
Lemma backend_generateSchedules_spec (courses : Dict.t (list Backend.Section)) :
  Backend.generateSchedules courses
  = Normal (filter (fun c => negb (any_pair Backend.conflictsWith c))
                   (Backend.product (Dict.values courses))).
Proof.
  unfold Backend.generateSchedules.
  rewrite foldM_pure
    with (g := fun valid c => if negb (any_pair Backend.conflictsWith c)
                              then valid ++ [c] else valid).
  - now rewrite fold_left_push_filter.
  - intros s c _. rewrite backend_hasConflict_spec. cbn [bind].
    now destruct (any_pair Backend.conflictsWith c).
Qed.

(** ** Sorting *)

Section SortFacts.
Variable A : Type.
Variable neg : A -> A -> bool.

Lemma insert_perm (x : A) (l : list A) :
  Permutation (JS.insert neg x l) (x :: l).
Proof.
  induction l as [|y l IH]; simpl; [reflexivity|].
  destruct (neg y x); [|reflexivity].
  rewrite IH. apply perm_swap.
Qed.

Lemma sort_perm (l : list A) : Permutation (JS.sort neg l) l.
Proof.
  induction l as [|x l IH]; simpl; [reflexivity|].
  rewrite insert_perm. now constructor.
Qed.

Lemma sort_length (l : list A) : List.length (JS.sort neg l) = List.length l.
Proof. apply Permutation_length, sort_perm. Qed.
End SortFacts.

(** ** Objects used as maps *)

Section DictFacts.
Variable V : Type.

Lemma get_set_same (d : Dict.t V) (k : string) (v : V) :
  Dict.get (Dict.set d k v) k = Some v.
Proof.
  induction d as [|[k' v'] d IH]; simpl.
  - now rewrite String.eqb_refl.
  - destruct (String.eqb k' k) eqn:E; simpl.
    + now rewrite String.eqb_refl.
    + now rewrite E.
Qed.

Lemma get_set_other (d : Dict.t V) (k k' : string) (v : V) :
  k <> k' -> Dict.get (Dict.set d k v) k' = Dict.get d k'.
Proof.
  intros Hk. induction d as [|[k0 v0] d IH]; simpl.
  - destruct (String.eqb_spec k k'); [contradiction|reflexivity].
  - destruct (String.eqb_spec k0 k) as [->|E]; simpl.
    + destruct (String.eqb_spec k k'); [contradiction|reflexivity].
    + now rewrite IH.
Qed.

Lemma get_some_in (d : Dict.t V) (k : string) (v : V) :
  Dict.get d k = Some v -> In (k, v) d.
Proof.
  induction d as [|[k0 v0] d IH]; simpl; [discriminate|].
  destruct (String.eqb_spec k0 k) as [->|E].
  - intros [= ->]. now left.
  - intros H. right. now apply IH.
Qed.

Lemma get_none_iff (d : Dict.t V) (k : string) :
  Dict.get d k = None <-> ~ In k (map fst d).
Proof.
  induction d as [|[k0 v0] d IH]; simpl; [tauto|].
  destruct (String.eqb_spec k0 k) as [->|E].
  - split; [discriminate|]. intros H. exfalso. apply H. now left.
  - rewrite IH. tauto.
Qed.

Lemma in_keys_get (d : Dict.t V) (k : string) :
  In k (map fst d) -> exists v, Dict.get d k = Some v.
Proof.
  intros H. destruct (Dict.get d k) as [v|] eqn:E; [eauto|].
  apply get_none_iff in E. contradiction.
Qed.

(** Writing to an existing key changes no key. *)
Lemma set_existing_keys (d : Dict.t V) (k : string) (v : V) :
  In k (map fst d) -> map fst (Dict.set d k v) = map fst d.
Proof.
  induction d as [|[k0 v0] d IH]; simpl; [tauto|].
  destruct (String.eqb_spec k0 k) as [->|E]; simpl; [reflexivity|].
  intros [H|H]; [contradiction|]. now rewrite IH.
Qed.

(** Writing to a new key appends it. *)
Lemma set_new_keys (d : Dict.t V) (k : string) (v : V) :
  ~ In k (map fst d) -> Dict.set d k v = d ++ [(k, v)].
Proof.
  induction d as [|[k0 v0] d IH]; simpl; [reflexivity|].
  destruct (String.eqb_spec k0 k) as [->|E]; simpl.
  - intros H. exfalso. apply H. now left.
  - intros H. rewrite IH; [reflexivity|tauto].
Qed.

Lemma set_nodup (d : Dict.t V) (k : string) (v : V) :
  NoDup (map fst d) -> NoDup (map fst (Dict.set d k v)).
Proof.
  intros Hd. destruct (in_dec string_dec k (map fst d)) as [Hin|Hin].
  - now rewrite set_existing_keys.
  - rewrite set_new_keys by assumption. rewrite map_app. simpl.
    apply NoDup_app_remove_l with (l := []). simpl.
    apply Permutation_NoDup with (l := k :: map fst d).
    + apply Permutation_cons_append.
    + now constructor.
Qed.

Lemma filter_split_perm (A : Type) (p : A -> bool) (l : list A) :
  Permutation (filter p l ++ filter (fun x => negb (p x)) l) l.
Proof.
  induction l as [|x l IH]; simpl; [reflexivity|].
  destruct (p x); simpl.
  - now constructor.
  - rewrite <- Permutation_middle. now constructor.
Qed.

(** Enumeration reorders the properties and loses none. *)
Lemma entries_perm (d : Dict.t V) : Permutation (Dict.entries d) d.
Proof.
  unfold Dict.entries. rewrite sort_perm. apply filter_split_perm.
Qed.

Lemma keys_perm (d : Dict.t V) : Permutation (Dict.keys d) (map fst d).
Proof. unfold Dict.keys. apply Permutation_map, entries_perm. Qed.

Lemma values_perm (d : Dict.t V) : Permutation (Dict.values d) (map snd d).
Proof. unfold Dict.values. apply Permutation_map, entries_perm. Qed.

Lemma in_keys_iff (d : Dict.t V) (k : string) :
  In k (Dict.keys d) <-> In k (map fst d).
Proof.
  split; apply Permutation_in; [|symmetry]; apply keys_perm.
Qed.

End DictFacts.

(** ** The frontend generator *)

Lemma frontend_hasConflict_spec (combo : Frontend.Schedule) :
  Frontend.hasConflict combo = any_pair Frontend.conflictsWith combo.
Proof.
  apply eq_true_iff_eq. unfold Frontend.hasConflict.
  rewrite existsb_exists, any_pair_true_iff. split.
  - intros (i & Hi & H). apply existsb_exists in H.
    destruct H as (j & Hj & H). apply in_seq in Hj.
    destruct (nth_error combo i) as [a|] eqn:Ea; [|discriminate].
    destruct (nth_error combo j) as [b|] eqn:Eb; [|discriminate].
    exists i, j, a, b. repeat split; auto; lia.
  - intros (i & j & a & b & Hij & Hi & Hj & Hc).
    assert (j < List.length combo) by (apply nth_error_Some; congruence).
    exists i. split; [apply in_seq; lia|].
    apply existsb_exists. exists j. split; [apply in_seq; lia|].
    now rewrite Hi, Hj.
Qed.

Lemma split_not_nil (sep : ascii) (s : string) : JS.split sep s <> [].
Proof.
  destruct s as [|c s]; simpl; [discriminate|].
  destruct (Ascii.eqb c sep); [discriminate|].
  destruct (JS.split sep s); discriminate.
Qed.

(** The frontend parser never throws. *)
Lemma frontend_parseTime_total (v : JS.value) :
  exists x, Frontend.parseTime v = Normal x.
Proof.
  unfold Frontend.parseTime.
  destruct (negb (JS.truthy v) || negb (String.eqb (JS.typeof v) "string"))
    eqn:Hguard; [eauto|].
  destruct v as [| |b|x|s|]; cbn in Hguard; rewrite ?orb_true_r in Hguard;
    try discriminate Hguard.
  cbn [JS.call_split bind].
  destruct (JS.split " " s) as [|time rest] eqn:Hs;
    [now apply split_not_nil in Hs|].
  cbn [nth_error bind]. eauto.
Qed.

Lemma new_Timeslot_total (d s e : string) :
  exists t, Frontend.new_Timeslot d s e = Normal t /\ Frontend.day t = d.
Proof.
  unfold Frontend.new_Timeslot.
  destruct (frontend_parseTime_total (JS.VStr s)) as [x ->].
  destruct (frontend_parseTime_total (JS.VStr e)) as [y ->].
  cbn [bind]. eauto.
Qed.

Lemma mapM_total {A B : Type} (f : A -> completion B) (l : list A) :
  (forall x, In x l -> exists y, f x = Normal y) ->
  exists ys, mapM f l = Normal ys /\ List.length ys = List.length l.
Proof.
  induction l as [|x l IH]; intros Hf; simpl; [eauto|].
  destruct (Hf x (or_introl eq_refl)) as [y ->].
  destruct IH as (ys & -> & Hlen); [intros z Hz; apply Hf; now right|].
  cbn [bind]. exists (y :: ys). simpl. auto.
Qed.

Lemma in_set_inv {V : Type} (d : Dict.t V) (k : string) (v : V)
  (e : string * V) :
  In e (Dict.set d k v) -> e = (k, v) \/ In e d.
Proof.
  induction d as [|[k0 v0] d IH]; simpl.
  - intros [<-|[]]. now left.
  - destruct (String.eqb k0 k); simpl.
    + intros [<-|H]; auto.
    + intros [<-|H]; auto. destruct (IH H); auto.
Qed.

(** The course code recorded for a section is the base code of a row, and a
    selected code; [P] is any property of such codes. *)
Lemma add_row_codes (P : string -> Prop) (selected : list string)
  (row : Frontend.Row) (sd : Dict.t Frontend.SectionData) :
  (forall code, JS.match_letters_digits (Frontend.Course row) = Some code ->
                In code selected -> P code) ->
  (forall e, In e sd -> P (Frontend.data_courseCode (snd e))) ->
  forall e, In e (Frontend.add_row selected sd row) ->
            P (Frontend.data_courseCode (snd e)).
Proof.
  intros Hrow Hsd. unfold Frontend.add_row.
  destruct (JS.match_letters_digits (Frontend.Course row)) as [code|];
    [|exact Hsd].
  cbn [Frontend.includes].
  destruct (existsb (String.eqb code) selected) eqn:Hinc; [|exact Hsd].
  assert (P code) as Hcode.
  { apply Hrow; [reflexivity|].
    apply existsb_exists in Hinc. destruct Hinc as (c & Hc & E).
    apply String.eqb_eq in E. now subst. }
  set (sd0 := match Dict.get sd (Frontend.Course row) with
              | Some _ => sd
              | None => Dict.set sd (Frontend.Course row)
                                 (Frontend.mkSectionData code [])
              end).
  assert (forall e, In e sd0 -> P (Frontend.data_courseCode (snd e)))
    as Hsd0.
  { subst sd0. destruct (Dict.get sd (Frontend.Course row)); [exact Hsd|].
    intros e He. apply in_set_inv in He. destruct He as [->|He]; auto. }
  clearbody sd0. revert sd0 Hsd0.
  induction (Frontend.row_days row) as [|d ds IH]; intros sd0 Hsd0;
    simpl; [exact Hsd0|].
  apply IH.
  destruct (Dict.get sd0 (Frontend.Course row)) as [data|] eqn:Hget;
    [|exact Hsd0].
  intros e He. apply in_set_inv in He. destruct He as [->|He]; auto.
  simpl. apply get_some_in in Hget. apply (Hsd0 _ Hget).
Qed.

Lemma sectionsData_codes (P : string -> Prop) (selected : list string)
  (rows : list Frontend.Row) :
  (forall row code,
      In row rows ->
      JS.match_letters_digits (Frontend.Course row) = Some code ->
      In code selected -> P code) ->
  forall sd,
    (forall e, In e sd -> P (Frontend.data_courseCode (snd e))) ->
    forall e, In e (fold_left (Frontend.add_row selected) rows sd) ->
              P (Frontend.data_courseCode (snd e)).
Proof.
  induction rows as [|row rows IH]; intros Hrows sd Hsd; simpl; [exact Hsd|].
  apply IH.
  - intros r c Hr. apply Hrows. now right.
  - apply add_row_codes; [|exact Hsd].
    intros c. apply Hrows. now left.
Qed.

(** The map of courses before any section is filed: a key per selected
    code, each with an empty list. *)
Lemma initial_courses (selected : list string) :
  forall d : Dict.t (list Frontend.Section),
    let d' := fold_left (fun courses code => Dict.set courses code [])
                        selected d in
    (forall c, In c (map fst d') <-> In c (map fst d) \/ In c selected)
    /\ List.length d' <= List.length d + List.length selected
    /\ (NoDup (map fst d) -> NoDup (map fst d')).
Proof.
  induction selected as [|code selected IH]; intros d; simpl.
  - repeat split; auto; try tauto; lia.
  - destruct (IH (Dict.set d code [])) as (Hin & Hlen & Hnd).
    destruct (in_dec string_dec code (map fst d)) as [Hcode|Hcode].
    + pose proof (@set_existing_keys _ d code [] Hcode) as E.
      split; [|split].
      * intros c. rewrite Hin, E. split; [tauto|].
        intros [H|[<-|H]]; auto.
      * etransitivity; [exact Hlen|].
        apply (f_equal (@List.length _)) in E. rewrite !length_map in E. lia.
      * intros Hd. apply Hnd. now apply set_nodup.
    + pose proof (@set_new_keys _ d code [] Hcode) as E.
      split; [|split].
      * intros c. rewrite Hin, E, map_app, in_app_iff. simpl. tauto.
      * etransitivity; [exact Hlen|]. rewrite E, length_app. simpl. lia.
      * intros Hd. apply Hnd. now apply set_nodup.
Qed.

(** ... and every list in it is empty. *)
Lemma initial_groups_empty (selected : list string) :
  forall d : Dict.t (list Frontend.Section),
    (forall e, In e d -> snd e = []) ->
    forall e, In e (fold_left (fun courses code => Dict.set courses code [])
                              selected d) -> snd e = [].
Proof.
  induction selected as [|c sel IH]; intros d Hd; simpl; [exact Hd|].
  apply IH. intros e He. apply in_set_inv in He.
  destruct He as [->|He]; auto.
Qed.

(** Filing the sections: no key is added, and a section filed under a code
    carries that code; [Q] is any property of the codes of the sections. *)
Lemma add_sections_spec (Q : string -> Prop)
  (sd : Dict.t Frontend.SectionData) (keys : list string) :
  forall courses : Dict.t (list Frontend.Section),
    (forall k, In k keys ->
               exists data,
                 Dict.get sd k = Some data
                 /\ In (Frontend.data_courseCode data) (map fst courses)
                 /\ Q (Frontend.data_courseCode data)) ->
    (forall k group s, In (k, group) courses -> In s group ->
                       Frontend.courseCode s = k /\ Q k) ->
    exists courses',
      foldM (Frontend.add_section sd) keys courses = Normal courses'
      /\ map fst courses' = map fst courses
      /\ (forall k group s, In (k, group) courses' -> In s group ->
                            Frontend.courseCode s = k /\ Q k).
Proof.
  induction keys as [|k keys IH]; intros courses Hkeys Hok; simpl; [eauto|].
  destruct (Hkeys k (or_introl eq_refl)) as (data & Hdata & Hcode & HQ).
  unfold Frontend.add_section at 1. rewrite Hdata.
  destruct (mapM_total
              (fun t => Frontend.new_Timeslot (Frontend.raw_day t)
                          (Frontend.raw_start t) (Frontend.raw_end t))
              (Frontend.timeslotsRaw data)) as (ts & -> & _).
  { intros t _. destruct (new_Timeslot_total (Frontend.raw_day t)
                            (Frontend.raw_start t) (Frontend.raw_end t))
      as (x & -> & _). eauto. }
  cbn [bind].
  destruct (in_keys_get _ _ Hcode) as [group Hgroup]. rewrite Hgroup.
  cbn [bind].
  set (courses1 := Dict.set courses (Frontend.data_courseCode data) _).
  assert (map fst courses1 = map fst courses) as Hk1
    by (apply set_existing_keys; exact Hcode).
  destruct (IH courses1) as (courses' & Hrun & Hk' & Hok').
  - intros k' Hk'.
    destruct (Hkeys k' (or_intror Hk')) as (d' & Hd' & Hc' & HQ').
    exists d'. split; [exact Hd'|]. split; [now rewrite Hk1|exact HQ'].
  - intros k' g' s Hin Hs. apply in_set_inv in Hin.
    destruct Hin as [E|Hin]; [|eapply Hok; eauto].
    injection E as -> ->. apply in_app_or in Hs.
    destruct Hs as [Hs|[<-|[]]]; [|split; [reflexivity|exact HQ]].
    eapply Hok; [|exact Hs]. now apply get_some_in.
  - exists courses'. split; [exact Hrun|].
    split; [congruence|exact Hok'].
Qed.

(** Step 1 of the frontend generator ends normally; the map it builds has
    the selected codes as keys, each once, and files under a code only
    sections of that code, which is then the base code of some row. *)
Lemma build_courses_spec (rows : list Frontend.Row) (selected : list string) :
  exists courses,
    Frontend.build_courses rows selected = Normal courses
    /\ (forall c, In c (map fst courses) <-> In c selected)
    /\ List.length courses <= List.length selected
    /\ NoDup (map fst courses)
    /\ (forall k group s,
           In (k, group) courses -> In s group ->
           Frontend.courseCode s = k
           /\ exists row,
                In row rows
                /\ JS.match_letters_digits (Frontend.Course row) = Some k).
Proof.
  unfold Frontend.build_courses.
  destruct (initial_courses selected Dict.empty) as (Hin & Hlen & Hnd).
  cbv zeta in Hin, Hlen, Hnd.
  set (courses0 := fold_left _ selected Dict.empty) in *.
  set (sd := fold_left (Frontend.add_row selected) rows Dict.empty).
  set (Q := fun k => exists row,
                In row rows
                /\ JS.match_letters_digits (Frontend.Course row) = Some k).
  destruct (@add_sections_spec Q sd (Dict.keys sd) courses0)
    as (courses & Hrun & Hkeys & Hok).
  - intros k Hk. apply (proj1 (in_keys_iff _ _)) in Hk.
    destruct (in_keys_get _ _ Hk) as [data Hdata].
    exists data. split; [exact Hdata|].
    apply get_some_in in Hdata.
    assert (In (Frontend.data_courseCode data) selected
            /\ Q (Frontend.data_courseCode data)) as [Hsel HQ].
    { apply (@sectionsData_codes (fun c => In c selected /\ Q c)
               selected rows) with (sd := Dict.empty) (e := (k, data)).
      - intros row code Hrow Hm Hc. split; [exact Hc|]. exists row. auto.
      - intros e [].
      - exact Hdata. }
    split; [|exact HQ]. apply Hin. now right.
  - intros k group s Hk Hs.
    assert (group = []) as ->; [|destruct Hs].
    apply (@initial_groups_empty selected Dict.empty
             (fun e (H : In e Dict.empty) => match H with end) (k, group) Hk).
  - exists courses. split; [exact Hrun|].
    rewrite Hkeys. split; [|split; [|split]].
    + intros c. rewrite Hin. simpl. tauto.
    + apply (f_equal (@List.length _)) in Hkeys. rewrite !length_map in Hkeys.
      simpl in Hlen. lia.
    + apply Hnd. constructor.
    + exact Hok.
Qed.

Lemma fold_left_push_filter_gen {A : Type} (keep : A -> bool)
  (f : list A -> A -> list A) (l acc : list A) :
  (forall valid c, f valid c = if keep c then valid ++ [c] else valid) ->
  fold_left f l acc = acc ++ filter keep l.
Proof.
  intros Hf. rewrite <- fold_left_push_filter.
  revert acc. induction l as [|x l IH]; intros acc; simpl; [reflexivity|].
  now rewrite Hf, IH.
Qed.

(** The frontend generator: step 1, the check on the groups, and the
    conflict-free tuples of the product. *)
Lemma frontend_generateSchedules_spec (rows : list Frontend.Row)
  (selected : list string) (courses : Dict.t (list Frontend.Section)) :
  Frontend.build_courses rows selected = Normal courses ->
  let sectionGroups :=
    filter (fun group => (0 <? List.length group)%nat) (Dict.values courses) in
  Frontend.generateSchedules rows selected
  = Normal (if negb (List.length sectionGroups =? List.length selected)%nat
            then []
            else filter (fun c => negb (any_pair Frontend.conflictsWith c))
                        (Frontend.product sectionGroups)).
Proof.
  intros Hb. unfold Frontend.generateSchedules. rewrite Hb. cbn [bind].
  cbv zeta. destruct (negb _); [reflexivity|]. f_equal.
  apply fold_left_push_filter_gen with (acc := []).
  intros valid combo. rewrite frontend_hasConflict_spec.
  now destruct (any_pair Frontend.conflictsWith combo).
Qed.

(** ** Conflict soundness *)

(** In a list where no section conflicts with a later one, no two sections
    at different places conflict, the test being symmetric. *)
Lemma no_pair_unordered {S : Type} (conf : S -> S -> bool) (c : list S) :
  (forall a b, conf a b = conf b a) ->
  any_pair conf c = false ->
  forall i j a b, i <> j -> nth_error c i = Some a -> nth_error c j = Some b ->
                  conf a b = false.
Proof.
  intros Hsym Hc i j a b Hij Hi Hj.
  pose proof (proj1 (any_pair_false_iff conf c) Hc) as H.
  destruct (Nat.lt_ge_cases i j) as [Hlt|Hge].
  - exact (H i j a b Hlt Hi Hj).
  - rewrite Hsym. apply (H j i b a); auto. lia.
Qed.

(** C1: the generator returns normally, and in every schedule it returns
    the Conflict Detector answers [false] on every pair of sections at
    two different places.  Both implementations. *)
Theorem generateSchedules_conflict_free :
  (forall courses : Dict.t (list Backend.Section),
      exists out,
        Backend.generateSchedules courses = Normal out
        /\ forall schedule, In schedule out ->
           forall i j a b,
             i <> j ->
             nth_error schedule i = Some a -> nth_error schedule j = Some b ->
             Backend.conflictsWith a b = false)
  /\ (forall (allCoursesData : list Frontend.Row) (selected : list string),
         exists out,
           Frontend.generateSchedules allCoursesData selected = Normal out
           /\ forall schedule, In schedule out ->
              forall i j a b,
                i <> j ->
                nth_error schedule i = Some a -> nth_error schedule j = Some b ->
                Frontend.conflictsWith a b = false).
Proof.
  split.
  - intros courses. eexists. split; [apply backend_generateSchedules_spec|].
    intros schedule Hin. apply filter_In in Hin. destruct Hin as [_ Hfree].
    apply negb_true_iff in Hfree.
    apply no_pair_unordered; [apply backend_conflictsWith_sym|exact Hfree].
  - intros rows selected.
    destruct (build_courses_spec rows selected) as (courses & Hb & _).
    eexists. split; [apply (frontend_generateSchedules_spec _ _ Hb)|].
    cbv zeta. intros schedule Hin.
    destruct (negb _); [destruct Hin|].
    apply filter_In in Hin. destruct Hin as [_ Hfree].
    apply negb_true_iff in Hfree.
    apply no_pair_unordered; [apply frontend_conflictsWith_sym|exact Hfree].
Qed.

(** ** The Optimal Selector *)

(** [Math.min] returns one of its arguments, below all of them. *)
Lemma Math_min_spec (rest : list Z) :
  forall first,
    In (Math_min first rest) (first :: rest)
    /\ forall x, In x (first :: rest) -> (Math_min first rest <= x)%Z.
Proof.
  unfold Math_min. induction rest as [|y rest IH]; intros first; simpl.
  - split; [now left|]. intros x [<-|[]]. lia.
  - destruct (IH (Z.min first y)) as [Hin Hle]. split.
    + destruct Hin as [E|Hin]; [|now right; right].
      rewrite <- E. destruct (Z.min_spec first y) as [[_ ->]|[_ ->]]; auto.
    + intros x [<-|[<-|Hx]].
      * etransitivity; [apply Hle; now left|]. apply Z.le_min_l.
      * etransitivity; [apply Hle; now left|]. apply Z.le_min_r.
      * apply Hle. now right.
Qed.

(** Filtering by the score kept beside each schedule is filtering by the
    score of the schedule. *)
Lemma filter_by_score_spec (score : Backend.Schedule -> Z)
  (all : list Backend.Schedule) (m : Z) :
  Backend.filter_by_score all (map score all) m
  = filter (fun s => (score s =? m)%Z) all.
Proof.
  unfold Backend.filter_by_score.
  induction all as [|s all IH]; simpl; [reflexivity|].
  destruct (score s =? m)%Z; simpl; now rewrite IH.
Qed.

Section SortByScore.
Variable A : Type.

(** The comparator of the dashboard is negative when the first score is
    the smaller. *)
Let neg (a b : A * Z) : bool := (snd a - snd b <? 0)%Z.

Lemma insert_head_min (x : A * Z) (l : list (A * Z)) :
  exists first tl,
    JS.insert neg x l = first :: tl
    /\ In first (x :: l)
    /\ (snd first <= snd x)%Z
    /\ (forall h, hd_error l = Some h -> (snd first <= snd h)%Z).
Proof.
  destruct l as [|y l]; simpl.
  - exists x, []. repeat split; auto; try lia. discriminate.
  - unfold neg at 1. destruct (Z.ltb_spec (snd y - snd x) 0).
    + exists y, (JS.insert neg x l). repeat split; auto; try lia.
      intros h [= <-]. lia.
    + exists x, (y :: l). repeat split; auto; try lia.
      intros h [= <-]. lia.
Qed.

(** After the sort the first element has the least score. *)
Lemma sort_head_min (l : list (A * Z)) :
  l <> [] ->
  exists first tl,
    JS.sort neg l = first :: tl
    /\ In first l
    /\ forall x, In x l -> (snd first <= snd x)%Z.
Proof.
  induction l as [|x l IH]; intros Hne; [congruence|]. simpl.
  destruct l as [|y l'].
  - exists x, []. simpl. repeat split; auto. intros z [<-|[]]. lia.
  - destruct IH as (f & tl & Hs & Hin & Hmin); [discriminate|].
    destruct (insert_head_min x (JS.sort neg (y :: l')))
      as (first & tl' & Hi & Hfin & Hfx & Hfh).
    exists first, tl'. split; [exact Hi|]. split.
    + destruct Hfin as [<-|Hfin]; [now left|]. right.
      apply (Permutation_in _ (sort_perm neg (y :: l')) Hfin).
    + specialize (Hfh f). rewrite Hs in Hfh. specialize (Hfh eq_refl).
      intros z [<-|Hz]; [exact Hfx|].
      etransitivity; [exact Hfh|]. now apply Hmin.
Qed.

Lemma filter_insert_other (m : Z) (x : A * Z) (l : list (A * Z)) :
  snd x <> m ->
  filter (fun s => (snd s =? m)%Z) (JS.insert neg x l)
  = filter (fun s => (snd s =? m)%Z) l.
Proof.
  intros Hx. apply Z.eqb_neq in Hx.
  induction l as [|y l IH]; simpl; [now rewrite Hx|].
  destruct (neg y x); simpl; [now rewrite IH|now rewrite Hx].
Qed.

Lemma insert_least (x : A * Z) (l : list (A * Z)) :
  (forall y, In y l -> (snd x <= snd y)%Z) ->
  JS.insert neg x l = x :: l.
Proof.
  destruct l as [|y l]; simpl; [reflexivity|]. intros H.
  unfold neg. destruct (Z.ltb_spec (snd y - snd x) 0); [|reflexivity].
  specialize (H y (or_introl eq_refl)). lia.
Qed.

(** The sort is stable: the elements of least score keep their order. *)
Lemma filter_sort_least (m : Z) (l : list (A * Z)) :
  (forall y, In y l -> (m <= snd y)%Z) ->
  filter (fun s => (snd s =? m)%Z) (JS.sort neg l)
  = filter (fun s => (snd s =? m)%Z) l.
Proof.
  induction l as [|x l IH]; intros Hm; [reflexivity|].
  cbn [JS.sort fold_right]. fold (JS.sort neg l).
  destruct (Z.eq_dec (snd x) m) as [E|E].
  - rewrite insert_least.
    + simpl. rewrite IH; [reflexivity|]. intros y Hy. apply Hm. now right.
    + intros y Hy. rewrite E. apply Hm. right.
      apply (Permutation_in _ (sort_perm neg l) Hy).
  - rewrite filter_insert_other by exact E. simpl.
    apply Z.eqb_neq in E. rewrite E. apply IH.
    intros y Hy. apply Hm. now right.
Qed.
End SortByScore.

Lemma frontend_scoreSchedule_total (schedule : Frontend.Schedule)
  (prefs : Frontend.Prefs) :
  Frontend.scoreSchedule schedule prefs
  = Normal (frontend_score prefs schedule).
Proof.
  unfold frontend_score.
  assert (exists z, Frontend.scoreSchedule schedule prefs = Normal z)
    as [z ->]; [|reflexivity].
  unfold Frontend.scoreSchedule.
  destruct (Frontend.noBefore prefs).
  - destruct (frontend_parseTime_total
                (JS.VStr (Frontend.beforeTime prefs ++ " AM"))) as [x ->].
    cbn [bind]. destruct (Frontend.noAfter prefs).
    + destruct (frontend_parseTime_total
                  (JS.VStr (Frontend.afterTime prefs ++ " PM"))) as [y ->].
      cbn [bind]. eauto.
    + cbn [bind]. eauto.
  - cbn [bind]. destruct (Frontend.noAfter prefs).
    + destruct (frontend_parseTime_total
                  (JS.VStr (Frontend.afterTime prefs ++ " PM"))) as [y ->].
      cbn [bind]. eauto.
    + cbn [bind]. eauto.
Qed.

Lemma mapM_pure {A B : Type} (f : A -> completion B) (g : A -> B)
  (l : list A) :
  (forall x, f x = Normal (g x)) -> mapM f l = Normal (map g l).
Proof.
  intros Hf. induction l as [|x l IH]; simpl; [reflexivity|].
  now rewrite Hf, IH.
Qed.

Lemma filter_scored {A : Type} (score : A -> Z) (m : Z) (l : list A) :
  map fst (filter (fun s => (snd s =? m)%Z) (map (fun s => (s, score s)) l))
  = filter (fun s => (score s =? m)%Z) l.
Proof.
  induction l as [|s l IH]; simpl; [reflexivity|].
  destruct (score s =? m)%Z; simpl; now rewrite IH.
Qed.

(** C2: the selector scores every schedule and returns, in their order in
    the list it was given, exactly the schedules whose score is the least
    score of the list; from the empty list it returns the empty list.
    Both implementations. *)
Theorem optimal_selector_contract :
  (forall prefs, Backend.bestSchedules [] prefs = [])
  /\ (forall all prefs,
         all <> [] ->
         exists m,
           In m (map (fun s => Backend.scoreSchedule s prefs) all)
           /\ (forall s, In s all -> (m <= Backend.scoreSchedule s prefs)%Z)
           /\ Backend.bestSchedules all prefs
              = filter (fun s => (Backend.scoreSchedule s prefs =? m)%Z) all)
  /\ (forall prefs, Frontend.bestSchedules [] prefs = Normal [])
  /\ (forall all prefs,
         all <> [] ->
         exists m,
           In m (map (frontend_score prefs) all)
           /\ (forall s, In s all ->
                         Frontend.scoreSchedule s prefs
                         = Normal (frontend_score prefs s)
                         /\ (m <= frontend_score prefs s)%Z)
           /\ Frontend.bestSchedules all prefs
              = Normal (filter (fun s => (frontend_score prefs s =? m)%Z) all)).
Proof.
  split; [reflexivity|]. split; [|split; [reflexivity|]].
  - intros all prefs Hne. unfold Backend.bestSchedules.
    destruct all as [|s0 rest]; [congruence|].
    cbn [map]. set (score := fun s => Backend.scoreSchedule s prefs).
    destruct (Math_min_spec (map score rest) (score s0)) as [Hin Hle].
    exists (Math_min (score s0) (map score rest)).
    split; [exact Hin|]. split.
    + intros s Hs. apply Hle. apply (in_map score) in Hs. exact Hs.
    + apply (filter_by_score_spec score (s0 :: rest)).
  - intros all prefs Hne. unfold Frontend.bestSchedules.
    destruct all as [|s0 rest]; [congruence|].
    set (all := s0 :: rest) in *.
    rewrite mapM_pure with (g := fun s => (s, frontend_score prefs s)).
    2: { intros s. now rewrite frontend_scoreSchedule_total. }
    cbn [bind].
    destruct (@sort_head_min Frontend.Schedule
                (map (fun s => (s, frontend_score prefs s)) all))
      as (first & tl & Hsort & Hin & Hmin); [discriminate|].
    change (JS.sort Frontend.by_score ?l)
      with (JS.sort (fun a b : Frontend.Schedule * Z =>
                       (snd a - snd b <? 0)%Z) l).
    pose proof (@filter_sort_least Frontend.Schedule (snd first)
                  (map (fun s => (s, frontend_score prefs s)) all) Hmin)
      as Hfilter.
    rewrite Hsort in Hfilter |- *. exists (snd first).
    apply in_map_iff in Hin. destruct Hin as (sf & <- & Hsf). cbn [snd] in *.
    split; [now apply in_map|]. split.
    + intros s Hs. split; [apply frontend_scoreSchedule_total|].
      apply (Hmin (s, frontend_score prefs s)).
      apply in_map_iff. eauto.
    + f_equal. rewrite Hfilter. apply filter_scored.
Qed.

(** ** The Preference Scorer *)

(** Summing a count section by section counts over all the timeslots. *)
Lemma count_by_section (p : Backend.Timeslot -> bool)
  (schedule : Backend.Schedule) :
  forall acc,
    fold_left (fun acc sec =>
                 acc + List.length (filter p (Backend.timeslots sec)))
              schedule acc
    = acc + List.length (filter p (flat_map Backend.timeslots schedule)).
Proof.
  induction schedule as [|sec schedule IH]; intros acc; simpl; [lia|].
  rewrite IH, filter_app, length_app. lia.
Qed.

Lemma set_add_in (s : list string) (x y : string) :
  In y (set_add s x) <-> In y s \/ y = x.
Proof.
  unfold set_add. destruct (existsb (String.eqb x) s) eqn:E.
  - split; [tauto|]. intros [H| ->]; [exact H|].
    apply existsb_exists in E. destruct E as (z & Hz & Ez).
    apply String.eqb_eq in Ez. now subst.
  - rewrite in_app_iff. simpl. intuition congruence.
Qed.

Lemma set_add_nodup (s : list string) (x : string) :
  NoDup s -> NoDup (set_add s x).
Proof.
  intros Hs. unfold set_add. destruct (existsb (String.eqb x) s) eqn:E;
    [exact Hs|].
  apply NoDup_app_remove_l with (l := []). simpl.
  apply Permutation_NoDup with (l := x :: s);
    [apply Permutation_cons_append|].
  constructor; [|exact Hs]. intros Hin.
  assert (existsb (String.eqb x) s = true) as Ht;
    [|congruence].
  apply existsb_exists. exists x. split; [exact Hin|apply String.eqb_refl].
Qed.

(** A [Set] filled from a list holds the distinct elements of the list. *)
Lemma fold_set_add (l : list string) :
  forall s,
    NoDup s ->
    NoDup (fold_left set_add l s)
    /\ forall y, In y (fold_left set_add l s) <-> In y s \/ In y l.
Proof.
  induction l as [|x l IH]; intros s Hs; simpl; [tauto|].
  destruct (IH (set_add s x) (set_add_nodup x Hs)) as [Hnd Hin].
  split; [exact Hnd|]. intros y. rewrite Hin, set_add_in. intuition.
Qed.

Lemma set_size_distinct (l : list string) :
  List.length (fold_left set_add l [])
  = List.length (nodup string_dec l).
Proof.
  destruct (fold_set_add l (NoDup_nil string)) as [Hnd Hin].
  apply Permutation_length, NoDup_Permutation.
  - exact Hnd.
  - apply NoDup_nodup.
  - intros y. rewrite Hin, nodup_In. simpl. tauto.
Qed.

Lemma fold_left_flat_map {A B S : Type} (f : S -> B -> S) (g : A -> list B)
  (l : list A) :
  forall s,
    fold_left (fun s x => fold_left f (g x) s) l s
    = fold_left f (flat_map g l) s.
Proof.
  induction l as [|x l IH]; intros s; simpl; [reflexivity|].
  now rewrite fold_left_app, IH.
Qed.

Lemma backend_countDaysUsed_spec (schedule : Backend.Schedule) :
  Backend.countDaysUsed schedule
  = List.length (nodup string_dec
                   (map Backend.ts_day
                        (flat_map Backend.timeslots schedule))).
Proof.
  unfold Backend.countDaysUsed. rewrite <- set_size_distinct. f_equal.
  rewrite (fold_left_flat_map (fun days ts => set_add days (Backend.ts_day ts))
             Backend.timeslots schedule).
  generalize (flat_map Backend.timeslots schedule) as l.
  generalize (@nil string) as s.
  intros s l. revert s. induction l as [|t l IH]; intros s; simpl; auto.
Qed.

(** ** Back-to-back counting *)

(** The loop over [i = 1 .. length - 1] read on the tail of the array. *)
Lemma count_adjacent_shift (a : float * float) (l : list (float * float))
  (k : nat) :
  forall start acc,
    1 <= start ->
    fold_left (fun count i =>
                 if JS.lt (fst (nth i (a :: l) (JS.zero, JS.zero))
                           - snd (nth (i - 1) (a :: l) (JS.zero, JS.zero)))%float
                          MINIMUM_GAP_TOLERANCE
                 then S count else count)
              (seq (S start) k) acc
    = fold_left (fun count i =>
                   if JS.lt (fst (nth i l (JS.zero, JS.zero))
                             - snd (nth (i - 1) l (JS.zero, JS.zero)))%float
                            MINIMUM_GAP_TOLERANCE
                   then S count else count)
                (seq start k) acc.
Proof.
  induction k as [|k IH]; intros start acc Hs; [reflexivity|].
  cbn [seq fold_left]. rewrite IH by lia.
  destruct start as [|s]; [lia|].
  cbn [nth Nat.sub]. rewrite !Nat.sub_0_r. reflexivity.
Qed.

Lemma count_adjacent_spec (l : list (float * float)) :
  forall count, Backend.count_adjacent l count = count + close_pairs l.
Proof.
  unfold Backend.count_adjacent.
  induction l as [|a l IH]; intros count; [simpl; lia|].
  destruct l as [|b l]; [simpl; lia|].
  cbn [List.length Nat.sub seq fold_left]. rewrite ?Nat.sub_0_r.
  rewrite count_adjacent_shift by lia.
  cbn [List.length Nat.sub] in IH. rewrite ?Nat.sub_0_r in IH.
  rewrite IH. cbn [nth Nat.sub fst snd close_pairs].
  change MINIMUM_GAP_TOLERANCE with (1.5 / 60)%float.
  destruct (JS.lt (fst b - snd a) (1.5 / 60)); lia.
Qed.

Lemma close_pairs_short (l : list (float * float)) :
  List.length l < 2 -> close_pairs l = 0.
Proof.
  destruct l as [|a [|b l]]; simpl; intros H; try reflexivity; lia.
Qed.

Lemma set_keys_in {V : Type} (d : Dict.t V) (k : string) (v : V) (x : string) :
  In x (map fst (Dict.set d k v)) <-> In x (map fst d) \/ x = k.
Proof.
  destruct (in_dec string_dec k (map fst d)) as [Hk|Hk].
  - rewrite set_existing_keys by exact Hk. split; [tauto|].
    intros [H| ->]; assumption.
  - rewrite set_new_keys by exact Hk. rewrite map_app, in_app_iff. simpl.
    intuition congruence.
Qed.

Section Grouping.
Variable T : Type.
Variable day_of : T -> string.
Variable slot_of : T -> float * float.

(** The [(start, end)] pairs of the items of a day. *)
Let slots (d : string) (l : list T) : list (float * float) :=
  map slot_of (filter (fun t => String.eqb (day_of t) d) l).

Let push (daily : Dict.t (list (float * float))) (t : T) :=
  Backend.push_daily daily (day_of t) (slot_of t).

(** What the grouping loop leaves under a day. *)
Lemma group_get (l : list T) :
  forall (daily : Dict.t (list (float * float))) (d : string),
    Dict.get (fold_left push l daily) d
    = match Dict.get daily d with
      | Some l0 => Some (l0 ++ slots d l)
      | None => match slots d l with
                | [] => None
                | s => Some s
                end
      end.
Proof.
  induction l as [|t l IH]; intros daily d; cbn [fold_left].
  - unfold slots. simpl. destruct (Dict.get daily d); [|reflexivity].
    now rewrite app_nil_r.
  - rewrite IH. unfold push, Backend.push_daily, slots.
    cbn [filter]. destruct (String.eqb_spec (day_of t) d) as [E|E].
    + subst d. destruct (Dict.get daily (day_of t)) as [l0|];
        rewrite get_set_same; cbn [map]; [|reflexivity].
      now rewrite <- app_assoc.
    + destruct (Dict.get daily (day_of t)) as [l0|];
        now rewrite get_set_other by exact E.
Qed.

(** The days that end up as keys, each once. *)
Lemma group_keys (l : list T) :
  forall daily : Dict.t (list (float * float)),
    NoDup (map fst daily) ->
    NoDup (map fst (fold_left push l daily))
    /\ forall d, In d (map fst (fold_left push l daily))
                 <-> In d (map fst daily) \/ In d (map day_of l).
Proof.
  induction l as [|t l IH]; intros daily Hnd; cbn [fold_left map In].
  - tauto.
  - assert (NoDup (map fst (push daily t))) as Hnd'.
    { unfold push, Backend.push_daily.
      destruct (Dict.get daily (day_of t)); now apply set_nodup. }
    destruct (IH _ Hnd') as [H1 H2]. split; [exact H1|].
    intros d. rewrite H2. unfold push at 1, Backend.push_daily.
    destruct (Dict.get daily (day_of t)); rewrite set_keys_in;
      intuition congruence.
Qed.
End Grouping.

Lemma fold_left_sum {A : Type} (step : nat -> A -> nat) (g : A -> nat)
  (l : list A) :
  (forall acc x, In x l -> step acc x = acc + g x) ->
  forall acc, fold_left step l acc = acc + list_sum (map g l).
Proof.
  induction l as [|x l IH]; intros Hstep acc; simpl; [lia|].
  rewrite Hstep by (now left). rewrite IH; [lia|].
  intros acc' y Hy. apply Hstep. now right.
Qed.

Lemma list_sum_perm (l l' : list nat) :
  Permutation l l' -> list_sum l = list_sum l'.
Proof. induction 1; simpl; lia. Qed.

Lemma backend_group_by_day_spec (schedule : Backend.Schedule) :
  let daily := Backend.group_by_day schedule in
  (forall d, In d (Dict.keys daily) ->
             Dict.get daily d = Some (backend_day_slots d schedule))
  /\ Permutation (Dict.keys daily)
       (nodup string_dec
          (map Backend.ts_day (flat_map Backend.timeslots schedule))).
Proof.
  cbv zeta. unfold Backend.group_by_day.
  rewrite (fold_left_flat_map
             (fun daily ts => Backend.push_daily daily (Backend.ts_day ts)
                                (Backend.ts_start ts, Backend.ts_end ts))
             Backend.timeslots schedule).
  set (all := flat_map Backend.timeslots schedule).
  pose proof (@group_keys Backend.Timeslot Backend.ts_day
                (fun ts => (Backend.ts_start ts, Backend.ts_end ts))
                all Dict.empty (NoDup_nil _)) as [Hnd Hin].
  pose proof (@group_get Backend.Timeslot Backend.ts_day
                (fun ts => (Backend.ts_start ts, Backend.ts_end ts))
                all Dict.empty) as Hget.
  cbv beta zeta in Hnd, Hin, Hget.
  set (daily := fold_left _ all Dict.empty) in *.
  split.
  - intros d Hd. apply (proj1 (in_keys_iff _ _)) in Hd.
    rewrite Hget. cbn [Dict.get Dict.empty]. unfold backend_day_slots.
    fold all. apply Hin in Hd. destruct Hd as [[]|Hd].
    apply in_map_iff in Hd. destruct Hd as (t & Ht & Hall).
    destruct (filter _ all) as [|x f] eqn:Ef; [|reflexivity].
    exfalso. assert (In t (filter (fun ts => String.eqb (Backend.ts_day ts) d)
                                  all)) as Hf.
    { apply filter_In. split; [exact Hall|]. now apply String.eqb_eq. }
    rewrite Ef in Hf. destruct Hf.
  - rewrite keys_perm. apply NoDup_Permutation.
    + exact Hnd.
    + apply NoDup_nodup.
    + intros d. rewrite Hin, nodup_In. simpl. tauto.
Qed.

(** The back-to-back count is, summed over the days in use, the number of
    adjacent close pairs among the sorted slots of the day. *)
Lemma backend_countBackToBack_spec (schedule : Backend.Schedule) :
  Backend.countBackToBack schedule
  = list_sum
      (map (fun d => close_pairs
                       (JS.sort Backend.by_start
                                (backend_day_slots d schedule)))
           (nodup string_dec
              (map Backend.ts_day (flat_map Backend.timeslots schedule)))).
Proof.
  destruct (backend_group_by_day_spec schedule) as [Hget Hperm].
  unfold Backend.countBackToBack.
  rewrite fold_left_sum
    with (g := fun d => close_pairs
                          (JS.sort Backend.by_start
                                   (backend_day_slots d schedule))).
  - simpl. apply list_sum_perm, Permutation_map, Hperm.
  - intros acc d Hd. rewrite (Hget d Hd).
    destruct (Nat.ltb_spec (List.length (backend_day_slots d schedule)) 2).
    + rewrite close_pairs_short; [lia|]. now rewrite sort_length.
    + apply count_adjacent_spec.
Qed.

Section SortSorted.
Variable A : Type.
Variable neg : A -> A -> bool.
Variable P : A -> Prop.
Hypothesis neg_asym :
  forall a b, P a -> P b -> neg a b = true -> neg b a = false.
Hypothesis not_after_trans :
  forall a b c, P a -> P b -> P c ->
                neg b a = false -> neg c b = false -> neg c a = false.

(** [a] is not after [b]: the comparator does not put [b] before [a]. *)
Let not_after (a b : A) : Prop := neg b a = false.

Lemma insert_sorted (x : A) (l : list A) :
  P x -> Forall P l ->
  StronglySorted not_after l -> StronglySorted not_after (JS.insert neg x l).
Proof.
  intros Hx Hl Hs. induction Hs as [|y l Hs IH Hy]; simpl.
  - repeat constructor.
  - inversion Hl as [|? ? Py Pl]; subst.
    destruct (neg y x) eqn:E.
    + constructor; [now apply IH|].
      apply (Permutation_Forall (Permutation_sym (insert_perm neg x l))).
      constructor; [|exact Hy]. unfold not_after. now apply neg_asym.
    + constructor; [now constructor|].
      constructor; [exact E|].
      rewrite Forall_forall in Hy, Pl |- *. intros z Hz.
      unfold not_after in *.
      apply (@not_after_trans x y z); auto.
Qed.

Lemma sort_sorted (l : list A) :
  Forall P l -> StronglySorted not_after (JS.sort neg l).
Proof.
  induction l as [|x l IH]; intros Hl; simpl; [constructor|].
  inversion Hl as [|? ? Px Pl]; subst.
  apply insert_sorted; auto.
  apply (Permutation_Forall (Permutation_sym (sort_perm neg l))). exact Pl.
Qed.
End SortSorted.

(** On a list where the comparator is consistent, the sort leaves no
    element before one that the comparator puts ahead of it. *)
Lemma sort_sorted_consistent {A : Type} (neg : A -> A -> bool) (l : list A) :
  consistent_on neg l = true ->
  StronglySorted (fun a b => neg b a = false) (JS.sort neg l).
Proof.
  intros Hc. unfold consistent_on in Hc. rewrite forallb_forall in Hc.
  apply sort_sorted with (P := fun x => In x l).
  - intros a b Ha Hb Hab. specialize (Hc a Ha).
    rewrite forallb_forall in Hc. specialize (Hc b Hb).
    apply andb_true_iff in Hc. destruct Hc as [Hc _].
    rewrite Hab in Hc. simpl in Hc. now apply negb_true_iff.
  - intros a b c Ha Hb Hc' Hba Hcb. specialize (Hc a Ha).
    rewrite forallb_forall in Hc. specialize (Hc b Hb).
    apply andb_true_iff in Hc. destruct Hc as [_ Hc].
    rewrite forallb_forall in Hc. specialize (Hc c Hc').
    rewrite Hba, Hcb in Hc. simpl in Hc. now apply negb_true_iff.
  - apply Forall_forall. auto.
Qed.

(** ** The order of binary64 values

    The comparator of the sort subtracts two starts and tests the sign of
    the rounded difference.  That this is the order of the starts is
    proved from the definition of binary64 subtraction, through the place
    [rank] of a value on the number line. *)

(** The number of binary digits of a mantissa. *)
Lemma digits2_pos_bounds (m : positive) :
  (2 ^ (Zpos (digits2_pos m) - 1) <= Zpos m < 2 ^ Zpos (digits2_pos m))%Z.
Proof.
  induction m as [m IH|m IH|]; cbn [digits2_pos].
  - rewrite Pos2Z.inj_succ.
    replace (Z.succ (Zpos (digits2_pos m)) - 1)%Z
      with (Z.succ (Zpos (digits2_pos m) - 1))%Z by lia.
    rewrite !Z.pow_succ_r by lia. lia.
  - rewrite Pos2Z.inj_succ.
    replace (Z.succ (Zpos (digits2_pos m)) - 1)%Z
      with (Z.succ (Zpos (digits2_pos m) - 1))%Z by lia.
    rewrite !Z.pow_succ_r by lia. lia.
  - simpl. lia.
Qed.

(** A finite value in canonical form: its exponent is in range, its
    mantissa has at most 53 bits, and exactly 53 above the least
    exponent. *)
Lemma bounded_canonical (m : positive) (e : Z) :
  bounded prec emax m e = true ->
  (-1074 <= e <= 971)%Z
  /\ (Zpos (digits2_pos m) <= 53)%Z
  /\ ((-1074 < e)%Z -> Zpos (digits2_pos m) = 53%Z).
Proof.
  unfold bounded, canonical_mantissa, fexp, SpecFloat.emin.
  change prec with 53%Z. change emax with 1024%Z.
  intros H. apply andb_true_iff in H. destruct H as [H1 H2].
  apply Z.eqb_eq in H1. apply Z.leb_le in H2. lia.
Qed.

Lemma finite_rank_bounds (m : positive) (e : Z) :
  bounded prec emax m e = true ->
  (0 < Zpos m * 2 ^ (e + 1074) < 2 ^ 2098)%Z.
Proof.
  intros H. destruct (bounded_canonical _ _ H) as (He & Hd & _).
  pose proof (digits2_pos_bounds m) as [_ Hm].
  assert (0 < 2 ^ (e + 1074))%Z as Hp by (apply Z.pow_pos_nonneg; lia).
  split; [lia|].
  assert (Zpos m < 2 ^ 53)%Z as Hm53.
  { eapply Z.lt_le_trans; [exact Hm|]. apply Z.pow_le_mono_r; lia. }
  assert (2 ^ (e + 1074) <= 2 ^ 2045)%Z as Hp'
    by (apply Z.pow_le_mono_r; lia).
  replace 2098%Z with (53 + 2045)%Z by lia.
  rewrite (Z.pow_add_r 2 53 2045) by lia.
  apply Z.lt_le_trans with (2 ^ 53 * 2 ^ (e + 1074))%Z.
  - apply Z.mul_lt_mono_pos_r; assumption.
  - apply Z.mul_le_mono_nonneg_l; [apply Z.pow_nonneg; lia|exact Hp'].
Qed.

(** Canonical mantissas compare as their exponents do. *)
Lemma canonical_lt (m1 m2 : positive) (e1 e2 : Z) :
  bounded prec emax m1 e1 = true -> bounded prec emax m2 e2 = true ->
  (e1 < e2)%Z ->
  (Zpos m1 * 2 ^ (e1 + 1074) < Zpos m2 * 2 ^ (e2 + 1074))%Z.
Proof.
  intros H1 H2 He.
  destruct (bounded_canonical _ _ H1) as (He1 & Hd1 & _).
  destruct (bounded_canonical _ _ H2) as (He2 & _ & Hd2).
  pose proof (digits2_pos_bounds m1) as [_ Hm1].
  pose proof (digits2_pos_bounds m2) as [Hm2 _].
  rewrite Hd2 in Hm2 by lia.
  assert (Zpos m1 < 2 ^ 53)%Z as Hm1'.
  { eapply Z.lt_le_trans; [exact Hm1|]. apply Z.pow_le_mono_r; lia. }
  change (2 ^ (53 - 1))%Z with (2 ^ 52)%Z in Hm2.
  replace (e2 + 1074)%Z with ((e1 + 1074) + (e2 - e1))%Z by lia.
  rewrite (Z.pow_add_r 2 (e1 + 1074) (e2 - e1)) by lia.
  assert (0 < 2 ^ (e1 + 1074))%Z as Hp by (apply Z.pow_pos_nonneg; lia).
  assert (2 ^ 1 <= 2 ^ (e2 - e1))%Z as Hq by (apply Z.pow_le_mono_r; lia).
  change (2 ^ 1)%Z with 2%Z in Hq.
  apply Z.lt_le_trans with (2 ^ 53 * 2 ^ (e1 + 1074))%Z.
  - apply Z.mul_lt_mono_pos_r; assumption.
  - replace (2 ^ 53)%Z with (2 ^ 52 * 2)%Z by reflexivity.
    rewrite Z.mul_assoc.
    rewrite (Z.mul_comm (Zpos m2 * 2 ^ (e1 + 1074)) (2 ^ (e2 - e1))).
    rewrite <- (Z.mul_assoc (2 ^ 52) 2), (Z.mul_comm 2 (2 ^ (e1 + 1074))).
    rewrite Z.mul_assoc.
    apply Z.le_trans with (Zpos m2 * 2 ^ (e1 + 1074) * 2)%Z.
    + apply Z.mul_le_mono_nonneg_r; [lia|].
      apply Z.mul_le_mono_nonneg_r; lia.
    + rewrite (Z.mul_comm (2 ^ (e2 - e1))).
      apply Z.mul_le_mono_nonneg_l; [|exact Hq].
      apply Z.mul_nonneg_nonneg; lia.
Qed.

Lemma compare_cont_Eq (m1 m2 : positive) :
  Pos.compare_cont Eq m1 m2 = (Zpos m1 ?= Zpos m2)%Z.
Proof. reflexivity. Qed.

Lemma finite_compare (m1 m2 : positive) (e1 e2 : Z) :
  bounded prec emax m1 e1 = true -> bounded prec emax m2 e2 = true ->
  match (e1 ?= e2)%Z with
  | Lt => Lt
  | Gt => Gt
  | Eq => Pos.compare_cont Eq m1 m2
  end
  = (Zpos m1 * 2 ^ (e1 + 1074) ?= Zpos m2 * 2 ^ (e2 + 1074))%Z.
Proof.
  intros H1 H2. destruct (Z.compare_spec e1 e2) as [E|E|E].
  - subst e2. rewrite compare_cont_Eq.
    destruct (bounded_canonical _ _ H1) as (He1 & _).
    apply Zmult_compare_compat_r. apply Z.lt_gt.
    apply Z.pow_pos_nonneg; lia.
  - symmetry. apply Z.compare_lt_iff. now apply canonical_lt.
  - symmetry. apply Z.compare_gt_iff. now apply canonical_lt.
Qed.

(** The comparison of two values that are not NaN is the comparison of
    their ranks. *)
Lemma SFcompare_rank (x y : spec_float) :
  SpecFloat.valid_binary prec emax x = true -> SpecFloat.valid_binary prec emax y = true ->
  x <> S754_nan -> y <> S754_nan ->
  SFcompare x y = Some (SF_rank x ?= SF_rank y)%Z.
Proof.
  intros Hx Hy Nx Ny.
  destruct x as [sx|sx| |sx mx ex]; [| |congruence|];
    destruct y as [sy|sy| |sy my ey]; try congruence;
    cbn [SFcompare SF_rank SpecFloat.valid_binary] in *.
  - reflexivity.
  - destruct sy; reflexivity.
  - pose proof (finite_rank_bounds _ _ Hy) as B.
    destruct sy; cbn [cond_Zopp]; f_equal; symmetry;
      [apply Z.compare_gt_iff|apply Z.compare_lt_iff]; lia.
  - destruct sx; reflexivity.
  - destruct sx, sy; reflexivity.
  - pose proof (finite_rank_bounds _ _ Hy) as B.
    assert (0 < 2 ^ 2098)%Z by reflexivity.
    destruct sx, sy; cbn [cond_Zopp]; f_equal; symmetry;
      try (apply Z.compare_gt_iff; lia); apply Z.compare_lt_iff; lia.
  - pose proof (finite_rank_bounds _ _ Hx) as B.
    destruct sx; cbn [cond_Zopp]; f_equal; symmetry;
      [apply Z.compare_lt_iff|apply Z.compare_gt_iff]; lia.
  - pose proof (finite_rank_bounds _ _ Hx) as B.
    destruct sx, sy; cbn [cond_Zopp]; f_equal; symmetry;
      try (apply Z.compare_gt_iff; lia); apply Z.compare_lt_iff; lia.
  - pose proof (finite_rank_bounds _ _ Hx) as Bx.
    pose proof (finite_rank_bounds _ _ Hy) as By.
    destruct sx, sy; cbn [cond_Zopp]; f_equal.
    + rewrite Z.compare_opp.
      rewrite (Z.compare_antisym (Zpos mx * 2 ^ (ex + 1074))
                 (Zpos my * 2 ^ (ey + 1074))).
      rewrite <- (@finite_compare mx my ex ey Hx Hy).
      destruct (ex ?= ey)%Z; reflexivity.
    + symmetry. apply Z.compare_lt_iff. lia.
    + symmetry. apply Z.compare_gt_iff. lia.
    + apply (@finite_compare mx my ex ey Hx Hy).
Qed.

(** *** The sign of a difference *)

Lemma iter_xO_value (m d : positive) :
  Zpos (Pos.iter xO m d) = (Zpos m * 2 ^ Zpos d)%Z.
Proof.
  induction d as [|d IH] using Pos.peano_ind.
  - simpl. lia.
  - rewrite Pos.iter_succ, Pos2Z.inj_succ, Z.pow_succ_r by lia.
    rewrite Pos2Z.inj_xO, IH. lia.
Qed.

Lemma shl_align_value (m : positive) (ex ez : Z) :
  (ez <= ex)%Z ->
  Zpos (fst (shl_align m ex ez)) = (Zpos m * 2 ^ (ex - ez))%Z.
Proof.
  intros H. unfold shl_align.
  destruct (ez - ex)%Z as [|d|d] eqn:E; cbn [fst].
  - replace (ex - ez)%Z with 0%Z by lia. simpl. lia.
  - lia.
  - rewrite iter_xO_value. do 2 f_equal. lia.
Qed.

Lemma shl_align_exponent (m : positive) (ex ez : Z) :
  (-1074 <= ex)%Z -> (-1074 <= ez)%Z ->
  (-1074 <= snd (shl_align m ex ez))%Z.
Proof.
  intros Hx Hz. unfold shl_align. now destruct (ez - ex)%Z.
Qed.

Lemma shr_1_value (mrs : shr_record) :
  (0 <= shr_m mrs)%Z -> shr_m (shr_1 mrs) = (shr_m mrs / 2)%Z.
Proof.
  destruct mrs as [m r s]. cbn [shr_m shr_1]. intros H.
  destruct m as [|[p|p|]|p]; cbn [shr_m]; try lia.
  - reflexivity.
  - apply (Z.div_unique (Zpos p~1) 2 (Zpos p) 1); lia.
  - apply (Z.div_unique (Zpos p~0) 2 (Zpos p) 0); lia.
  - reflexivity.
Qed.

Lemma pow2_xO (p : positive) :
  (2 ^ Zpos p~0 = 2 ^ Zpos p * 2 ^ Zpos p)%Z.
Proof.
  replace (Zpos p~0) with (Zpos p + Zpos p)%Z by lia.
  apply Z.pow_add_r; lia.
Qed.

Lemma pow2_xI (p : positive) :
  (2 ^ Zpos p~1 = 2 * (2 ^ Zpos p * 2 ^ Zpos p))%Z.
Proof.
  replace (Zpos p~1) with (Z.succ (Zpos p + Zpos p))%Z by lia.
  rewrite Z.pow_succ_r by lia. f_equal. apply Z.pow_add_r; lia.
Qed.

Lemma iter_shr_1_value (p : positive) :
  forall mrs,
    (0 <= shr_m mrs)%Z ->
    shr_m (iter_pos shr_1 p mrs) = (shr_m mrs / 2 ^ Zpos p)%Z.
Proof.
  induction p as [p IH|p IH|]; intros mrs H; cbn [iter_pos].
  - assert (0 < 2 ^ Zpos p)%Z as Hp by (apply Z.pow_pos_nonneg; lia).
    assert (0 <= shr_m (shr_1 mrs))%Z as H1
      by (rewrite shr_1_value by exact H; apply Z.div_pos; lia).
    assert (0 <= shr_m (iter_pos shr_1 p (shr_1 mrs)))%Z as H2
      by (rewrite IH by exact H1; apply Z.div_pos; [exact H1|exact Hp]).
    rewrite IH by exact H2. rewrite IH by exact H1.
    rewrite shr_1_value by exact H.
    rewrite !Z.div_div by lia.
    f_equal. rewrite pow2_xI. ring.
  - assert (0 < 2 ^ Zpos p)%Z as Hp by (apply Z.pow_pos_nonneg; lia).
    assert (0 <= shr_m (iter_pos shr_1 p mrs))%Z as H2
      by (rewrite IH by exact H; apply Z.div_pos; [exact H|exact Hp]).
    rewrite IH by exact H2. rewrite IH by exact H.
    rewrite Z.div_div by lia.
    f_equal. rewrite pow2_xO. ring.
  - rewrite shr_1_value by exact H. reflexivity.
Qed.

(** Shifting a positive mantissa to its canonical exponent leaves it
    positive. *)
Lemma shr_fexp_positive (m e : Z) (l : location) :
  (0 < m)%Z -> (-1074 <= e)%Z ->
  (0 < shr_m (fst (shr_fexp prec emax m e l)))%Z
  /\ (-1074 <= snd (shr_fexp prec emax m e l))%Z.
Proof.
  intros Hm He. unfold shr_fexp, shr, fexp, SpecFloat.emin.
  change prec with 53%Z. change emax with 1024%Z.
  assert (shr_m (shr_record_of_loc m l) = m) as Hrec
    by (destruct l as [|[]]; reflexivity).
  destruct m as [|p|p]; try lia. cbn [Zdigits2].
  pose proof (digits2_pos_bounds p) as [Hlow _].
  set (d := Zpos (digits2_pos p)) in *.
  destruct (Z.max (d + e - 53) (3 - 1024 - 53) - e)%Z as [|n|n] eqn:En;
    cbn [fst snd]; rewrite ?Hrec; try (split; lia).
  rewrite iter_shr_1_value by (rewrite Hrec; lia). rewrite Hrec.
  assert (Zpos n = d - 53)%Z as Hn by lia.
  split; [|lia].
  apply Z.div_str_pos. split; [apply Z.pow_pos_nonneg; lia|].
  apply Z.le_trans with (2 ^ (d - 1))%Z; [|exact Hlow].
  apply Z.pow_le_mono_r; lia.
Qed.

Lemma round_nearest_even_positive (m : Z) (l : location) :
  (0 < m)%Z -> (0 < round_nearest_even m l)%Z.
Proof.
  intros H. destruct l as [|[]]; cbn [round_nearest_even];
    try destruct (Z.even m); lia.
Qed.

(** Rounding a positive mantissa gives a finite value or an infinity of
    the given sign. *)
Lemma binary_round_aux_sign (s : bool) (m e : Z) (l : location) :
  (0 < m)%Z -> (-1074 <= e)%Z ->
  SFltb (binary_round_aux prec emax s m e l) (S754_zero false) = s.
Proof.
  intros Hm He. unfold binary_round_aux.
  destruct (shr_fexp_positive l Hm He) as [H1 H1e].
  destruct (shr_fexp prec emax m e l) as [mrs' e'] eqn:E1. cbn [fst snd] in *.
  pose proof (round_nearest_even_positive (loc_of_shr_record mrs') H1) as H2.
  destruct (shr_fexp_positive loc_Exact H2 H1e) as [H3 _].
  destruct (shr_fexp prec emax _ e' loc_Exact) as [mrs'' e''] eqn:E2.
  cbn [fst] in H3.
  destruct (shr_m mrs'') as [|p|p]; try lia.
  destruct (e'' <=? emax - prec)%Z; destruct s; reflexivity.
Qed.

Lemma binary_normalize_sign (D e : Z) :
  (-1074 <= e)%Z ->
  SFltb (binary_normalize prec emax D e false) (S754_zero false)
  = (D <? 0)%Z.
Proof.
  intros He. destruct D as [|p|p]; cbn [binary_normalize].
  - reflexivity.
  - unfold binary_round.
    destruct (shl_align p e _) as [mz ez] eqn:E.
    rewrite binary_round_aux_sign; [reflexivity|lia|].
    change ez with (snd (mz, ez)). rewrite <- E.
    apply shl_align_exponent; [exact He|].
    unfold fexp, SpecFloat.emin. change prec with 53%Z.
    change emax with 1024%Z. lia.
  - unfold binary_round.
    destruct (shl_align p e _) as [mz ez] eqn:E.
    rewrite binary_round_aux_sign; [reflexivity|lia|].
    change ez with (snd (mz, ez)). rewrite <- E.
    apply shl_align_exponent; [exact He|].
    unfold fexp, SpecFloat.emin. change prec with 53%Z.
    change emax with 1024%Z. lia.
Qed.

(** The difference of two values that are not NaN is negative exactly
    when the first is the smaller. *)
Lemma SFsub_sign (x y : spec_float) :
  SpecFloat.valid_binary prec emax x = true ->
  SpecFloat.valid_binary prec emax y = true ->
  x <> S754_nan -> y <> S754_nan ->
  SFltb (SFsub prec emax x y) (S754_zero false)
  = (SF_rank x <? SF_rank y)%Z.
Proof.
  intros Hx Hy Nx Ny.
  destruct x as [sx|sx| |sx mx ex]; [| |congruence|];
    destruct y as [sy|sy| |sy my ey]; try congruence;
    cbn [SFsub SF_rank SpecFloat.valid_binary] in *.
  - destruct sx, sy; reflexivity.
  - destruct sx, sy; reflexivity.
  - pose proof (finite_rank_bounds _ _ Hy) as B.
    destruct sy; cbn [cond_Zopp negb SFltb SFcompare]; symmetry;
      [apply Z.ltb_ge|apply Z.ltb_lt]; lia.
  - destruct sx; reflexivity.
  - destruct sx, sy; reflexivity.
  - pose proof (finite_rank_bounds _ _ Hy) as B.
    assert (0 < 2 ^ 2098)%Z by reflexivity.
    destruct sx, sy; cbn [cond_Zopp negb SFltb SFcompare]; symmetry;
      try (apply Z.ltb_ge; lia); apply Z.ltb_lt; lia.
  - pose proof (finite_rank_bounds _ _ Hx) as B.
    destruct sx; cbn [cond_Zopp negb SFltb SFcompare]; symmetry;
      [apply Z.ltb_lt|apply Z.ltb_ge]; lia.
  - pose proof (finite_rank_bounds _ _ Hx) as B.
    assert (0 < 2 ^ 2098)%Z by reflexivity.
    destruct sx, sy; cbn [cond_Zopp negb SFltb SFcompare]; symmetry;
      try (apply Z.ltb_ge; lia); apply Z.ltb_lt; lia.
  - destruct (bounded_canonical _ _ Hx) as (Hex & _).
    destruct (bounded_canonical _ _ Hy) as (Hey & _).
    rewrite binary_normalize_sign by lia.
    rewrite !shl_align_value by lia.
    set (ez := Z.min ex ey).
    assert (0 < 2 ^ (ez + 1074))%Z as Hp
      by (apply Z.pow_pos_nonneg; lia).
    assert (forall (s : bool) (m : positive) (e : Z),
               (ez <= e)%Z ->
               cond_Zopp s (Zpos m * 2 ^ (e + 1074))
               = (cond_Zopp s (Zpos m * 2 ^ (e - ez)) * 2 ^ (ez + 1074))%Z)
      as Hscale.
    { intros s m e He.
      replace (e + 1074)%Z with ((e - ez) + (ez + 1074))%Z by lia.
      rewrite Z.pow_add_r by lia. destruct s; cbn [cond_Zopp]; lia. }
    rewrite (Hscale sx mx ex) by lia. rewrite (Hscale sy my ey) by lia.
    set (a := cond_Zopp sx (Zpos mx * 2 ^ (ex - ez))).
    set (b := cond_Zopp sy (Zpos my * 2 ^ (ey - ez))).
    destruct (Z.ltb_spec (a - b) 0) as [H|H];
      symmetry; [apply Z.ltb_lt|apply Z.ltb_ge].
    + apply Z.mul_lt_mono_pos_r; [exact Hp|lia].
    + apply Z.mul_le_mono_nonneg_r; lia.
Qed.

Lemma not_nan_spec (x : float) :
  PrimFloat.is_nan x = false -> Prim2SF x <> S754_nan.
Proof.
  unfold PrimFloat.is_nan. rewrite FloatAxioms.eqb_spec. intros H E.
  rewrite E in H. discriminate H.
Qed.

(** On Numbers that are not NaN, [<] and [<=] are the order of the
    ranks. *)
Lemma ltb_rank (x y : float) :
  PrimFloat.is_nan x = false -> PrimFloat.is_nan y = false ->
  PrimFloat.ltb x y = (rank x <? rank y)%Z.
Proof.
  intros Hx Hy. rewrite FloatAxioms.ltb_spec. unfold SFltb, rank.
  rewrite SFcompare_rank
    by (try apply FloatAxioms.Prim2SF_valid; now apply not_nan_spec).
  destruct (Z.compare_spec (SF_rank (Prim2SF x)) (SF_rank (Prim2SF y)));
    symmetry; [apply Z.ltb_ge|apply Z.ltb_lt|apply Z.ltb_ge]; lia.
Qed.

Lemma leb_rank (x y : float) :
  PrimFloat.is_nan x = false -> PrimFloat.is_nan y = false ->
  PrimFloat.leb x y = (rank x <=? rank y)%Z.
Proof.
  intros Hx Hy. rewrite FloatAxioms.leb_spec. unfold SFleb, rank.
  rewrite SFcompare_rank
    by (try apply FloatAxioms.Prim2SF_valid; now apply not_nan_spec).
  destruct (Z.compare_spec (SF_rank (Prim2SF x)) (SF_rank (Prim2SF y)));
    symmetry; [apply Z.leb_le|apply Z.leb_le|apply Z.leb_gt]; lia.
Qed.

(** [a - b < 0] exactly when [a < b], for Numbers that are not NaN. *)
Lemma sub_negative (x y : float) :
  PrimFloat.is_nan x = false -> PrimFloat.is_nan y = false ->
  PrimFloat.ltb (x - y) 0 = PrimFloat.ltb x y.
Proof.
  intros Hx Hy. rewrite (@ltb_rank x y Hx Hy).
  rewrite FloatAxioms.ltb_spec, FloatAxioms.sub_spec.
  change (Prim2SF 0) with (S754_zero false).
  apply SFsub_sign;
    try apply FloatAxioms.Prim2SF_valid; now apply not_nan_spec.
Qed.

(** The sort comparator on slots whose starts are not NaN. *)
Lemma by_start_rank (a b : float * float) :
  PrimFloat.is_nan (fst a) = false -> PrimFloat.is_nan (fst b) = false ->
  Backend.by_start a b = (rank (fst a) <? rank (fst b))%Z.
Proof.
  intros Ha Hb. unfold Backend.by_start, JS.lt, JS.zero.
  rewrite sub_negative by assumption. now apply ltb_rank.
Qed.

(** Slots whose starts are not NaN come out of the sort in ascending
    order of start. *)
Lemma sort_by_start_ascending (slots : list (float * float)) :
  Forall (fun s => PrimFloat.is_nan (fst s) = false) slots ->
  StronglySorted (fun a b => PrimFloat.leb (fst a) (fst b) = true)
                 (JS.sort Backend.by_start slots).
Proof.
  intros Hs.
  assert (Forall (fun s => PrimFloat.is_nan (fst s) = false)
                 (JS.sort Backend.by_start slots)) as Hs'
    by (apply (Permutation_Forall
                 (Permutation_sym (sort_perm Backend.by_start slots))), Hs).
  assert (StronglySorted (fun a b => Backend.by_start b a = false)
                         (JS.sort Backend.by_start slots)) as H.
  { apply sort_sorted
      with (P := fun s : float * float => PrimFloat.is_nan (fst s) = false).
    - intros a b Ha Hb. rewrite !by_start_rank by assumption.
      intros H. apply Z.ltb_lt in H. apply Z.ltb_ge. lia.
    - intros a b c Ha Hb Hc. rewrite !by_start_rank by assumption.
      intros H1 H2. apply Z.ltb_ge in H1, H2. apply Z.ltb_ge. lia.
    - exact Hs. }
  revert Hs'. induction H as [|a l Hl IH Ha]; intros Hs'; constructor.
  - apply IH. now inversion Hs'.
  - inversion Hs' as [|? ? Na Nl]; subst.
    rewrite Forall_forall in Ha, Nl |- *. intros b Hb.
    specialize (Ha b Hb). rewrite by_start_rank in Ha by auto.
    rewrite leb_rank by auto. apply Z.ltb_ge in Ha. apply Z.leb_le. lia.
Qed.

(** The slots of a day have the starts of timeslots of the schedule. *)
Lemma backend_day_slots_starts (d : string) (schedule : Backend.Schedule) :
  Forall (fun ts => PrimFloat.is_nan (Backend.ts_start ts) = false)
         (flat_map Backend.timeslots schedule) ->
  Forall (fun s => PrimFloat.is_nan (fst s) = false)
         (backend_day_slots d schedule).
Proof.
  intros H. unfold backend_day_slots. rewrite Forall_forall in H |- *.
  intros s Hs. apply in_map_iff in Hs. destruct Hs as (ts & <- & Hts).
  apply filter_In in Hts. apply H, Hts.
Qed.

Lemma frontend_day_slots_starts (d : string) (schedule : Frontend.Schedule) :
  Forall (fun ts => PrimFloat.is_nan (Frontend.startTime ts) = false)
         (flat_map Frontend.timeslots schedule) ->
  Forall (fun s => PrimFloat.is_nan (fst s) = false)
         (frontend_day_slots d schedule).
Proof.
  intros H. unfold frontend_day_slots. rewrite Forall_forall in H |- *.
  intros s Hs. apply in_map_iff in Hs. destruct Hs as (ts & <- & Hts).
  apply filter_In in Hts. apply H, Hts.
Qed.

Lemma frontend_group_by_day_spec (schedule : Frontend.Schedule) :
  let daily := Frontend.group_by_day schedule in
  (forall d, In d (Dict.keys daily) ->
             Dict.get daily d = Some (frontend_day_slots d schedule))
  /\ Permutation (Dict.keys daily)
       (nodup string_dec
          (map Frontend.day (flat_map Frontend.timeslots schedule))).
Proof.
  cbv zeta. unfold Frontend.group_by_day, Frontend.all_timeslots.
  set (all := flat_map Frontend.timeslots schedule).
  pose proof (@group_keys Frontend.Timeslot Frontend.day
                (fun ts => (Frontend.startTime ts, Frontend.endTime ts))
                all Dict.empty (NoDup_nil _)) as [Hnd Hin].
  pose proof (@group_get Frontend.Timeslot Frontend.day
                (fun ts => (Frontend.startTime ts, Frontend.endTime ts))
                all Dict.empty) as Hget.
  cbv beta zeta in Hnd, Hin, Hget.
  change Backend.push_daily with Frontend.push_daily in Hnd, Hin, Hget.
  set (daily := fold_left _ all Dict.empty) in *.
  split.
  - intros d Hd. apply (proj1 (in_keys_iff _ _)) in Hd.
    rewrite Hget. cbn [Dict.get Dict.empty]. unfold frontend_day_slots.
    fold all. apply Hin in Hd. destruct Hd as [[]|Hd].
    apply in_map_iff in Hd. destruct Hd as (t & Ht & Hall).
    destruct (filter _ all) as [|x f] eqn:Ef; [|reflexivity].
    exfalso. assert (In t (filter (fun ts => String.eqb (Frontend.day ts) d)
                                  all)) as Hf.
    { apply filter_In. split; [exact Hall|]. now apply String.eqb_eq. }
    rewrite Ef in Hf. destruct Hf.
  - rewrite keys_perm. apply NoDup_Permutation.
    + exact Hnd.
    + apply NoDup_nodup.
    + intros d. rewrite Hin, nodup_In. simpl. tauto.
Qed.

(** The back-to-back count of the frontend: the same sum. *)
Lemma frontend_countBackToBack_spec (schedule : Frontend.Schedule) :
  Frontend.countBackToBack schedule
  = list_sum
      (map (fun d => close_pairs
                       (JS.sort Frontend.by_start
                                (frontend_day_slots d schedule)))
           (nodup string_dec
              (map Frontend.day (flat_map Frontend.timeslots schedule)))).
Proof.
  destruct (frontend_group_by_day_spec schedule) as [Hget Hperm].
  unfold Frontend.countBackToBack.
  rewrite fold_left_sum
    with (g := fun d => close_pairs
                          (JS.sort Frontend.by_start
                                   (frontend_day_slots d schedule))).
  - simpl. apply list_sum_perm, Permutation_map, Hperm.
  - intros acc d Hd. rewrite (Hget d Hd).
    change (Frontend.count_adjacent
              (JS.sort Frontend.by_start (frontend_day_slots d schedule)) acc)
      with (Backend.count_adjacent
              (JS.sort Frontend.by_start (frontend_day_slots d schedule)) acc).
    apply count_adjacent_spec.
Qed.

(** C8: the score is the sum of five terms, one per preference flag: the
    timeslots that start before the morning cutoff, those that start after
    the evening cutoff, those on Friday, the back-to-back count and the
    number of distinct days; a term whose flag is off is 0, and the score
    is a non-negative integer.  The back-to-back count is, summed over the
    days in use, the number of adjacent pairs of the slots of the day,
    sorted by start, in which the next slot starts less than 1.5 minutes
    after the previous one ends; the sorted slots are the slots of the
    day rearranged in ascending order of start.  Both implementations;
    the frontend reads its cutoffs through its time parser.  When the
    back-to-back flag is on, no start is taken to be NaN (the order in
    which the engine leaves such slots is its own) and no day to name a
    member of [Object.prototype] (the grouping by day throws on such a
    name). *)
Theorem scoreSchedule_formula :
  (forall (schedule : Backend.Schedule) (prefs : Backend.Preferences),
      let slots := flat_map Backend.timeslots schedule in
      let gated (flag : bool) (count : nat) :=
        if flag then Z.of_nat count else 0%Z in
      let sorted (d : string) :=
        JS.sort Backend.by_start (backend_day_slots d schedule) in
      (Backend.avoid_back_to_back prefs = true ->
       Forall (fun ts => PrimFloat.is_nan (Backend.ts_start ts) = false
                         /\ inherited_property (Backend.ts_day ts) = false)
              slots) ->
      Backend.scoreSchedule schedule prefs
      = (gated (Backend.no_before prefs)
           (List.length
              (filter (fun ts => JS.lt (Backend.ts_start ts)
                                       (Backend.before_cutoff prefs)) slots))
         + gated (Backend.no_after prefs)
             (List.length
                (filter (fun ts => JS.gt (Backend.ts_start ts)
                                         (Backend.after_cutoff prefs)) slots))
         + gated (Backend.avoid_friday prefs)
             (List.length
                (filter (fun ts => String.eqb (Backend.ts_day ts) "F") slots))
         + gated (Backend.avoid_back_to_back prefs)
             (list_sum
                (map (fun d => close_pairs (sorted d))
                     (nodup string_dec (map Backend.ts_day slots))))
         + gated (Backend.minimize_days prefs)
             (List.length
                (nodup string_dec (map Backend.ts_day slots))))%Z
      /\ (0 <= Backend.scoreSchedule schedule prefs)%Z
      /\ (Backend.avoid_back_to_back prefs = true ->
          forall d,
            Permutation (sorted d) (backend_day_slots d schedule)
            /\ StronglySorted
                 (fun a b => PrimFloat.leb (fst a) (fst b) = true)
                 (sorted d)))
  /\ (forall (schedule : Frontend.Schedule) (prefs : Frontend.Prefs),
         let slots := flat_map Frontend.timeslots schedule in
         let gated (flag : bool) (count : nat) :=
           if flag then Z.of_nat count else 0%Z in
         let sorted (d : string) :=
           JS.sort Frontend.by_start (frontend_day_slots d schedule) in
         (Frontend.avoidB2B prefs = true ->
          Forall (fun ts => PrimFloat.is_nan (Frontend.startTime ts) = false
                            /\ inherited_property (Frontend.day ts) = false)
                 slots) ->
         exists beforeCutoff afterCutoff score,
           Frontend.parseTime (JS.VStr (Frontend.beforeTime prefs ++ " AM"))
           = Normal beforeCutoff
           /\ Frontend.parseTime (JS.VStr (Frontend.afterTime prefs ++ " PM"))
              = Normal afterCutoff
           /\ Frontend.scoreSchedule schedule prefs = Normal score
           /\ score
              = (gated (Frontend.noBefore prefs)
                   (List.length
                      (filter (fun ts => JS.lt (Frontend.startTime ts)
                                               beforeCutoff) slots))
                 + gated (Frontend.noAfter prefs)
                     (List.length
                        (filter (fun ts => JS.gt (Frontend.startTime ts)
                                                 afterCutoff) slots))
                 + gated (Frontend.avoidFriday prefs)
                     (List.length
                        (filter (fun ts => String.eqb (Frontend.day ts) "F")
                                slots))
                 + gated (Frontend.avoidB2B prefs)
                     (list_sum
                        (map (fun d => close_pairs (sorted d))
                             (nodup string_dec (map Frontend.day slots))))
                 + gated (Frontend.minimizeDays prefs)
                     (List.length
                        (nodup string_dec (map Frontend.day slots))))%Z
           /\ (0 <= score)%Z
           /\ (Frontend.avoidB2B prefs = true ->
               forall d,
                 Permutation (sorted d) (frontend_day_slots d schedule)
                 /\ StronglySorted
                      (fun a b => PrimFloat.leb (fst a) (fst b) = true)
                      (sorted d))).
Proof.
  split.
  - intros schedule prefs slots gated sorted Hnan.
    assert (Backend.scoreSchedule schedule prefs
            = (gated (Backend.no_before prefs)
                 (Backend.countMorningClasses schedule
                    (Backend.before_cutoff prefs))
               + gated (Backend.no_after prefs)
                   (Backend.countEveningClasses schedule
                      (Backend.after_cutoff prefs))
               + gated (Backend.avoid_friday prefs)
                   (Backend.countFridayClasses schedule)
               + gated (Backend.avoid_back_to_back prefs)
                   (Backend.countBackToBack schedule)
               + gated (Backend.minimize_days prefs)
                   (Backend.countDaysUsed schedule))%Z) as E.
    { unfold Backend.scoreSchedule, gated.
      destruct (Backend.no_before prefs), (Backend.no_after prefs),
        (Backend.avoid_friday prefs), (Backend.avoid_back_to_back prefs),
        (Backend.minimize_days prefs); lia. }
    rewrite E.
    unfold Backend.countMorningClasses, Backend.countEveningClasses,
      Backend.countFridayClasses.
    rewrite !count_by_section, backend_countDaysUsed_spec,
      backend_countBackToBack_spec. simpl Nat.add.
    split; [reflexivity|]. fold slots. split.
    + unfold gated.
      destruct (Backend.no_before prefs), (Backend.no_after prefs),
        (Backend.avoid_friday prefs), (Backend.avoid_back_to_back prefs),
        (Backend.minimize_days prefs); lia.
    + intros Hflag d. split; [apply sort_perm|].
      apply sort_by_start_ascending, backend_day_slots_starts.
      apply (Forall_impl _ (fun ts H => proj1 H) (Hnan Hflag)).
  - intros schedule prefs slots gated sorted Hnan.
    destruct (frontend_parseTime_total
                (JS.VStr (Frontend.beforeTime prefs ++ " AM"))) as [bc Hbc].
    destruct (frontend_parseTime_total
                (JS.VStr (Frontend.afterTime prefs ++ " PM"))) as [ac Hac].
    exists bc, ac, (frontend_score prefs schedule).
    split; [exact Hbc|]. split; [exact Hac|].
    split; [apply frontend_scoreSchedule_total|].
    assert (forall A B C : Prop, A /\ B -> C -> A /\ B /\ C) as Hsplit
      by tauto.
    apply Hsplit.
    + unfold frontend_score, Frontend.scoreSchedule. rewrite Hbc, Hac.
      unfold Frontend.countMorningClasses, Frontend.countEveningClasses,
        Frontend.countFridayClasses, Frontend.countDaysUsed,
        Frontend.all_timeslots.
      rewrite set_size_distinct, frontend_countBackToBack_spec.
      unfold sorted, slots, gated.
      destruct (Frontend.noBefore prefs), (Frontend.noAfter prefs),
        (Frontend.avoidFriday prefs), (Frontend.avoidB2B prefs),
        (Frontend.minimizeDays prefs); cbn [bind]; split; lia.
    + intros Hflag d. split; [apply sort_perm|].
      change Frontend.by_start with Backend.by_start.
      apply sort_by_start_ascending, frontend_day_slots_starts.
      apply (Forall_impl _ (fun ts H => proj1 H) (Hnan Hflag)).
Qed.

(** With every flag on and the cutoffs at 10.5 and 11.5, the schedule of
    12:00-13:00 and 10:00-11:00 on Monday scores 1 + 1 + 0 + 0 + 1: the
    sorted slots of Monday are 10:00-11:00, 12:00-13:00, an hour apart. *)
Lemma scoreSchedule_formula_witness :
  Backend.scoreSchedule [Example.ma_12_13; Example.cs_10_11]
    (Backend.mkPreferences true 10.5 true 11.5 true true true)
  = (1 + 1 + 0
     + Z.of_nat (close_pairs [(10, 11); (12, 13)]%float)
     + 1)%Z
  /\ JS.sort Backend.by_start
       (backend_day_slots "M" [Example.ma_12_13; Example.cs_10_11])
     = [(10, 11); (12, 13)]%float.
Proof.
  destruct (proj1 scoreSchedule_formula
              [Example.ma_12_13; Example.cs_10_11]
              (Backend.mkPreferences true 10.5 true 11.5 true true true))
    as (E & _ & Hsorted).
  - intros _. repeat constructor.
  - split; [rewrite E; vm_compute; reflexivity|].
    vm_compute. reflexivity.
Defined.

(** C9: with only [avoid_back_to_back] on, the score is the back-to-back
    count: for each day in use, the slots of the day are sorted by start
    and every adjacent pair with [nextStart - prevEnd < 1.5 / 60] counts
    for one (for schedules in which no start is NaN and no day names a
    member of [Object.prototype]).  The sorted slots are a rearrangement
    of the slots; when no start is NaN the comparator [a[0] - b[0]] is
    negative exactly when [a[0] < b[0]] and the sorted slots are in
    ascending order of start.
    So 10:00-11:00 and 11:00-12:00 on one day count 1, a gap of 1.4
    minutes counts 1 and a gap of 2 minutes counts 0; and 12:00-13:00
    listed before 10:00-11:00 counts 0, the two slots being compared in
    the order of their starts. *)
Theorem countBackToBack_boundary :
  (forall (schedule : Backend.Schedule) (before after : float),
      Backend.scoreSchedule schedule
        (Backend.mkPreferences false before false after false true false)
      = Z.of_nat (Backend.countBackToBack schedule))
  /\ (forall schedule : Backend.Schedule,
         Forall (fun ts => PrimFloat.is_nan (Backend.ts_start ts) = false
                           /\ inherited_property (Backend.ts_day ts) = false)
                (flat_map Backend.timeslots schedule) ->
         Backend.countBackToBack schedule
         = list_sum
             (map (fun d => close_pairs
                              (JS.sort Backend.by_start
                                       (backend_day_slots d schedule)))
                  (nodup string_dec
                     (map Backend.ts_day
                          (flat_map Backend.timeslots schedule)))))
  /\ (forall slots : list (float * float),
         Permutation (JS.sort Backend.by_start slots) slots)
  /\ (forall a b : float * float,
         PrimFloat.is_nan (fst a) = false ->
         PrimFloat.is_nan (fst b) = false ->
         Backend.by_start a b = PrimFloat.ltb (fst a) (fst b))
  /\ (forall slots : list (float * float),
         Forall (fun s => PrimFloat.is_nan (fst s) = false) slots ->
         StronglySorted (fun a b => PrimFloat.leb (fst a) (fst b) = true)
                        (JS.sort Backend.by_start slots))
  /\ (forall slots : list (float * float),
         consistent_on Backend.by_start slots = true ->
         StronglySorted (fun a b => Backend.by_start b a = false)
                        (JS.sort Backend.by_start slots))
  /\ JS.sort Backend.by_start [(12, 13); (10, 11)]%float
     = [(10, 11); (12, 13)]%float
  /\ Backend.scoreSchedule [Example.cs_10_11; Example.ma_11_12]
                           Example.only_back_to_back = 1%Z
  /\ Backend.scoreSchedule [Example.cs_10_11; Example.ma_gap_1_4]
                           Example.only_back_to_back = 1%Z
  /\ Backend.scoreSchedule [Example.cs_10_11; Example.ma_gap_2]
                           Example.only_back_to_back = 0%Z
  /\ Backend.scoreSchedule [Example.ma_12_13; Example.cs_10_11]
                           Example.only_back_to_back = 0%Z.
Proof.
  split; [|split; [|split; [|split; [|split; [|split]]]]].
  - intros schedule before after. unfold Backend.scoreSchedule. simpl. lia.
  - intros schedule _. apply backend_countBackToBack_spec.
  - intros slots. apply sort_perm.
  - intros a b Ha Hb. unfold Backend.by_start, JS.lt, JS.zero.
    now apply sub_negative.
  - intros slots. apply sort_by_start_ascending.
  - intros slots. apply sort_sorted_consistent.
  - repeat split; vm_compute; reflexivity.
Qed.

(** The slots 11:00-12:00 and 10:00-11:00 of a day come out in ascending
    order of start: 10:00-11:00, then 11:00-12:00. *)
Lemma countBackToBack_boundary_witness :
  StronglySorted (fun a b => PrimFloat.leb (fst a) (fst b) = true)
    (JS.sort Backend.by_start [(11, 12); (10, 11)]%float)
  /\ JS.sort Backend.by_start [(11, 12); (10, 11)]%float
     = [(10, 11); (11, 12)]%float.
Proof.
  split; [|vm_compute; reflexivity].
  apply (proj1 (proj2 (proj2 (proj2 (proj2 countBackToBack_boundary))))).
  repeat constructor.
Defined.

(** ** The Time Normalizer *)

Lemma returns_spec (c : completion float) (x : float) :
  returns c x = true <-> c = Normal x.
Proof.
  destruct c as [y| |]; simpl; try (split; discriminate).
  rewrite FloatAxioms.Leibniz.eqb_spec. split; [now intros ->|now intros [= ->]].
Qed.

Lemma on_every_clock12_spec (ok : bool -> nat -> nat -> bool -> bool) :
  on_every_clock12 ok = true ->
  forall pad h m pm, 1 <= h <= 12 -> m <= 59 -> ok pad h m pm = true.
Proof.
  unfold on_every_clock12. intros H pad h m pm Hh Hm.
  rewrite forallb_forall in H.
  assert (In pad [false; true]) as Hpad by (destruct pad; simpl; auto).
  specialize (H pad Hpad). rewrite forallb_forall in H.
  assert (In h (seq 1 12)) as Hh' by (apply in_seq; lia).
  specialize (H h Hh'). rewrite forallb_forall in H.
  assert (In m (seq 0 60)) as Hm' by (apply in_seq; lia).
  specialize (H m Hm'). rewrite forallb_forall in H.
  apply H. destruct pm; simpl; auto.
Qed.

Lemma check_clock12_holds : on_every_clock12 clock12_ok = true.
Proof. vm_compute. reflexivity. Qed.

(** C5, as the code has it: on every well-formed 12-hour string the
    frontend parser returns the hour of the day plus the minutes over
    sixty, 12 AM being hour 0 and a PM hour below 12 being advanced by 12;
    ["1:30 PM"] gives 13.5.  The backend parser has no 12-hour form: on
    the same strings it returns NaN. *)
Theorem parseTime_12_hour (pad : bool) (h m : nat) (pm : bool) :
  1 <= h <= 12 -> m <= 59 ->
  Frontend.parseTime (JS.VStr (clock12 pad h m pm))
  = Normal (JS.Z2float (Z.of_nat (hour24 h pm))
            + JS.Z2float (Z.of_nat m) / 60)%float
  /\ Backend.parseTime (JS.VStr (clock12 pad h m pm)) = Normal PrimFloat.nan.
Proof.
  intros Hh Hm.
  pose proof (on_every_clock12_spec clock12_ok check_clock12_holds
                pad pm Hh Hm) as H.
  unfold clock12_ok in H. apply andb_true_iff in H.
  destruct H as [Hf Hb]. split; now apply returns_spec.
Qed.

(** ["1:30 PM"] is 13.5 for the frontend parser. *)
Lemma parseTime_12_hour_witness :
  Frontend.parseTime (JS.VStr "1:30 PM") = Normal 13.5%float
  /\ Backend.parseTime (JS.VStr "1:30 PM") = Normal PrimFloat.nan.
Proof.
  apply (@parseTime_12_hour false 1 30 true); lia.
Defined.

(** C5 does not hold of the backend parser: ["1:30 PM"] is not 13.5. *)
Lemma backend_parseTime_12_hour_fails :
  Backend.parseTime (JS.VStr "1:30 PM") <> Normal 13.5%float.
Proof.
  intros H. apply returns_spec in H. vm_compute in H. discriminate H.
Qed.

(** The backend parser never throws. *)
Lemma backend_parseTime_total (v : JS.value) :
  exists x, Backend.parseTime v = Normal x.
Proof.
  unfold Backend.parseTime. destruct v; cbn [JS.call_split bind try_catch]; eauto.
Qed.

(** C6: on every input both parsers return a Number and never throw, and
    a missing input ([undefined], [null]) or any other input that is not a
    string gives 0, as does the empty string in the frontend parser.  But
    an unparsable string does not give 0: ["abc"] gives NaN in both
    parsers, and the empty string gives NaN in the backend parser, whose
    [catch] is never reached because [Number] does not throw. *)
Theorem parseTime_total_and_lenient :
  (forall v, exists x, Frontend.parseTime v = Normal x)
  /\ (forall v, exists x, Backend.parseTime v = Normal x)
  /\ Frontend.parseTime JS.VUndefined = Normal JS.zero
  /\ Frontend.parseTime JS.VNull = Normal JS.zero
  /\ Backend.parseTime JS.VUndefined = Normal JS.zero
  /\ Backend.parseTime JS.VNull = Normal JS.zero
  /\ (forall b, Frontend.parseTime (JS.VBool b) = Normal JS.zero
                /\ Backend.parseTime (JS.VBool b) = Normal JS.zero)
  /\ (forall x, Frontend.parseTime (JS.VNum x) = Normal JS.zero
                /\ Backend.parseTime (JS.VNum x) = Normal JS.zero)
  /\ Frontend.parseTime JS.VObject = Normal JS.zero
  /\ Backend.parseTime JS.VObject = Normal JS.zero
  /\ Frontend.parseTime (JS.VStr "") = Normal JS.zero
  /\ Backend.parseTime (JS.VStr "") = Normal PrimFloat.nan
  /\ Frontend.parseTime (JS.VStr "abc") = Normal PrimFloat.nan
  /\ Backend.parseTime (JS.VStr "abc") = Normal PrimFloat.nan.
Proof.
  split; [exact frontend_parseTime_total|].
  split; [exact backend_parseTime_total|].
  repeat split; try reflexivity.
  - unfold Frontend.parseTime. cbn. now rewrite orb_true_r.
  - unfold Frontend.parseTime. cbn. now rewrite orb_true_r.
Qed.

(** The unparsable string ["abc"] does not give 0. *)
Lemma frontend_parseTime_unparsable_not_zero :
  Frontend.parseTime (JS.VStr "abc") <> Normal JS.zero.
Proof.
  intros H. apply returns_spec in H. vm_compute in H. discriminate H.
Qed.

(** ** Base codes and inherited names *)

Lemma span_spec (p : ascii -> bool) (s : string) :
  forall a b,
    JS.span p s = (a, b) ->
    s = (a ++ b)%string /\ string_forall p a = true /\ stops_at p b = true.
Proof.
  induction s as [|c s IH]; intros a b; simpl.
  - intros [= <- <-]. auto.
  - destruct (p c) eqn:Hc.
    + destruct (JS.span p s) as [a' b'] eqn:E. intros [= <- <-].
      destruct (IH a' b' eq_refl) as (-> & Ha & Hb).
      simpl. rewrite Hc. auto.
    + intros [= <- <-]. simpl. rewrite Hc. auto.
Qed.

Lemma span_app (p : ascii -> bool) (a b : string) :
  string_forall p a = true -> stops_at p b = true ->
  JS.span p (a ++ b) = (a, b).
Proof.
  induction a as [|c a IH]; simpl; intros Ha Hb.
  - destruct b as [|d b]; simpl in *; [reflexivity|].
    apply negb_true_iff in Hb. now rewrite Hb.
  - apply andb_true_iff in Ha. destruct Ha as [Hc Ha].
    now rewrite Hc, IH.
Qed.

Lemma digit_not_letter (c : ascii) :
  JS.is_digit c = true -> JS.is_letter c = false.
Proof.
  unfold JS.is_digit, JS.is_letter. intros H.
  apply andb_true_iff in H. destruct H as [H1 H2].
  apply Nat.leb_le in H1, H2.
  apply orb_false_iff. split; apply andb_false_iff; left;
    apply Nat.leb_gt; lia.
Qed.

Lemma string_app_nil_r (s : string) : (s ++ "")%string = s.
Proof. induction s as [|c s IH]; simpl; [reflexivity|now rewrite IH]. Qed.

Lemma string_app_assoc (a b c : string) :
  ((a ++ b) ++ c)%string = (a ++ (b ++ c))%string.
Proof. induction a as [|x a IH]; simpl; [reflexivity|now rewrite IH]. Qed.

(** What a successful match returns: letters, then digits, as many of
    each as the string has at that place. *)
Lemma match_letters_digits_spec (s m : string) :
  JS.match_letters_digits s = Some m ->
  exists letters digits rest,
    m = (letters ++ digits)%string
    /\ s = (m ++ rest)%string
    /\ letters <> EmptyString /\ digits <> EmptyString
    /\ string_forall JS.is_letter letters = true
    /\ string_forall JS.is_digit digits = true
    /\ stops_at JS.is_digit rest = true.
Proof.
  unfold JS.match_letters_digits.
  destruct (JS.span JS.is_letter s) as [letters r] eqn:El.
  destruct (JS.span JS.is_digit r) as [digits rest] eqn:Ed.
  destruct (span_spec _ _ El) as (-> & Hl & _).
  destruct (span_spec _ _ Ed) as (-> & Hd & Hr).
  destruct letters as [|c letters]; [discriminate|].
  destruct digits as [|d digits]; [discriminate|].
  intros [= <-]. exists (String c letters), (String d digits), rest.
  repeat split; auto; try discriminate.
  symmetry. apply (string_app_assoc (String c letters) (String d digits) rest).
Qed.

(** A successful match matches itself. *)
Lemma match_letters_digits_fixed (s m : string) :
  JS.match_letters_digits s = Some m ->
  JS.match_letters_digits m = Some m.
Proof.
  intros H. destruct (match_letters_digits_spec _ H)
    as (letters & digits & rest & -> & _ & Hl & Hd & Hal & Had & _).
  unfold JS.match_letters_digits.
  rewrite span_app; [|exact Hal|].
  - rewrite <- (string_app_nil_r digits) at 1.
    rewrite span_app by auto.
    destruct letters; [congruence|]. destruct digits; [congruence|].
    reflexivity.
  - destruct digits as [|d digits]; [congruence|]. simpl in *.
    apply andb_true_iff in Had. destruct Had as [Hd' _].
    now rewrite (digit_not_letter _ Hd').
Qed.

(** No inherited property name matches the pattern of a base code. *)
Lemma inherited_no_base_code (k : string) :
  inherited_property k = true -> JS.match_letters_digits k = None.
Proof.
  unfold inherited_property. intros H. apply existsb_exists in H.
  destruct H as (name & Hname & E). apply String.eqb_eq in E. subst name.
  simpl in Hname.
  repeat (destruct Hname as [<-|Hname]; [reflexivity|]). destruct Hname.
Qed.

(** The base code of an identifier that names no inherited property names
    none either. *)
Lemma getBaseCode_own (fullCode : string) :
  inherited_property fullCode = false ->
  inherited_property (Backend.getBaseCode fullCode) = false.
Proof.
  intros H. unfold Backend.getBaseCode.
  destruct (JS.match_letters_digits fullCode) as [m|] eqn:E; [|exact H].
  destruct (inherited_property m) eqn:Em; [|reflexivity].
  apply inherited_no_base_code in Em.
  rewrite (match_letters_digits_fixed _ E) in Em. discriminate Em.
Qed.

(** Under a selection that names no member of [Object.prototype] the
    loop of the handler stores arrays of the catalog only. *)
Lemma stores_no_inherited (sections : Dict.t (list Backend.Section))
  (selected : list string) :
  (forall c, In c selected -> inherited_property c = false) ->
  existsb (Backend.stores_inherited sections) selected = false.
Proof.
  intros H. induction selected as [|c selected IH]; [reflexivity|].
  cbn [existsb]. rewrite IH by (intros c' Hc'; apply H; now right).
  unfold Backend.stores_inherited. rewrite (H c (or_introl eq_refl)).
  now destruct (Dict.get sections c).
Qed.

(** ** The backend catalog and the product *)

(** A loop whose body keeps an invariant and cannot throw under it ends
    normally and keeps the invariant. *)
Lemma foldM_invariant {A S : Type} (Inv : S -> Prop)
  (f : S -> A -> completion S) (l : list A) :
  (forall s x, In x l -> Inv s -> exists s', f s x = Normal s' /\ Inv s') ->
  forall s, Inv s -> exists s', foldM f l s = Normal s' /\ Inv s'.
Proof.
  induction l as [|x l IH]; intros Hf s Hs; simpl; [eauto|].
  destruct (Hf s x (or_introl eq_refl) Hs) as (s1 & -> & Hs1). cbn [bind].
  apply IH; [|exact Hs1]. intros s' y Hy. apply Hf. now right.
Qed.

Lemma session_timeslots_total (timeslots : list Backend.Timeslot)
  (session : Backend.Session) :
  exists ts, Backend.session_timeslots timeslots session = Normal ts.
Proof.
  unfold Backend.session_timeslots.
  destruct (@foldM_invariant string (list Backend.Timeslot) (fun _ => True))
    with (s := timeslots)
         (l := JS.chars (JS.remove_char "," (Backend.days session)))
         (f := fun timeslots day =>
                 startTime <- Backend.parseTime
                                (JS.VStr (Backend.start_time session)) ;;
                 endTime <- Backend.parseTime
                              (JS.VStr (Backend.end_time session)) ;;
                 Normal (if JS.truthy_num startTime && JS.truthy_num endTime
                         then timeslots ++
                                [Backend.mkTimeslot day
                                   (Backend.start_time session)
                                   (Backend.end_time session)
                                   startTime endTime]
                         else timeslots))
    as (ts & Hts & _); [|exact I|eauto].
  intros s day _ _.
  destruct (backend_parseTime_total (JS.VStr (Backend.start_time session)))
    as [x ->].
  destruct (backend_parseTime_total (JS.VStr (Backend.end_time session)))
    as [y ->].
  cbn [bind]. eauto.
Qed.

(** The catalog is built without throwing; its keys are distinct and a
    section filed under a code carries that code. *)
Lemma processCourseData_spec (courseData : Backend.CourseData) :
  (forall k, In k (Dict.keys courseData) -> inherited_property k = false) ->
  exists sections,
    Backend.processCourseData courseData = Normal sections
    /\ NoDup (map fst sections)
    /\ forall k group s, In (k, group) sections -> In s group ->
                         Backend.course_code s = k.
Proof.
  intros Hown. unfold Backend.processCourseData.
  apply foldM_invariant
    with (Inv := fun courses : Dict.t (list Backend.Section) =>
                   NoDup (map fst courses)
                   /\ forall k group s, In (k, group) courses -> In s group ->
                                        Backend.course_code s = k).
  2: { split; [constructor|]. intros k g s []. }
  intros courses fullCode Hkey [Hnd Hok].
  pose proof (getBaseCode_own _ (Hown fullCode Hkey)) as Hbase.
  apply (proj1 (in_keys_iff _ _)) in Hkey.
  destruct (in_keys_get _ _ Hkey) as [info ->].
  set (baseCode := Backend.getBaseCode fullCode) in *.
  rewrite Hbase.
  set (courses1 := match Dict.get courses baseCode with
                   | Some _ => courses
                   | None => Dict.set courses baseCode []
                   end).
  assert (NoDup (map fst courses1)
          /\ (forall k group s, In (k, group) courses1 -> In s group ->
                                Backend.course_code s = k)
          /\ exists group, Dict.get courses1 baseCode = Some group)
    as (Hnd1 & Hok1 & [group Hgroup]).
  { subst courses1. destruct (Dict.get courses baseCode) as [g|] eqn:E.
    - repeat split; eauto.
    - split; [now apply set_nodup|]. split.
      + intros k g s Hin Hs. apply in_set_inv in Hin.
        destruct Hin as [[= -> ->]|Hin]; [destruct Hs|eauto].
      + rewrite get_set_same. eauto. }
  clearbody courses1.
  destruct (@foldM_invariant Backend.Session (list Backend.Timeslot)
              (fun _ => True) Backend.session_timeslots
              (Backend.sessions info)) with (s := @nil Backend.Timeslot)
    as (ts & -> & _); [|exact I|].
  { intros s x _ _. destruct (session_timeslots_total s x) as [y ->]. eauto. }
  cbn [bind]. destruct ts as [|t ts]; [eauto|].
  rewrite Hgroup. eexists. split; [reflexivity|].
  split; [now apply set_nodup|].
  intros k g s Hin Hs. apply in_set_inv in Hin.
  destruct Hin as [[= -> ->]|Hin]; [|eauto].
  apply in_app_or in Hs. destruct Hs as [Hs|[<-|[]]]; [|reflexivity].
  apply (Hok1 baseCode group s); [|exact Hs]. now apply get_some_in.
Qed.

(** A tuple of the product takes its k-th element from the k-th list. *)
Lemma product_in {A : Type} (iterables : list (list A)) :
  forall c, In c (Backend.product iterables) ->
            Forall2 (fun x group => In x group) c iterables.
Proof.
  induction iterables as [|head tail IH]; intros c; simpl.
  - intros [<-|[]]. constructor.
  - rewrite in_flat_map. intros (item & Hitem & Hc).
    apply in_map_iff in Hc. destruct Hc as (items & <- & Hitems).
    constructor; auto.
Qed.


(** The map handed to the generator: the selected codes that the catalog
    knows, each once, with the list the catalog has for it. *)
Lemma coursesToSchedule_spec (sections : Dict.t (list Backend.Section))
  (selected : list string) :
  let toSchedule := Backend.coursesToSchedule sections selected in
  NoDup (map fst toSchedule)
  /\ (forall k, In k (map fst toSchedule)
                <-> In k selected /\ Dict.get sections k <> None)
  /\ (forall k group, In (k, group) toSchedule ->
                      Dict.get sections k = Some group).
Proof.
  cbv zeta. unfold Backend.coursesToSchedule.
  assert (forall acc : Dict.t (list Backend.Section),
             NoDup (map fst acc) ->
             (forall k group, In (k, group) acc ->
                              Dict.get sections k = Some group) ->
             let d := fold_left
                        (fun acc code =>
                           match Dict.get sections code with
                           | Some group => Dict.set acc code group
                           | None => acc
                           end) selected acc in
             NoDup (map fst d)
             /\ (forall k, In k (map fst d)
                           <-> In k (map fst acc)
                               \/ (In k selected /\ Dict.get sections k <> None))
             /\ (forall k group, In (k, group) d ->
                                 Dict.get sections k = Some group)) as H.
  { induction selected as [|code selected IH]; intros acc Hnd Hacc; simpl.
    - split; [exact Hnd|]. split; [tauto|exact Hacc].
    - destruct (Dict.get sections code) as [g|] eqn:E.
      + destruct (IH (Dict.set acc code g)) as (H1 & H2 & H3).
        * now apply set_nodup.
        * intros k group Hin. apply in_set_inv in Hin.
          destruct Hin as [[= -> ->]|Hin]; auto.
        * split; [exact H1|]. split; [|exact H3].
          intros k. rewrite H2, set_keys_in. split.
          -- intros [[H| ->]|[H Hk]]; auto.
             right. split; [now left|congruence].
          -- intros [H|[[<-|H] Hk]]; auto.
      + destruct (IH acc Hnd Hacc) as (H1 & H2 & H3).
        split; [exact H1|]. split; [|exact H3].
        intros k. rewrite H2. split.
        * intros [H|[H Hk]]; auto.
        * intros [H|[[<-|H] Hk]]; auto. congruence. }
  destruct (H Dict.empty (NoDup_nil _)) as (H1 & H2 & H3).
  { intros k g []. }
  split; [exact H1|]. split; [|exact H3].
  intros k. rewrite H2. simpl. tauto.
Qed.


(** ** The handler of the backend *)

Lemma handler_run (data : Backend.CourseData)
  (sections : Dict.t (list Backend.Section)) (selected : list string)
  (prefs : Backend.Preferences) :
  Backend.processCourseData data = Normal sections ->
  (forall c, In c selected -> inherited_property c = false) ->
  let toSchedule := Backend.coursesToSchedule sections selected in
  Backend.handler (Some data) selected prefs
  = Normal (if (List.length (Dict.keys toSchedule) =? 0)%nat
            then Backend.Status400
            else Backend.Json
                   (Backend.bestSchedules
                      (filter (fun c => negb (any_pair Backend.conflictsWith c))
                              (Backend.product (Dict.values toSchedule)))
                      prefs)).
Proof.
  intros Hp Hsel. cbv zeta. unfold Backend.handler. rewrite Hp. cbn [bind].
  rewrite (stores_no_inherited sections selected Hsel).
  destruct (List.length _ =? 0)%nat; [reflexivity|].
  now rewrite backend_generateSchedules_spec.
Qed.

(** The selector returns schedules of the list it was given. *)
Lemma bestSchedules_subset (all : list Backend.Schedule)
  (prefs : Backend.Preferences) (s : Backend.Schedule) :
  In s (Backend.bestSchedules all prefs) -> In s all.
Proof.
  unfold Backend.bestSchedules. destruct all as [|s0 rest]; [intros []|].
  cbn [map].
  rewrite (filter_by_score_spec (fun s => Backend.scoreSchedule s prefs)
             (s0 :: rest)).
  intros H. apply filter_In in H. tauto.
Qed.

Lemma Forall2_codes {S E : Type} (code : S -> string) (key : E -> string)
  (group : E -> list S) (c : list S) (entries : list E) :
  Forall2 (fun s g => In s g) c (map group entries) ->
  (forall e s, In e entries -> In s (group e) -> code s = key e) ->
  map code c = map key entries.
Proof.
  revert c. induction entries as [|e entries IH]; intros c H Hok;
    inversion H as [|s g c' gs Hs Hrest]; subst; simpl; [reflexivity|].
  f_equal.
  - apply Hok; [now left|exact Hs].
  - apply IH; [exact Hrest|]. intros e' s' He'. apply Hok. now right.
Qed.

Lemma filter_length_lt {A : Type} (p : A -> bool) (l : list A) (x : A) :
  In x l -> p x = false -> List.length (filter p l) < List.length l.
Proof.
  induction l as [|y l IH]; simpl; [tauto|].
  intros [->|H] Hx.
  - rewrite Hx. pose proof (filter_length_le p l). lia.
  - specialize (IH H Hx). destruct (p y); simpl; lia.
Qed.

(** The keys handed to the generator are the distinct selected codes that
    the catalog knows. *)
Lemma coursesToSchedule_keys (sections : Dict.t (list Backend.Section))
  (selected : list string) :
  Permutation (Dict.keys (Backend.coursesToSchedule sections selected))
              (nodup string_dec (filter (known sections) selected)).
Proof.
  destruct (coursesToSchedule_spec sections selected) as (Hnd & Hin & _).
  rewrite keys_perm. apply NoDup_Permutation;
    [exact Hnd|apply NoDup_nodup|].
  intros k. rewrite Hin, nodup_In, filter_In. unfold known.
  destruct (Dict.get sections k); intuition congruence.
Qed.

(** C7, as the code has it: a schedule returned by the backend generator
    takes one section from the list of each course code of the map it is
    given, in the order of the map; the handler puts in that map the
    distinct selected codes that the catalog knows, so that a schedule it
    returns has exactly one section per such code, and no section for a
    selected code that the catalog does not know.  The section identifiers
    of the data and the selected codes are taken not to name a member of
    [Object.prototype], such as ["constructor"] or ["toString"]: on such a
    name the catalog or the generator throws. *)
Theorem schedule_cardinality :
  (forall courses : Dict.t (list Backend.Section),
      exists out,
        Backend.generateSchedules courses = Normal out
        /\ forall schedule,
             In schedule out ->
             Forall2 (fun s group => In s group) schedule (Dict.values courses)
             /\ List.length schedule = List.length (Dict.keys courses))
  /\ (forall (data : Backend.CourseData) selected prefs,
         (forall k, In k (Dict.keys data) -> inherited_property k = false) ->
         (forall c, In c selected -> inherited_property c = false) ->
         exists sections,
           Backend.processCourseData data = Normal sections
           /\ (Backend.handler (Some data) selected prefs
               = Normal Backend.Status400
               \/ exists schedules,
                    Backend.handler (Some data) selected prefs
                    = Normal (Backend.Json schedules)
                    /\ forall schedule,
                         In schedule schedules ->
                         Permutation
                           (map Backend.course_code schedule)
                           (nodup string_dec
                                  (filter (known sections) selected)))).
Proof.
  split.
  - intros courses. eexists.
    split; [apply backend_generateSchedules_spec|].
    intros schedule Hin. apply filter_In in Hin. destruct Hin as [Hin _].
    apply product_in in Hin. split; [exact Hin|].
    apply Forall2_length in Hin. rewrite Hin.
    unfold Dict.values, Dict.keys. now rewrite !length_map.
  - intros data selected prefs Hown Hsel.
    destruct (processCourseData_spec data Hown) as (sections & Hp & Hnd & Hok).
    exists sections. split; [exact Hp|].
    rewrite (@handler_run data sections selected prefs Hp Hsel). cbv zeta.
    set (toSchedule := Backend.coursesToSchedule sections selected).
    destruct (List.length (Dict.keys toSchedule) =? 0)%nat; [now left|].
    right. eexists. split; [reflexivity|].
    intros schedule Hin.
    apply bestSchedules_subset, filter_In in Hin. destruct Hin as [Hin _].
    apply product_in in Hin.
    rewrite <- (coursesToSchedule_keys sections selected).
    fold toSchedule. unfold Dict.keys.
    rewrite (@Forall2_codes _ _ Backend.course_code fst snd schedule
               (Dict.entries toSchedule) Hin); [reflexivity|].
    intros [k g] s He Hs. simpl in *.
    apply (Permutation_in _ (entries_perm toSchedule)) in He.
    destruct (coursesToSchedule_spec sections selected) as (_ & _ & Hget).
    apply Hget, get_some_in in He. eapply Hok; eauto.
Qed.

(** With CS101 and MA201 selected the one schedule has a section of
    each. *)
Lemma schedule_cardinality_witness :
  Permutation
    (map Backend.course_code [Example.cs101_02; Example.ma201_01])
    ["CS101"; "MA201"]%string.
Proof.
  destruct (proj2 schedule_cardinality Example.catalog_data
              ["CS101"; "MA201"]%string Example.no_preferences)
    as (sections & Hp & [H400|(schedules & Hrun & Hall)]).
  - intros k Hk. vm_compute in Hk.
    repeat (destruct Hk as [<-|Hk]; [reflexivity|]). destruct Hk.
  - intros c Hc. simpl in Hc.
    repeat (destruct Hc as [<-|Hc]; [reflexivity|]). destruct Hc.
  - vm_compute in H400. discriminate H400.
  - vm_compute in Hp. injection Hp as <-.
    vm_compute in Hrun. injection Hrun as <-.
    apply (Hall [Example.cs101_02; Example.ma201_01]). now left.
Defined.

(** C7 does not hold as stated: with CS101 and the unknown XX999 selected
    the handler returns schedules of one section, for two distinct
    selected codes. *)
Lemma cardinality_ignores_unknown_code :
  Backend.handler (Some Example.catalog_data) ["CS101"; "XX999"]%string
                  Example.no_preferences
  = Normal (Backend.Json [[Example.cs101_01]; [Example.cs101_02]])
  /\ List.length [Example.cs101_01]
     <> List.length (nodup string_dec ["CS101"; "XX999"]%string).
Proof.
  split; [vm_compute; reflexivity|]. vm_compute. discriminate.
Qed.

(** ** Selected courses without sections *)

(** The frontend generator returns the empty list when a selected code is
    the base code of no row. *)
Lemma frontend_no_section_no_schedule (rows : list Frontend.Row)
  (selected : list string) (code : string) :
  In code selected ->
  (forall row, In row rows ->
               JS.match_letters_digits (Frontend.Course row) <> Some code) ->
  Frontend.generateSchedules rows selected = Normal [].
Proof.
  intros Hsel Habsent.
  destruct (build_courses_spec rows selected)
    as (courses & Hb & Hkeys & Hlen & Hnd & Hok).
  rewrite (frontend_generateSchedules_spec _ _ Hb). cbv zeta.
  assert (In (code, []) courses) as Hempty.
  { apply Hkeys in Hsel. destruct (in_keys_get _ _ Hsel) as [g Hg].
    apply get_some_in in Hg. destruct g as [|s g]; [exact Hg|].
    destruct (Hok code (s :: g) s Hg (or_introl eq_refl))
      as (_ & row & Hrow & Hm).
    now apply Habsent in Hm. }
  assert (In [] (Dict.values courses)) as Hval.
  { apply (Permutation_in _ (Permutation_sym (values_perm courses))).
    apply (in_map snd) in Hempty. exact Hempty. }
  pose proof (filter_length_lt
                (fun group : list Frontend.Section =>
                   (0 <? List.length group)%nat) _ _ Hval eq_refl) as Hlt.
  pose proof (Permutation_length (values_perm courses)) as Hvl.
  rewrite length_map in Hvl.
  destruct (Nat.eqb_spec
              (List.length
                 (filter (fun group : list Frontend.Section =>
                            (0 <? List.length group)%nat)
                         (Dict.values courses)))
              (List.length selected)) as [E|E]; [lia|reflexivity].
Qed.





(** ** No course at all *)

Lemma add_row_none_selected (sd : Dict.t Frontend.SectionData)
  (row : Frontend.Row) :
  Frontend.add_row [] sd row = sd.
Proof.
  unfold Frontend.add_row.
  now destruct (JS.match_letters_digits (Frontend.Course row)).
Qed.

(** C10: with no course at all the product is the one empty tuple, which
    has no pair to conflict, and the generator returns the list that
    holds the empty schedule, not the empty list; so does the frontend
    generator when no code is selected, whatever the course table. *)
Theorem generateSchedules_empty_courses :
  Backend.product (@nil (list Backend.Section)) = [[]]
  /\ Backend.combinations (@nil Backend.Section) 2 = Normal []
  /\ Backend.hasConflict [] = Normal false
  /\ Backend.generateSchedules Dict.empty = Normal [[]]
  /\ (forall rows, Frontend.generateSchedules rows [] = Normal [[]]).
Proof.
  repeat split; try reflexivity.
  intros rows. unfold Frontend.generateSchedules, Frontend.build_courses.
  cbn [fold_left].
  replace (fold_left (Frontend.add_row []) rows Dict.empty)
    with (@Dict.empty Frontend.SectionData); [reflexivity|].
  generalize (@Dict.empty Frontend.SectionData).
  induction rows as [|row rows IH]; intros sd; simpl; [reflexivity|].
  rewrite add_row_none_selected. apply IH.
Qed.

(** ** Instances *)

(** CS101-02 and MA201-01 make the one schedule of the example catalog
    for these two courses. *)
Lemma generateSchedules_conflict_free_witness :
  Backend.conflictsWith Example.cs101_02 Example.ma201_01 = false.
Proof.
  destruct (proj1 generateSchedules_conflict_free
              [("CS101"%string, [Example.cs101_01; Example.cs101_02]);
               ("MA201"%string, [Example.ma201_01])])
    as (out & Hout & Hfree).
  vm_compute in Hout. injection Hout as <-.
  apply (Hfree [Example.cs101_02; Example.ma201_01]
               (or_introl eq_refl) 0 1); [discriminate|reflexivity|reflexivity].
Defined.

(** Of two schedules, one with a Friday class, the preference against
    Fridays keeps the other. *)
Lemma optimal_selector_contract_witness :
  exists m,
    In m (map (fun s => Backend.scoreSchedule s Example.no_friday)
              [[Example.cs101_01; Example.ma201_friday];
               [Example.cs101_02; Example.ma201_01]])
    /\ (forall s,
           In s [[Example.cs101_01; Example.ma201_friday];
                 [Example.cs101_02; Example.ma201_01]] ->
           (m <= Backend.scoreSchedule s Example.no_friday)%Z)
    /\ Backend.bestSchedules
         [[Example.cs101_01; Example.ma201_friday];
          [Example.cs101_02; Example.ma201_01]] Example.no_friday
       = filter (fun s => (Backend.scoreSchedule s Example.no_friday =? m)%Z)
           [[Example.cs101_01; Example.ma201_friday];
            [Example.cs101_02; Example.ma201_01]].
Proof.
  apply (proj1 (proj2 optimal_selector_contract)). discriminate.
Defined.

(* ================================================================== *)
(** * Further properties of the code *)
(* ================================================================== *)

(** ** The Cartesian product *)

Lemma product_complete {A : Type} (iterables : list (list A)) :
  forall c, Forall2 (fun x group => In x group) c iterables ->
            In c (Backend.product iterables).
Proof.
  induction iterables as [|head tail IH]; intros c H;
    inversion H as [|x g c' gs Hx Hrest]; subst; simpl; [now left|].
  apply in_flat_map. exists x. split; [exact Hx|].
  apply in_map. now apply IH.
Qed.

Lemma product_length {A : Type} (iterables : list (list A)) :
  List.length (Backend.product iterables)
  = fold_right (fun group count => List.length group * count) 1 iterables.
Proof.
  induction iterables as [|head tail IH]; simpl; [reflexivity|].
  rewrite <- IH. generalize (Backend.product tail) as rest. intros rest.
  induction head as [|x head IHh]; simpl; [reflexivity|].
  rewrite length_app, length_map, IHh. reflexivity.
Qed.

(** X1: [product] yields exactly the tuples that take their k-th element
    from the k-th list, and as many tuples as the product of the lengths
    of the lists. *)
Theorem product_enumerates (A : Type) (iterables : list (list A)) :
  (forall c, In c (Backend.product iterables)
             <-> Forall2 (fun x group => In x group) c iterables)
  /\ List.length (Backend.product iterables)
     = fold_right (fun group count => List.length group * count) 1 iterables.
Proof.
  split; [|apply product_length].
  intros c. split; [apply product_in|apply product_complete].
Qed.

Lemma flat_map_flat_map {A B C : Type} (f : B -> list C) (g : A -> list B)
  (l : list A) :
  flat_map f (flat_map g l) = flat_map (fun x => flat_map f (g x)) l.
Proof.
  induction l as [|x l IH]; simpl; [reflexivity|].
  now rewrite flat_map_app, IH.
Qed.

Lemma flat_map_map {A B C : Type} (f : B -> list C) (g : A -> B)
  (l : list A) :
  flat_map f (map g l) = flat_map (fun x => f (g x)) l.
Proof.
  induction l as [|x l IH]; simpl; [reflexivity|]. now rewrite IH.
Qed.

Lemma map_flat_map {A B C : Type} (f : B -> C) (g : A -> list B)
  (l : list A) :
  map f (flat_map g l) = flat_map (fun x => map f (g x)) l.
Proof.
  induction l as [|x l IH]; simpl; [reflexivity|].
  now rewrite map_app, IH.
Qed.

(** The [reduce] of the frontend, started from any list of prefixes. *)
Lemma frontend_product_from {A : Type} (arrays : list (list A)) :
  forall acc,
    fold_left (fun acc array =>
                 flat_map (fun x => map (fun y => x ++ [y]) array) acc)
              arrays acc
    = flat_map (fun x => map (app x) (Backend.product arrays)) acc.
Proof.
  induction arrays as [|array arrays IH]; intros acc; simpl.
  - induction acc as [|x acc IHa]; simpl; [reflexivity|].
    now rewrite app_nil_r, <- IHa.
  - rewrite IH, flat_map_flat_map. apply flat_map_ext. intros x.
    rewrite flat_map_map, map_flat_map. apply flat_map_ext. intros y.
    rewrite map_map. apply map_ext. intros p.
    now rewrite <- app_assoc.
Qed.

Lemma frontend_product_eq (A : Type) (arrays : list (list A)) :
  Frontend.product arrays = Backend.product arrays.
Proof.
  unfold Frontend.product. rewrite frontend_product_from. simpl.
  rewrite app_nil_r. apply map_id.
Qed.

(** X2: the product of the frontend, a [reduce] that extends every prefix
    at its end, yields the same tuples in the same order as the recursive
    generator of the backend. *)
Theorem frontend_product_is_backend_product (A : Type)
  (arrays : list (list A)) :
  Frontend.product arrays = Backend.product arrays.
Proof. apply frontend_product_eq. Qed.

(** ** Which tuples the generator keeps *)

(** X3: the backend generator returns exactly the tuples of one section
    per course of the map in which no section conflicts with a later one:
    no conflict-free choice is lost, and a tuple that is left out has a
    conflicting pair. *)
Theorem generateSchedules_keeps_all_conflict_free
  (courses : Dict.t (list Backend.Section)) :
  exists out,
    Backend.generateSchedules courses = Normal out
    /\ (forall c,
           In c out <->
           Forall2 (fun s group => In s group) c (Dict.values courses)
           /\ forall i j a b,
                i < j -> nth_error c i = Some a -> nth_error c j = Some b ->
                Backend.conflictsWith a b = false)
    /\ (forall c,
           In c (Backend.product (Dict.values courses)) -> ~ In c out ->
           exists i j a b,
             i < j /\ nth_error c i = Some a /\ nth_error c j = Some b
             /\ Backend.conflictsWith a b = true).
Proof.
  eexists. split; [apply backend_generateSchedules_spec|]. split.
  - intros c. rewrite filter_In, negb_true_iff, any_pair_false_iff.
    split; intros [H1 H2]; (split; [|exact H2]).
    + now apply product_in.
    + now apply product_complete.
  - intros c Hc Hout. apply any_pair_true_iff.
    destruct (any_pair Backend.conflictsWith c) eqn:E; [reflexivity|].
    exfalso. apply Hout. apply filter_In. split; [exact Hc|].
    now rewrite E.
Qed.

(** ** The Conflict Detector *)

(** X5: the Conflict Detector is symmetric, a section without timeslots
    conflicts with nothing, and a section conflicts with itself as soon as
    one of its timeslots ends after it starts.  Both implementations. *)
Theorem conflictsWith_symmetric :
  (forall a b, Backend.conflictsWith a b = Backend.conflictsWith b a)
  /\ (forall a b, Backend.timeslots a = [] ->
                  Backend.conflictsWith a b = false
                  /\ Backend.conflictsWith b a = false)
  /\ (forall a t, In t (Backend.timeslots a) ->
                  JS.gt (Backend.ts_end t) (Backend.ts_start t) = true ->
                  Backend.conflictsWith a a = true)
  /\ (forall a b, Frontend.conflictsWith a b = Frontend.conflictsWith b a)
  /\ (forall a b, Frontend.timeslots a = [] ->
                  Frontend.conflictsWith a b = false
                  /\ Frontend.conflictsWith b a = false)
  /\ (forall a t, In t (Frontend.timeslots a) ->
                  JS.gt (Frontend.endTime t) (Frontend.startTime t) = true ->
                  Frontend.conflictsWith a a = true).
Proof.
  split; [exact backend_conflictsWith_sym|]. split; [|split; [|split; [|split]]].
  - intros a b Ha. rewrite (backend_conflictsWith_sym b a).
    unfold Backend.conflictsWith. rewrite Ha. auto.
  - intros a t Ht Hgt. apply backend_conflictsWith_iff. exists t, t.
    repeat split; auto. unfold Backend.overlaps.
    now rewrite String.eqb_refl, Hgt.
  - exact frontend_conflictsWith_sym.
  - intros a b Ha. rewrite (frontend_conflictsWith_sym b a).
    unfold Frontend.conflictsWith. rewrite Ha. auto.
  - intros a t Ht Hgt. apply frontend_conflictsWith_iff. exists t, t.
    repeat split; auto. unfold Frontend.overlaps.
    now rewrite String.eqb_refl, Hgt.
Qed.

(** A section that meets on Monday from 10 to 11 conflicts with itself. *)
Lemma conflictsWith_symmetric_witness :
  Backend.conflictsWith Example.cs_10_11 Example.cs_10_11 = true.
Proof.
  apply (proj1 (proj2 (proj2 conflictsWith_symmetric)) Example.cs_10_11
           (Backend.mkTimeslot "M" "10:00" "11:00" 10 11)).
  - simpl. auto.
  - reflexivity.
Defined.

(** The tuple of CS101-01 and MA201-01 is left out, and has a conflicting
    pair. *)
Lemma generateSchedules_keeps_all_conflict_free_witness :
  exists i j a b,
    i < j /\ nth_error [Example.cs101_01; Example.ma201_01] i = Some a
    /\ nth_error [Example.cs101_01; Example.ma201_01] j = Some b
    /\ Backend.conflictsWith a b = true.
Proof.
  destruct (generateSchedules_keeps_all_conflict_free
              [("CS101"%string, [Example.cs101_01; Example.cs101_02]);
               ("MA201"%string, [Example.ma201_01])])
    as (out & Hout & _ & Hrejected).
  vm_compute in Hout. injection Hout as <-.
  apply Hrejected.
  - simpl. auto.
  - intros [H|[]]. vm_compute in H. discriminate H.
Defined.

(** ** The order of [combinations(pool, 2)] *)

Lemma skipn_cons_nth {A : Type} (pool : list A) :
  forall i, i < List.length pool ->
            exists x, nth_error pool i = Some x
                      /\ skipn i pool = x :: skipn (S i) pool.
Proof.
  induction pool as [|y pool IH]; intros i Hi; simpl in Hi; [lia|].
  destruct i as [|i]; simpl; [eauto|].
  apply IH. lia.
Qed.

Section CombinationsInOrder.
Variable A : Type.
Variable pool : list A.

(** What the loop still yields after the pair of positions [(a, b)]. *)
Let remaining (a b : nat) : list (list (option A)) :=
  map (fun y => [nth_error pool a; Some y]) (skipn (S b) pool)
  ++ pairs_of (skipn (S a) pool).

Lemma loop_two_in_order (fuel : nat) :
  forall a b,
    a < b < Backend.n pool ->
    (Backend.n pool - 2 - a) * Backend.n pool + (Backend.n pool - 1 - b) < fuel ->
    Backend.loop pool 2 fuel [a; b] = Normal (remaining a b).
Proof.
  unfold Backend.n.
  induction fuel as [|fuel IH]; intros a b Hab Hfuel;
    [exfalso; exact (Nat.nlt_0_r _ Hfuel)|].
  cbn [Backend.loop Backend.scan nth]. unfold Backend.n.
  destruct (Z.eqb_spec (Z.of_nat b)
              (Z.of_nat 1 + Z.of_nat (List.length pool) - Z.of_nat 2))
    as [Hb|Hb].
  - assert (skipn (S b) pool = []) as Hend by (apply skipn_all2; lia).
    destruct (Z.eqb_spec (Z.of_nat a)
                (Z.of_nat 0 + Z.of_nat (List.length pool) - Z.of_nat 2))
      as [Ha|Ha].
    + unfold remaining. rewrite Hend.
      replace (S a) with b by lia.
      destruct (@skipn_cons_nth _ pool b) as (x & _ & ->); [lia|].
      rewrite Hend. reflexivity.
    + change (Backend.advance 2 0 [a; b]) with [S a; S (S a)].
      rewrite IH by (try lia; nia). cbn [bind Backend.pick map].
      unfold remaining. rewrite Hend. cbn [map app].
      destruct (@skipn_cons_nth _ pool (S a)) as (x & Hx & ->); [lia|].
      destruct (@skipn_cons_nth _ pool (S (S a))) as (y & Hy & ->); [lia|].
      cbn [pairs_of map app]. now rewrite Hx, Hy.
  - change (Backend.advance 2 1 [a; b]) with [a; S b].
    rewrite IH by lia. cbn [bind Backend.pick map].
    unfold remaining.
    destruct (@skipn_cons_nth _ pool (S b)) as (y & Hy & ->); [lia|].
    cbn [map app]. now rewrite Hy.
Qed.

Lemma combinations_two_in_order :
  Backend.combinations pool 2 = Normal (pairs_of pool).
Proof.
  unfold Backend.combinations, Backend.combinations_fuel.
  destruct (Nat.ltb_spec (Backend.n pool) 2) as [Hn|Hn].
  - unfold Backend.n in Hn. destruct pool as [|x [|y l]]; simpl in *;
      try reflexivity; lia.
  - change (seq 0 2) with [0; 1].
    rewrite loop_two_in_order; [|lia|simpl; nia].
    unfold Backend.n in Hn. destruct pool as [|x [|y l]]; simpl in Hn; try lia.
    reflexivity.
Qed.

Lemma pairs_of_length (l : list A) :
  2 * List.length (pairs_of l) = List.length l * (List.length l - 1).
Proof.
  induction l as [|x l IH]; simpl; [reflexivity|].
  rewrite length_app, length_map, Nat.sub_0_r.
  destruct l as [|y l]; simpl in *; nia.
Qed.
End CombinationsInOrder.

(** X4: [combinations(pool, 2)] ends and yields every unordered pair of
    the pool exactly once, [pool[i], pool[j]] with [i < j], in
    lexicographic order of the positions: [n (n - 1) / 2] pairs.  It
    yields nothing when the pool is shorter than [r], and the one empty
    combination when [r] is 0. *)
Theorem combinations_of_two_in_order (A : Type) (pool : list A) :
  Backend.combinations pool 2 = Normal (pairs_of pool)
  /\ 2 * List.length (pairs_of pool)
     = List.length pool * (List.length pool - 1)
  /\ (forall r, List.length pool < r -> Backend.combinations pool r = Normal [])
  /\ Backend.combinations pool 0 = Normal [[]].
Proof.
  split; [apply combinations_two_in_order|].
  split; [apply pairs_of_length|]. split.
  - intros r Hr. unfold Backend.combinations, Backend.combinations_fuel.
    unfold Backend.n.
    destruct (Nat.ltb_spec (List.length pool) r); [reflexivity|lia].
  - reflexivity.
Qed.

(** A pool of two is shorter than 3. *)
Lemma combinations_of_two_in_order_witness :
  Backend.combinations [Example.cs101_01; Example.ma201_01] 3 = Normal [].
Proof.
  apply (proj1 (proj2 (proj2 (combinations_of_two_in_order
                                [Example.cs101_01; Example.ma201_01])))).
  simpl. lia.
Defined.

(** ** What the catalog builder guarantees *)

Lemma foldM_preserves {A S : Type} (Inv : S -> Prop)
  (f : S -> A -> completion S) (l : list A) :
  (forall s x s', In x l -> Inv s -> f s x = Normal s' -> Inv s') ->
  forall s s', Inv s -> foldM f l s = Normal s' -> Inv s'.
Proof.
  induction l as [|x l IH]; intros Hf s s' Hs; simpl.
  - now intros [= <-].
  - destruct (f s x) as [s1| |] eqn:E; try discriminate. cbn [bind].
    apply IH.
    + intros s0 y s0' Hy. apply Hf. now right.
    + apply (Hf s x s1); auto. now left.
Qed.

Lemma chars_remove_char (c : ascii) (s d : string) :
  In d (JS.chars (JS.remove_char c s)) ->
  exists x, d = String x EmptyString /\ x <> c.
Proof.
  induction s as [|y s IH]; simpl; [tauto|].
  destruct (Ascii.eqb_spec y c) as [->|Hy]; [exact IH|].
  simpl. intros [<-|H]; eauto.
Qed.

Lemma session_timeslots_ok (session : Backend.Session)
  (acc ts : list Backend.Timeslot) :
  Forall slot_ok acc ->
  Backend.session_timeslots acc session = Normal ts ->
  Forall slot_ok ts.
Proof.
  unfold Backend.session_timeslots. apply foldM_preserves.
  intros s day s' Hday Hs.
  destruct (Backend.parseTime (JS.VStr (Backend.start_time session)))
    as [x| |] eqn:Ex; try discriminate.
  destruct (Backend.parseTime (JS.VStr (Backend.end_time session)))
    as [y| |] eqn:Ey; try discriminate.
  cbn [bind]. intros [= <-].
  destruct (JS.truthy_num x && JS.truthy_num y) eqn:Et; [|exact Hs].
  apply andb_true_iff in Et. destruct Et as [Hx Hy].
  apply Forall_app. split; [exact Hs|]. constructor; [|constructor].
  unfold slot_ok. cbn. repeat split; auto.
  now apply chars_remove_char in Hday.
Qed.

(** The invariant of the loop of [processCourseData]. *)
Lemma processCourseData_sections (courseData : Backend.CourseData)
  (catalog : Dict.t (list Backend.Section)) :
  Backend.processCourseData courseData = Normal catalog ->
  forall k group s,
    In (k, group) catalog -> In s group ->
    Backend.course_code s = k
    /\ k = Backend.getBaseCode (Backend.section_id s)
    /\ In (Backend.section_id s) (Dict.keys courseData)
    /\ Backend.timeslots s <> []
    /\ Forall slot_ok (Backend.timeslots s).
Proof.
  unfold Backend.processCourseData.
  apply (@foldM_preserves string (Dict.t (list Backend.Section))
           (fun courses =>
              forall k group s,
                In (k, group) courses -> In s group ->
                Backend.course_code s = k
                /\ k = Backend.getBaseCode (Backend.section_id s)
                /\ In (Backend.section_id s) (Dict.keys courseData)
                /\ Backend.timeslots s <> []
                /\ Forall slot_ok (Backend.timeslots s))).
  2: { intros k g s []. }
  intros courses fullCode courses' Hkey Hok.
  set (baseCode := Backend.getBaseCode fullCode).
  set (courses1 := match Dict.get courses baseCode with
                   | Some _ => courses
                   | None => if inherited_property baseCode then courses
                             else Dict.set courses baseCode []
                   end).
  assert (forall k group s,
             In (k, group) courses1 -> In s group ->
             Backend.course_code s = k
             /\ k = Backend.getBaseCode (Backend.section_id s)
             /\ In (Backend.section_id s) (Dict.keys courseData)
             /\ Backend.timeslots s <> []
             /\ Forall slot_ok (Backend.timeslots s)) as Hok1.
  { subst courses1. destruct (Dict.get courses baseCode); [exact Hok|].
    destruct (inherited_property baseCode); [exact Hok|].
    intros k g s Hin Hs. apply in_set_inv in Hin.
    destruct Hin as [[= -> ->]|Hin]; [destruct Hs|eauto]. }
  clearbody courses1.
  destruct (Dict.get courseData fullCode) as [info|]; [|discriminate].
  destruct (foldM Backend.session_timeslots (Backend.sessions info) [])
    as [ts| |] eqn:Ets; try discriminate.
  cbn [bind].
  assert (Forall slot_ok ts) as Hts.
  { revert Ets. apply foldM_preserves; [|constructor].
    intros s x s' _ Hs Hrun. eapply session_timeslots_ok; eauto. }
  destruct ts as [|t ts]; [now intros [= <-]|].
  destruct (Dict.get courses1 baseCode) as [group|] eqn:Eg; [|discriminate].
  intros [= <-]. intros k g s Hin Hs. apply in_set_inv in Hin.
  destruct Hin as [[= -> ->]|Hin]; [|eauto].
  apply in_app_or in Hs. destruct Hs as [Hs|[<-|[]]].
  - apply (Hok1 baseCode group s); [|exact Hs]. now apply get_some_in.
  - cbn. repeat split; auto. discriminate.
Qed.

(** X6: in the catalog that [processCourseData] builds, a section filed
    under a code carries that code, which is the base code of its section
    identifier, itself a key of the scraped data; it has at least one
    timeslot; and each of its timeslots has truthy start and end numbers,
    the ones the parser makes of its two strings, and a one-character day
    that is not a comma. *)
Theorem processCourseData_invariants (courseData : Backend.CourseData)
  (catalog : Dict.t (list Backend.Section)) (k : string)
  (group : list Backend.Section) (s : Backend.Section) :
  Backend.processCourseData courseData = Normal catalog ->
  Dict.get catalog k = Some group ->
  In s group ->
  Backend.course_code s = k
  /\ k = Backend.getBaseCode (Backend.section_id s)
  /\ In (Backend.section_id s) (Dict.keys courseData)
  /\ Backend.timeslots s <> []
  /\ Forall slot_ok (Backend.timeslots s).
Proof.
  intros Hp Hget Hs.
  apply (@processCourseData_sections courseData catalog Hp k group s); [|exact Hs].
  now apply get_some_in.
Qed.

Lemma processCourseData_invariants_witness :
  Backend.course_code Example.cs101_02 = "CS101"%string
  /\ "CS101"%string = Backend.getBaseCode (Backend.section_id Example.cs101_02)
  /\ In (Backend.section_id Example.cs101_02) (Dict.keys Example.catalog_data)
  /\ Backend.timeslots Example.cs101_02 <> []
  /\ Forall slot_ok (Backend.timeslots Example.cs101_02).
Proof.
  apply (@processCourseData_invariants Example.catalog_data Example.catalog
           "CS101" [Example.cs101_01; Example.cs101_02]).
  - vm_compute. reflexivity.
  - reflexivity.
  - simpl. auto.
Defined.

(** ** The chart of the backend's page *)

Lemma add_nan_r (x : float) : (x + PrimFloat.nan)%float = PrimFloat.nan.
Proof.
  apply Prim2SF_inj. rewrite add_spec.
  change (Prim2SF PrimFloat.nan) with S754_nan.
  now destruct (Prim2SF x).
Qed.

Lemma split_without_separator (c : ascii) (s : string) :
  Legacy.includes c s = false -> JS.split c s = [s].
Proof.
  induction s as [|d s IH]; simpl; [reflexivity|].
  destruct (Ascii.eqb d c); simpl; [discriminate|].
  intros H. now rewrite (IH H).
Qed.

(** On a string that the backend parser turns into a truthy number, the
    parser of the page returns the same number. *)
Lemma parseTimeToFloat_agrees (s : string) (x : float) :
  Backend.parseTime (JS.VStr s) = Normal x ->
  JS.truthy_num x = true ->
  Legacy.parseTimeToFloat s = x.
Proof.
  unfold Backend.parseTime, Legacy.parseTimeToFloat.
  cbn [JS.call_split bind try_catch JS.truthy].
  intros [= <-] Ht.
  destruct (Legacy.includes ":" s) eqn:Hinc.
  - destruct (String.eqb_spec s "") as [->|Hs]; [discriminate Hinc|].
    reflexivity.
  - exfalso. rewrite (split_without_separator _ _ Hinc) in Ht.
    cbn [map nth_error JS.num_or_undefined] in Ht.
    change (PrimFloat.nan / JS.sixty)%float with PrimFloat.nan in Ht.
    rewrite add_nan_r in Ht. discriminate Ht.
Qed.

Lemma fold_left_preserves {A S : Type} (Inv : S -> Prop) (f : S -> A -> S)
  (l : list A) :
  (forall s x, In x l -> Inv s -> Inv (f s x)) ->
  forall s, Inv s -> Inv (fold_left f l s).
Proof.
  induction l as [|x l IH]; intros Hf s Hs; simpl; [exact Hs|].
  apply IH; [|apply Hf; auto; now left].
  intros s' y Hy. apply Hf. now right.
Qed.

Lemma pick_color_not_empty (i : nat) : Legacy.pick_color i <> EmptyString.
Proof.
  unfold Legacy.pick_color.
  pose proof (Nat.mod_upper_bound i (List.length Legacy.colors)) as H.
  cbn [Legacy.colors List.length] in *.
  destruct (i mod 6) as [|[|[|[|[|[|k]]]]]]; cbn; try discriminate.
  lia.
Qed.

(** The invariant of the loops of [plotSchedule], over the sections of a
    schedule whose timeslots come from the catalog builder. *)
Lemma plotSchedule_invariant (schedule : Backend.Schedule) :
  (forall s, In s schedule -> Forall slot_ok (Backend.timeslots s)) ->
  let st := fold_left Legacy.plot_section schedule
                      (Legacy.mkPlotState Dict.empty 0 []) in
  forall d,
    In d (Legacy.datasets st) ->
    Dict.get (Legacy.dayColors st) (Legacy.label d)
    = Some (Legacy.backgroundColor d)
    /\ exists s ts,
         In s schedule /\ In ts (Backend.timeslots s)
         /\ Legacy.label d = Backend.course_code s
         /\ Legacy.x0 d = Backend.ts_start ts
         /\ Legacy.x1 d = Backend.ts_end ts
         /\ Legacy.y d = Backend.ts_day ts.
Proof.
  intros Hok. cbv zeta.
  set (good := fun d : Legacy.Dataset =>
                 exists s ts,
                   In s schedule /\ In ts (Backend.timeslots s)
                   /\ Legacy.label d = Backend.course_code s
                   /\ Legacy.x0 d = Backend.ts_start ts
                   /\ Legacy.x1 d = Backend.ts_end ts
                   /\ Legacy.y d = Backend.ts_day ts).
  set (Inv := fun st : Legacy.plot_state =>
                (forall code c, Dict.get (Legacy.dayColors st) code = Some c ->
                                c <> EmptyString)
                /\ forall d, In d (Legacy.datasets st) ->
                             Dict.get (Legacy.dayColors st) (Legacy.label d)
                             = Some (Legacy.backgroundColor d)
                             /\ good d).
  assert (Inv (fold_left Legacy.plot_section schedule
                         (Legacy.mkPlotState Dict.empty 0 []))) as [_ H];
    [|exact H].
  apply fold_left_preserves.
  2: { split; [intros code c; discriminate|intros d []]. }
  intros st s Hs [Hcol Hds]. unfold Legacy.plot_section.
  set (code := Backend.course_code s).
  set (st1 := if negb (JS.truthy (JS.VStr (Legacy.color_of
                                             (Legacy.dayColors st) code)))
              then _ else st).
  assert (Inv st1 /\ exists c, Dict.get (Legacy.dayColors st1) code = Some c)
    as [[Hcol1 Hds1] [c Hc]].
  { subst st1. unfold Legacy.color_of.
    destruct (Dict.get (Legacy.dayColors st) code) as [c0|] eqn:E.
    - cbn [JS.truthy]. destruct (String.eqb_spec c0 "") as [->|Hne].
      + now apply Hcol in E.
      + cbn [negb]. split; [split; assumption|eauto].
    - cbn [JS.truthy String.eqb negb]. split.
      + split; cbn [Legacy.dayColors Legacy.datasets].
        * intros code' c'.
          destruct (string_dec code code') as [<-|Hne].
          -- rewrite get_set_same. intros [= <-]. apply pick_color_not_empty.
          -- rewrite get_set_other by exact Hne. apply Hcol.
        * intros d Hd. destruct (Hds d Hd) as [Hget Hgood].
          split; [|exact Hgood].
          rewrite get_set_other; [exact Hget|].
          intros Heq. rewrite Heq in E. congruence.
      + cbn [Legacy.dayColors]. rewrite get_set_same. eauto. }
  clearbody st1.
  assert (forall ts, In ts (Backend.timeslots s) -> slot_ok ts) as Hslots
    by (apply Forall_forall, Hok, Hs).
  apply (@fold_left_preserves Backend.Timeslot Legacy.plot_state
           (fun st => Inv st /\ Dict.get (Legacy.dayColors st) code = Some c));
    [|split; [split; assumption|exact Hc]].
  intros st2 ts Hts [[Hcol2 Hds2] Hc2].
  destruct (existsb (String.eqb (Backend.ts_day ts)) Legacy.days);
    [|split; [split; assumption|exact Hc2]].
  split; [|exact Hc2]. split; [exact Hcol2|].
  cbn [Legacy.datasets Legacy.dayColors]. intros d Hd.
  apply in_app_or in Hd. destruct Hd as [Hd|[<-|[]]]; [now apply Hds2|].
  cbn [Legacy.label Legacy.backgroundColor]. unfold Legacy.color_of.
  rewrite Hc2. split; [reflexivity|].
  destruct (Hslots ts Hts) as (Hps & Hpe & Hts1 & Hts2 & _).
  exists s, ts. cbn. repeat split; auto.
  - now apply parseTimeToFloat_agrees.
  - now apply parseTimeToFloat_agrees.
Qed.

(** X7: the chart of the backend's page draws, for a schedule made of
    sections of the catalog, each bar over the very start and end numbers
    that the generator used for a timeslot of a section of the schedule,
    on that timeslot's day and under that section's course code; and two
    bars with the same course code have the same colour. *)
Theorem plotSchedule_bars (schedule : Backend.Schedule) :
  (forall s, In s schedule -> Forall slot_ok (Backend.timeslots s)) ->
  (forall d,
      In d (Legacy.plotSchedule schedule) ->
      exists s ts,
        In s schedule /\ In ts (Backend.timeslots s)
        /\ Legacy.label d = Backend.course_code s
        /\ Legacy.x0 d = Backend.ts_start ts
        /\ Legacy.x1 d = Backend.ts_end ts
        /\ Legacy.y d = Backend.ts_day ts)
  /\ (forall d d',
         In d (Legacy.plotSchedule schedule) ->
         In d' (Legacy.plotSchedule schedule) ->
         Legacy.label d = Legacy.label d' ->
         Legacy.backgroundColor d = Legacy.backgroundColor d').
Proof.
  intros Hok. pose proof (plotSchedule_invariant schedule Hok) as H.
  cbv zeta in H. unfold Legacy.plotSchedule. split.
  - intros d Hd. now apply H.
  - intros d d' Hd Hd' Hlabel.
    destruct (H d Hd) as [H1 _]. destruct (H d' Hd') as [H2 _].
    rewrite Hlabel in H1. congruence.
Qed.

Lemma plotSchedule_bars_witness :
  exists d rest,
    Legacy.plotSchedule [Example.cs101_01; Example.ma201_01] = d :: rest
    /\ exists s ts,
         In s [Example.cs101_01; Example.ma201_01]
         /\ In ts (Backend.timeslots s)
         /\ Legacy.label d = Backend.course_code s
         /\ Legacy.x0 d = Backend.ts_start ts
         /\ Legacy.x1 d = Backend.ts_end ts
         /\ Legacy.y d = Backend.ts_day ts.
Proof.
  destruct (plotSchedule_bars [Example.cs101_01; Example.ma201_01])
    as [Hbars _].
  - intros s [<-|[<-|[]]];
      repeat (constructor;
              [unfold slot_ok; cbn;
               repeat split; try reflexivity;
               eexists; split; [reflexivity|discriminate]|]);
      constructor.
  - eexists. eexists. split; [vm_compute; reflexivity|].
    apply Hbars. vm_compute. left. reflexivity.
Defined.

(** ** The base code of a section identifier *)

(** An identifier that starts with letters and then a digit is matched:
    the match is the letters and all the digits that follow them. *)
Lemma match_letters_digits_complete (letters digits rest : string) :
  letters <> EmptyString -> digits <> EmptyString ->
  string_forall JS.is_letter letters = true ->
  string_forall JS.is_digit digits = true ->
  stops_at JS.is_digit rest = true ->
  JS.match_letters_digits (letters ++ digits ++ rest)
  = Some (letters ++ digits)%string.
Proof.
  intros Hl Hd Hal Had Hr. unfold JS.match_letters_digits.
  rewrite span_app; [|exact Hal|].
  - rewrite span_app by assumption.
    destruct letters; [congruence|]. destruct digits; [congruence|].
    reflexivity.
  - destruct digits as [|d digits]; [congruence|]. simpl in *.
    apply andb_true_iff in Had. destruct Had as [Hd' _].
    now rewrite (digit_not_letter _ Hd').
Qed.

(** An identifier whose leading letters, if any, are not followed by a
    digit is not matched. *)
Lemma match_letters_digits_none (letters rest : string) :
  string_forall JS.is_letter letters = true ->
  stops_at JS.is_letter rest = true ->
  letters = EmptyString \/ stops_at JS.is_digit rest = true ->
  JS.match_letters_digits (letters ++ rest) = None.
Proof.
  intros Hal Hr Hno. unfold JS.match_letters_digits.
  rewrite span_app by assumption.
  destruct Hno as [->|Hd]; [now destruct (JS.span JS.is_digit rest)|].
  replace (JS.span JS.is_digit rest) with (EmptyString, rest).
  - now destruct letters.
  - destruct rest as [|c rest]; [reflexivity|]. simpl in *.
    apply negb_true_iff in Hd. now rewrite Hd.
Qed.

(** X8: the base code of a section identifier is a prefix of it, and is
    its own base code.  When the identifier starts with letters followed
    by a digit, the base code is those letters and all the digits that
    follow them; otherwise (no leading letter, or the leading letters
    followed by something else than a digit, or by nothing) it is the
    whole identifier.  The letters are A-Z and a-z, the digits 0-9. *)
Theorem getBaseCode_prefix (fullCode : string) :
  (exists rest, fullCode = (Backend.getBaseCode fullCode ++ rest)%string)
  /\ Backend.getBaseCode (Backend.getBaseCode fullCode)
     = Backend.getBaseCode fullCode
  /\ (JS.match_letters_digits fullCode = None ->
      Backend.getBaseCode fullCode = fullCode)
  /\ (forall m,
         JS.match_letters_digits fullCode = Some m ->
         Backend.getBaseCode fullCode = m
         /\ exists letters digits rest,
              m = (letters ++ digits)%string
              /\ fullCode = (m ++ rest)%string
              /\ letters <> EmptyString /\ digits <> EmptyString
              /\ string_forall JS.is_letter letters = true
              /\ string_forall JS.is_digit digits = true
              /\ stops_at JS.is_digit rest = true)
  /\ (forall letters digits rest,
         fullCode = (letters ++ digits ++ rest)%string ->
         letters <> EmptyString -> digits <> EmptyString ->
         string_forall JS.is_letter letters = true ->
         string_forall JS.is_digit digits = true ->
         stops_at JS.is_digit rest = true ->
         Backend.getBaseCode fullCode = (letters ++ digits)%string)
  /\ (forall letters rest,
         fullCode = (letters ++ rest)%string ->
         string_forall JS.is_letter letters = true ->
         stops_at JS.is_letter rest = true ->
         letters = EmptyString \/ stops_at JS.is_digit rest = true ->
         Backend.getBaseCode fullCode = fullCode)
  /\ (forall c, JS.is_letter c = true
                <-> (65 <= nat_of_ascii c <= 90
                     \/ 97 <= nat_of_ascii c <= 122))
  /\ (forall c, JS.is_digit c = true <-> 48 <= nat_of_ascii c <= 57).
Proof.
  assert ((exists rest, fullCode = (Backend.getBaseCode fullCode ++ rest)%string)
          /\ Backend.getBaseCode (Backend.getBaseCode fullCode)
             = Backend.getBaseCode fullCode
          /\ (JS.match_letters_digits fullCode = None ->
              Backend.getBaseCode fullCode = fullCode)
          /\ (forall m,
                 JS.match_letters_digits fullCode = Some m ->
                 Backend.getBaseCode fullCode = m
                 /\ exists letters digits rest,
                      m = (letters ++ digits)%string
                      /\ fullCode = (m ++ rest)%string
                      /\ letters <> EmptyString /\ digits <> EmptyString
                      /\ string_forall JS.is_letter letters = true
                      /\ string_forall JS.is_digit digits = true
                      /\ stops_at JS.is_digit rest = true)) as H.
  { unfold Backend.getBaseCode.
    destruct (JS.match_letters_digits fullCode) as [m|] eqn:E.
    - pose proof (match_letters_digits_spec _ E) as Hspec.
      split; [|split; [|split]].
      + destruct Hspec as (l & d & rest & _ & -> & _). eauto.
      + now rewrite (match_letters_digits_fixed _ E).
      + discriminate.
      + intros m' [= <-]. auto.
    - split; [|split; [|split]].
      + exists EmptyString. now rewrite string_app_nil_r.
      + now rewrite E.
      + reflexivity.
      + discriminate. }
  destruct H as (H1 & H2 & H3 & H4).
  split; [exact H1|]. split; [exact H2|]. split; [exact H3|].
  split; [exact H4|]. split; [|split; [|split]].
  - intros letters digits rest -> Hl Hd Hal Had Hr.
    unfold Backend.getBaseCode.
    now rewrite match_letters_digits_complete.
  - intros letters rest -> Hal Hr Hno.
    unfold Backend.getBaseCode.
    now rewrite match_letters_digits_none.
  - intros c. unfold JS.is_letter, JS.code.
    rewrite orb_true_iff, !andb_true_iff, !Nat.leb_le. tauto.
  - intros c. unfold JS.is_digit, JS.code.
    rewrite andb_true_iff, !Nat.leb_le. tauto.
Qed.

(** ["CS101-02"] starts with the letters CS and the digits 101, which a
    hyphen follows: its base code is ["CS101"]. *)
Lemma getBaseCode_prefix_witness :
  Backend.getBaseCode "CS101-02" = "CS101"%string.
Proof.
  apply (proj1 (proj2 (proj2 (proj2 (proj2
           (getBaseCode_prefix "CS101-02")))))
           "CS"%string "101"%string "-02"%string);
    try reflexivity; discriminate.
Defined.

(** ** The 24-hour form *)

Lemma on_every_clock24_spec (ok : bool -> nat -> nat -> bool) :
  on_every_clock24 ok = true ->
  forall pad h m, h <= 23 -> m <= 59 -> ok pad h m = true.
Proof.
  unfold on_every_clock24. intros H pad h m Hh Hm.
  rewrite forallb_forall in H.
  assert (In pad [false; true]) as Hpad by (destruct pad; simpl; auto).
  specialize (H pad Hpad). rewrite forallb_forall in H.
  assert (In h (seq 0 24)) as Hh' by (apply in_seq; lia).
  specialize (H h Hh'). rewrite forallb_forall in H.
  apply H. apply in_seq. lia.
Qed.

Lemma check_clock24_holds : on_every_clock24 clock24_ok = true.
Proof. vm_compute. reflexivity. Qed.

Lemma check_cutoff_holds : on_every_clock24 cutoff_ok = true.
Proof. vm_compute. reflexivity. Qed.

(** What the parsers make of a 24-hour string. *)
Lemma clock24_parsed (pad : bool) (h m : nat) :
  h <= 23 -> m <= 59 ->
  let s := clock24 pad h m in
  Backend.parseTime (JS.VStr s) = Normal (hours_of h m)
  /\ Frontend.parseTime (JS.VStr s) = Normal (hours_of h m)
  /\ Legacy.parseTimeToFloat s = hours_of h m
  /\ Backend.before_cutoff
       (Legacy.getPreferences s s false false false false false)
     = hours_of h m
  /\ Backend.after_cutoff
       (Legacy.getPreferences s s false false false false false)
     = hours_of h m
  /\ (JS.truthy_num (hours_of h m) = false <-> h = 0 /\ m = 0).
Proof.
  intros Hh Hm s.
  pose proof (on_every_clock24_spec clock24_ok check_clock24_holds
                pad Hh Hm) as H.
  unfold clock24_ok in H. fold s in H.
  apply andb_true_iff in H; destruct H as [H H0].
  rewrite !andb_true_iff in H.
  destruct H as [[[[H1 H2] H3] H4] H5].
  split; [now apply returns_spec|].
  split; [now apply returns_spec|].
  split; [now apply FloatAxioms.Leibniz.eqb_spec|].
  split; [now apply FloatAxioms.Leibniz.eqb_spec|].
  split; [now apply FloatAxioms.Leibniz.eqb_spec|].
  apply Bool.eqb_prop in H0. rewrite H0. rewrite negb_false_iff.
  rewrite andb_true_iff, !Nat.eqb_eq. reflexivity.
Qed.

(** X10: on every well-formed 24-hour string ["H:MM"] or ["HH:MM"] the
    backend parser, the frontend parser, the parser of the backend's page
    and both cutoffs of [getPreferences] return the same number,
    [h + m / 60]; that number is truthy except at midnight, so that the
    catalog builder of the backend discards a timeslot that starts or ends
    at ["00:00"]. *)
Theorem parsers_agree_on_24_hour (pad : bool) (h m : nat) :
  h <= 23 -> m <= 59 ->
  let s := clock24 pad h m in
  Backend.parseTime (JS.VStr s) = Normal (hours_of h m)
  /\ Frontend.parseTime (JS.VStr s) = Normal (hours_of h m)
  /\ Legacy.parseTimeToFloat s = hours_of h m
  /\ Backend.before_cutoff
       (Legacy.getPreferences s s false false false false false)
     = hours_of h m
  /\ Backend.after_cutoff
       (Legacy.getPreferences s s false false false false false)
     = hours_of h m
  /\ (JS.truthy_num (hours_of h m) = false <-> h = 0 /\ m = 0).
Proof. apply clock24_parsed. Qed.

(** ["10:30"] is 10.5 for all of them. *)
Lemma parsers_agree_on_24_hour_witness :
  Backend.parseTime (JS.VStr "10:30") = Normal 10.5%float
  /\ Frontend.parseTime (JS.VStr "10:30") = Normal 10.5%float
  /\ Legacy.parseTimeToFloat "10:30" = 10.5%float
  /\ Backend.before_cutoff
       (Legacy.getPreferences "10:30" "10:30" false false false false false)
     = 10.5%float
  /\ Backend.after_cutoff
       (Legacy.getPreferences "10:30" "10:30" false false false false false)
     = 10.5%float
  /\ (JS.truthy_num 10.5 = false <-> 10 = 0 /\ 30 = 0).
Proof.
  apply (@parsers_agree_on_24_hour true 10 30); lia.
Defined.

(** X11: the frontend scorer reads its two cutoffs by appending [" AM"]
    and [" PM"] to the 24-hour value of the time inputs.  The morning
    cutoff of ["HH:MM"] is then [h + m / 60], except that hour 12 counts
    as hour 0; the evening cutoff is [h + m / 60] from noon on, and 12
    hours more for a time before noon. *)
Theorem frontend_cutoffs (pad : bool) (h m : nat) :
  h <= 23 -> m <= 59 ->
  Frontend.parseTime (JS.VStr (clock24 pad h m ++ " AM"))
  = Normal (hours_of (if (h =? 12)%nat then 0 else h) m)
  /\ Frontend.parseTime (JS.VStr (clock24 pad h m ++ " PM"))
     = Normal (hours_of (if (h <? 12)%nat then h + 12 else h) m).
Proof.
  intros Hh Hm.
  pose proof (on_every_clock24_spec cutoff_ok check_cutoff_holds
                pad Hh Hm) as H.
  unfold cutoff_ok in H. apply andb_true_iff in H.
  destruct H as [H1 H2]. split; now apply returns_spec.
Qed.

(** A morning cutoff of ["12:30"] is half an hour, an evening cutoff of
    ["09:00"] is 21 hours. *)
Lemma frontend_cutoffs_witness :
  (Frontend.parseTime (JS.VStr "12:30 AM") = Normal 0.5%float
   /\ Frontend.parseTime (JS.VStr "12:30 PM") = Normal 12.5%float)
  /\ (Frontend.parseTime (JS.VStr "09:00 AM") = Normal 9%float
      /\ Frontend.parseTime (JS.VStr "09:00 PM") = Normal 21%float).
Proof.
  split.
  - apply (@frontend_cutoffs true 12 30); lia.
  - apply (@frontend_cutoffs true 9 0); lia.
Defined.

Lemma fold_left_push_map {A B : Type} (f : A -> B) (l : list A) (acc : list B) :
  fold_left (fun ts x => ts ++ [f x]) l acc = acc ++ map f l.
Proof.
  revert acc. induction l as [|x l IH]; intros acc; simpl.
  - now rewrite app_nil_r.
  - rewrite IH, <- app_assoc. reflexivity.
Qed.

Lemma fold_left_keep {A B : Type} (l : list A) (acc : B) :
  fold_left (fun ts _ => ts) l acc = acc.
Proof. induction l; simpl; auto. Qed.

(** X12: a session of the backend's catalog whose times are well-formed
    24-hour strings gives one timeslot per character of its day string
    (commas removed), each with the parsed hours, unless it starts or ends
    at midnight: the parsed 0 is falsy and the session gives no timeslot at
    all. *)
Theorem midnight_sessions_are_dropped
  (days : string) (pad pad' : bool) (h m h' m' : nat)
  (timeslots : list Backend.Timeslot) :
  h <= 23 -> m <= 59 -> h' <= 23 -> m' <= 59 ->
  let start := clock24 pad h m in
  let stop := clock24 pad' h' m' in
  Backend.session_timeslots timeslots (Backend.mkSession days start stop)
  = Normal
      (if ((h =? 0) && (m =? 0) || (h' =? 0) && (m' =? 0))%nat
       then timeslots
       else timeslots ++
              map (fun day => Backend.mkTimeslot day start stop
                                (hours_of h m) (hours_of h' m'))
                  (JS.chars (JS.remove_char "," days))).
Proof.
  intros Hh Hm Hh' Hm' start stop.
  destruct (clock24_parsed pad Hh Hm) as (Hs & _ & _ & _ & _ & Hts).
  destruct (clock24_parsed pad' Hh' Hm') as (He & _ & _ & _ & _ & Hte).
  fold start in Hs. fold stop in He.
  unfold Backend.session_timeslots. cbn [Backend.start_time Backend.end_time Backend.days].
  rewrite Hs, He. cbn [bind].
  rewrite (@foldM_pure _ _ _
             (fun ts day =>
                if JS.truthy_num (hours_of h m) && JS.truthy_num (hours_of h' m')
                then ts ++ [Backend.mkTimeslot day start stop
                              (hours_of h m) (hours_of h' m')]
                else ts)) by reflexivity.
  f_equal.
  destruct (JS.truthy_num (hours_of h m)) eqn:E1.
  - assert (((h =? 0) && (m =? 0))%nat = false) as ->.
    { apply not_true_is_false. intros H. apply andb_true_iff in H.
      rewrite !Nat.eqb_eq in H. apply Hts in H. congruence. }
    destruct (JS.truthy_num (hours_of h' m')) eqn:E2; cbn [andb orb].
    + assert (((h' =? 0) && (m' =? 0))%nat = false) as ->.
      { apply not_true_is_false. intros H. apply andb_true_iff in H.
        rewrite !Nat.eqb_eq in H. apply Hte in H. congruence. }
      apply fold_left_push_map.
    + destruct (proj1 Hte eq_refl) as [-> ->]. cbn.
      apply fold_left_keep.
  - destruct (proj1 Hts eq_refl) as [-> ->]. cbn.
    apply fold_left_keep.
Qed.

(** A Monday-Wednesday session from 9:00 to 10:30 gives two timeslots; from
    0:00 to 1:00 it gives none. *)
Lemma midnight_sessions_are_dropped_witness :
  Backend.session_timeslots [] (Backend.mkSession "M,W" "09:00" "10:30")
  = Normal [Backend.mkTimeslot "M" "09:00" "10:30" 9 10.5;
            Backend.mkTimeslot "W" "09:00" "10:30" 9 10.5]
  /\ Backend.session_timeslots [] (Backend.mkSession "M,W" "00:00" "01:00")
     = Normal [].
Proof.
  split.
  - apply (@midnight_sessions_are_dropped "M,W" true true 9 0 10 30 []); lia.
  - apply (@midnight_sessions_are_dropped "M,W" true true 0 0 1 0 []); lia.
Defined.

(** ** The order of a frontend schedule *)

Lemma letter_not_decimal (c : ascii) (s : string) (acc : Z) :
  JS.is_letter c = true -> JS.radix_val 10 acc (String c s) = None.
Proof.
  intros Hc. cbn [JS.radix_val].
  destruct c as [[] [] [] [] [] [] [] []]; try discriminate Hc; reflexivity.
Qed.

(** A base code found by the pattern starts with a letter and is no array
    index. *)
Lemma base_code_not_index (s m : string) :
  JS.match_letters_digits s = Some m -> Dict.is_index m = false.
Proof.
  intros H. destruct (match_letters_digits_spec _ H)
    as (letters & digits & rest & -> & _ & Hl & _ & Hal & _).
  destruct letters as [|c letters]; [congruence|].
  simpl in Hal. apply andb_true_iff in Hal. destruct Hal as [Hc _].
  unfold Dict.is_index. cbn [append].
  rewrite (@letter_not_decimal c (letters ++ digits)%string 0 Hc).
  destruct c as [[] [] [] [] [] [] [] []]; try discriminate Hc; reflexivity.
Qed.

(** Without array-index keys the enumeration order is the creation
    order. *)
Lemma entries_no_index {V : Type} (d : Dict.t V) :
  (forall e, In e d -> Dict.is_index (fst e) = false) -> Dict.entries d = d.
Proof.
  intros H. unfold Dict.entries.
  assert (filter (fun e : string * V => Dict.is_index (fst e)) d = []) as ->.
  { induction d as [|e d IH]; [reflexivity|]. simpl.
    rewrite (H e (or_introl eq_refl)). apply IH.
    intros e' He'. apply H. now right. }
  simpl. induction d as [|e d IH]; [reflexivity|]. simpl.
  rewrite (H e (or_introl eq_refl)). simpl. f_equal. apply IH.
  intros e' He'. apply H. now right.
Qed.

(** Distinct selected codes are entered in the order selected. *)
Lemma initial_courses_order (selected : list string) :
  forall d : Dict.t (list Frontend.Section),
    NoDup selected ->
    (forall c, In c selected -> ~ In c (map fst d)) ->
    map fst (fold_left (fun courses code => Dict.set courses code [])
                       selected d)
    = map fst d ++ selected.
Proof.
  induction selected as [|code selected IH]; intros d Hnd Hnew; simpl.
  - now rewrite app_nil_r.
  - inversion Hnd as [|? ? Hcode Hnd']; subst.
    assert (~ In code (map fst d)) as Hc by (apply Hnew; now left).
    rewrite IH; [| exact Hnd' |].
    + rewrite (@set_new_keys _ d code [] Hc), map_app, <- app_assoc.
      reflexivity.
    + intros c Hsel. rewrite (@set_new_keys _ d code [] Hc), map_app, in_app_iff.
      simpl. intros [H|[<-|[]]]; [|contradiction].
      revert H. apply Hnew. now right.
Qed.

(** Filing the sections leaves the keys of the map as they are. *)
Lemma add_sections_keys (sd : Dict.t Frontend.SectionData)
  (keys : list string) :
  forall courses courses' : Dict.t (list Frontend.Section),
    foldM (Frontend.add_section sd) keys courses = Normal courses' ->
    map fst courses' = map fst courses.
Proof.
  induction keys as [|k keys IH]; intros courses courses'; simpl.
  - intros [= <-]. reflexivity.
  - unfold Frontend.add_section at 1.
    destruct (Dict.get sd k) as [data|]; [|discriminate].
    destruct (mapM _ (Frontend.timeslotsRaw data)) as [ts| |];
      [|discriminate|discriminate].
    cbn [bind].
    destruct (Dict.get courses (Frontend.data_courseCode data))
      as [group|] eqn:Hg; [|discriminate].
    cbn [bind]. intros Hrun. rewrite (IH _ _ Hrun).
    apply set_existing_keys. apply get_some_in in Hg.
    apply (in_map fst) in Hg. exact Hg.
Qed.

Lemma filter_all_length {A : Type} (p : A -> bool) (l : list A) :
  List.length (filter p l) = List.length l -> filter p l = l.
Proof.
  induction l as [|x l IH]; simpl; [reflexivity|].
  destruct (p x) eqn:E; simpl.
  - intros H. f_equal. apply IH. lia.
  - intros H. pose proof (filter_length_le p l). lia.
Qed.

Lemma filter_all_true {A : Type} (p : A -> bool) (l : list A) :
  filter p l = l -> forall x, In x l -> p x = true.
Proof.
  intros H x Hx. rewrite <- H in Hx. apply filter_In in Hx. tauto.
Qed.

(** X13: the frontend generator returns, and every schedule it returns
    lists one section per selected course code, in the order in which the
    codes were selected; so it returns no schedule at all when a code is
    selected twice.  Each section of a schedule is a row of the course
    table whose base code is the selected code. *)
Theorem frontend_schedules_follow_selection (rows : list Frontend.Row)
  (selected : list string) :
  exists schedules,
    Frontend.generateSchedules rows selected = Normal schedules
    /\ forall schedule,
         In schedule schedules ->
         map Frontend.courseCode schedule = selected
         /\ NoDup selected
         /\ forall s, In s schedule ->
                      exists row,
                        In row rows
                        /\ JS.match_letters_digits (Frontend.Course row)
                           = Some (Frontend.courseCode s).
Proof.
  destruct (build_courses_spec rows selected)
    as (courses & Hb & Hkeys & Hlen & Hnd & Hok).
  rewrite (frontend_generateSchedules_spec _ _ Hb). cbv zeta.
  eexists. split; [reflexivity|].
  intros schedule Hin.
  destruct (Nat.eqb_spec
              (List.length
                 (filter (fun group : list Frontend.Section =>
                            (0 <? List.length group)%nat)
                         (Dict.values courses)))
              (List.length selected)) as [Hall|Hne];
    cbn [negb] in Hin; [|destruct Hin].
  apply filter_In in Hin. destruct Hin as [Hin _].
  assert (List.length (Dict.values courses) = List.length courses) as Hvl.
  { rewrite (Permutation_length (values_perm courses)). apply length_map. }
  pose proof (filter_length_le
                (fun group : list Frontend.Section =>
                   (0 <? List.length group)%nat) (Dict.values courses)) as Hfl.
  assert (List.length courses = List.length selected) as Hsame by lia.
  rewrite filter_all_length in Hin by lia.
  assert (forall e, In e courses -> snd e <> []) as Hfull.
  { intros [k g] He. simpl.
    assert (In g (Dict.values courses)) as Hg.
    { apply (Permutation_in _ (Permutation_sym (values_perm courses))).
      apply (in_map snd) in He. exact He. }
    apply (filter_all_true
             (fun group : list Frontend.Section =>
                (0 <? List.length group)%nat)) in Hg.
    - destruct g; [discriminate Hg|discriminate].
    - apply filter_all_length. lia. }
  assert (NoDup selected) as Hsel.
  { apply NoDup_incl_NoDup with (l := map fst courses); [exact Hnd| |].
    - rewrite length_map. lia.
    - intros c Hc. now apply Hkeys. }
  assert (Dict.entries courses = courses) as Hent.
  { apply entries_no_index. intros [k g] He.
    destruct g as [|s g]; [now apply Hfull in He|].
    destruct (Hok k (s :: g) s He (or_introl eq_refl))
      as (_ & row & _ & Hm).
    simpl. apply (base_code_not_index _ Hm). }
  assert (map fst courses = selected) as Horder.
  { unfold Frontend.build_courses in Hb.
    rewrite (add_sections_keys _ _ _ Hb).
    rewrite initial_courses_order; [reflexivity|exact Hsel|].
    intros c _ []. }
  rewrite frontend_product_eq in Hin.
  apply product_in in Hin. unfold Dict.values in Hin. rewrite Hent in Hin.
  split; [|split; [exact Hsel|]].
  - rewrite <- Horder.
    apply (@Forall2_codes _ _ Frontend.courseCode fst snd schedule courses Hin).
    intros [k g] s He Hs. apply (Hok k g s He Hs).
  - intros s Hs.
    assert (exists g, In g (map snd courses) /\ In s g) as (g & Hg & Hsg).
    { clear - Hin Hs. revert Hin Hs. generalize (map snd courses).
      intros gs H. induction H as [|x g c gs' Hx _ IH]; [intros []|].
      intros [<-|Hs]; [exists g; split; [now left|exact Hx]|].
      destruct (IH Hs) as (g' & Hg' & Hsg'). exists g'. split; [now right|auto]. }
    apply in_map_iff in Hg. destruct Hg as ([k g'] & <- & He). simpl in Hsg.
    destruct (Hok k g' s He Hsg) as (-> & row & Hrow & Hm). eauto.
Qed.

(** With MA201 selected before CS101 the schedule found lists its MA201
    section first, although the table lists CS101 first. *)
Lemma frontend_schedules_follow_selection_witness :
  exists schedule rest,
    Frontend.generateSchedules course_table ["MA201"; "CS101"]%string
    = Normal (schedule :: rest)
    /\ map Frontend.courseCode schedule = ["MA201"; "CS101"]%string.
Proof.
  destruct (frontend_schedules_follow_selection course_table
              ["MA201"; "CS101"]%string) as (schedules & Hrun & Hall).
  vm_compute in Hrun. injection Hrun as <-.
  eexists. eexists. split; [vm_compute; reflexivity|].
  apply Hall. now left.
Defined.

(** ** The selection of the best schedules *)

Lemma backend_bestSchedules_filter (all : list Backend.Schedule)
  (prefs : Backend.Preferences) :
  all <> [] ->
  exists m,
    In m (map (fun s => Backend.scoreSchedule s prefs) all)
    /\ (forall s, In s all -> (m <= Backend.scoreSchedule s prefs)%Z)
    /\ Backend.bestSchedules all prefs
       = filter (fun s => (Backend.scoreSchedule s prefs =? m)%Z) all.
Proof.
  intros Hne. unfold Backend.bestSchedules.
  destruct all as [|s0 rest]; [congruence|].
  cbn [map]. set (score := fun s => Backend.scoreSchedule s prefs).
  destruct (Math_min_spec (map score rest) (score s0)) as [Hin Hle].
  exists (Math_min (score s0) (map score rest)).
  split; [exact Hin|]. split.
  - intros s Hs. apply Hle. apply (in_map score) in Hs. exact Hs.
  - apply (filter_by_score_spec score (s0 :: rest)).
Qed.

Lemma frontend_bestSchedules_filter (all : list Frontend.Schedule)
  (prefs : Frontend.Prefs) :
  all <> [] ->
  exists m,
    In m (map (frontend_score prefs) all)
    /\ (forall s, In s all -> (m <= frontend_score prefs s)%Z)
    /\ Frontend.bestSchedules all prefs
       = Normal (filter (fun s => (frontend_score prefs s =? m)%Z) all).
Proof.
  intros Hne. unfold Frontend.bestSchedules.
  destruct all as [|s0 rest]; [congruence|].
  set (all := s0 :: rest) in *.
  rewrite mapM_pure with (g := fun s => (s, frontend_score prefs s)).
  2: { intros s. now rewrite frontend_scoreSchedule_total. }
  cbn [bind].
  destruct (@sort_head_min Frontend.Schedule
              (map (fun s => (s, frontend_score prefs s)) all))
    as (first & tl & Hsort & Hin & Hmin); [discriminate|].
  change (JS.sort Frontend.by_score ?l)
    with (JS.sort (fun a b : Frontend.Schedule * Z =>
                     (snd a - snd b <? 0)%Z) l).
  pose proof (@filter_sort_least Frontend.Schedule (snd first)
                (map (fun s => (s, frontend_score prefs s)) all) Hmin)
    as Hfilter.
  rewrite Hsort in Hfilter |- *. exists (snd first).
  apply in_map_iff in Hin. destruct Hin as (sf & <- & Hsf). cbn [snd] in *.
  split; [now apply in_map|]. split.
  - intros s Hs. apply (Hmin (s, frontend_score prefs s)).
    apply in_map_iff. eauto.
  - f_equal. rewrite Hfilter. apply filter_scored.
Qed.

Section LeastScore.
Variable A : Type.
Variable score : A -> Z.

(** A score that some element has selects that element. *)
Lemma filter_attained (l : list A) (m : Z) :
  In m (map score l) -> filter (fun s => (score s =? m)%Z) l <> [].
Proof.
  intros H. apply in_map_iff in H. destruct H as (s & <- & Hs).
  intros E.
  assert (In s (filter (fun s' => (score s' =? score s)%Z) l)) as Hin
    by (apply filter_In; split; [exact Hs|apply Z.eqb_refl]).
  rewrite E in Hin. destruct Hin.
Qed.

(** Selecting again, by a score attained among the selected, changes
    nothing. *)
Lemma filter_again (l : list A) (m m' : Z) :
  In m' (map score (filter (fun s => (score s =? m)%Z) l)) ->
  filter (fun s => (score s =? m')%Z) (filter (fun s => (score s =? m)%Z) l)
  = filter (fun s => (score s =? m)%Z) l.
Proof.
  intros H. apply in_map_iff in H. destruct H as (s & <- & Hs).
  apply filter_In in Hs. destruct Hs as [_ Hs]. apply Z.eqb_eq in Hs.
  rewrite Hs. induction l as [|x l IH]; simpl; [reflexivity|].
  destruct (score x =? m)%Z eqn:E; simpl; [|exact IH].
  now rewrite E, IH.
Qed.

Lemma filter_all_zero (l : list A) (m : Z) :
  (forall s, score s = 0%Z) -> In m (map score l) ->
  filter (fun s => (score s =? m)%Z) l = l.
Proof.
  intros Hz H. apply in_map_iff in H. destruct H as (s & <- & _).
  induction l as [|x l IH]; simpl; [reflexivity|].
  rewrite !Hz. simpl. f_equal. rewrite !Hz in IH. exact IH.
Qed.

End LeastScore.

(** X14: both selectors keep at least one schedule of a list that has
    one, select nothing more when they are run again on their own result,
    and return the whole list, in its order, when no preference is
    switched on (every schedule then scores 0). *)
Theorem selector_keeps_a_best_schedule :
  (forall all prefs, Backend.bestSchedules all prefs = [] <-> all = [])
  /\ (forall all prefs,
         Backend.bestSchedules (Backend.bestSchedules all prefs) prefs
         = Backend.bestSchedules all prefs)
  /\ (forall all before after,
         Backend.bestSchedules
           all (Backend.mkPreferences false before false after
                                      false false false)
         = all)
  /\ (forall all prefs,
         Frontend.bestSchedules all prefs = Normal [] <-> all = [])
  /\ (forall all prefs,
         (best <- Frontend.bestSchedules all prefs ;;
          Frontend.bestSchedules best prefs)
         = Frontend.bestSchedules all prefs)
  /\ (forall all before after,
         Frontend.bestSchedules
           all (Frontend.mkPrefs false before false after false false false)
         = Normal all).
Proof.
  split; [|split; [|split; [|split; [|split]]]].
  - intros all prefs. split; [|intros ->; reflexivity].
    intros H. destruct all as [|s0 rest]; [reflexivity|]. exfalso.
    destruct (@backend_bestSchedules_filter (s0 :: rest) prefs)
      as (m & Hin & _ & E); [discriminate|].
    rewrite E in H. revert H.
    apply (filter_attained (fun s => Backend.scoreSchedule s prefs)), Hin.
  - intros all prefs. destruct all as [|s0 rest]; [reflexivity|].
    destruct (@backend_bestSchedules_filter (s0 :: rest) prefs)
      as (m & Hin & _ & E); [discriminate|].
    rewrite E.
    destruct (@backend_bestSchedules_filter
                (filter (fun s => (Backend.scoreSchedule s prefs =? m)%Z)
                        (s0 :: rest)) prefs) as (m' & Hin' & _ & E').
    { apply (filter_attained (fun s => Backend.scoreSchedule s prefs)), Hin. }
    rewrite E'.
    apply (filter_again (fun s => Backend.scoreSchedule s prefs)), Hin'.
  - intros all before after. destruct all as [|s0 rest]; [reflexivity|].
    destruct (@backend_bestSchedules_filter (s0 :: rest)
                (Backend.mkPreferences false before false after
                                       false false false))
      as (m & Hin & _ & E); [discriminate|].
    rewrite E. apply (filter_all_zero _ _ m); [reflexivity|exact Hin].
  - intros all prefs. split; [|intros ->; reflexivity].
    intros H. destruct all as [|s0 rest]; [reflexivity|]. exfalso.
    destruct (@frontend_bestSchedules_filter (s0 :: rest) prefs)
      as (m & Hin & _ & E); [discriminate|].
    rewrite E in H.
    pose proof (filter_attained (frontend_score prefs) _ _ Hin) as Hne.
    congruence.
  - intros all prefs. destruct all as [|s0 rest]; [reflexivity|].
    destruct (@frontend_bestSchedules_filter (s0 :: rest) prefs)
      as (m & Hin & _ & E); [discriminate|].
    rewrite E. cbn [bind].
    destruct (@frontend_bestSchedules_filter
                (filter (fun s => (frontend_score prefs s =? m)%Z)
                        (s0 :: rest)) prefs) as (m' & Hin' & _ & E').
    { apply (filter_attained (frontend_score prefs)), Hin. }
    rewrite E'. f_equal.
    apply (filter_again (frontend_score prefs)), Hin'.
  - intros all before after. destruct all as [|s0 rest]; [reflexivity|].
    destruct (@frontend_bestSchedules_filter (s0 :: rest)
                (Frontend.mkPrefs false before false after false false false))
      as (m & Hin & _ & E); [discriminate|].
    rewrite E. f_equal.
    apply (filter_all_zero _ _ m); [reflexivity|exact Hin].
Qed.

(** ** The two implementations side by side *)

Lemma existsb_map {A B : Type} (f : A -> B) (p : B -> bool) (l : list A) :
  existsb p (map f l) = existsb (fun x => p (f x)) l.
Proof. induction l as [|x l IH]; simpl; [reflexivity|now rewrite IH]. Qed.

Lemma filter_map_length {A B : Type} (f : A -> B) (p : B -> bool)
  (l : list A) :
  List.length (filter p (map f l))
  = List.length (filter (fun x => p (f x)) l).
Proof.
  induction l as [|x l IH]; simpl; [reflexivity|].
  destruct (p (f x)); simpl; now rewrite IH.
Qed.

Lemma as_frontend_conflictsWith (a b : Backend.Section) :
  Frontend.conflictsWith (as_frontend a) (as_frontend b)
  = Backend.conflictsWith a b.
Proof.
  unfold Frontend.conflictsWith, Backend.conflictsWith, as_frontend.
  cbn [Frontend.timeslots]. rewrite existsb_map.
  induction (Backend.timeslots a) as [|t1 l IH]; simpl; [reflexivity|].
  rewrite IH. f_equal. now rewrite existsb_map.
Qed.

Lemma any_pair_map {A B : Type} (f : A -> B) (conf : A -> A -> bool)
  (conf' : B -> B -> bool) (c : list A) :
  (forall a b, conf' (f a) (f b) = conf a b) ->
  any_pair conf' (map f c) = any_pair conf c.
Proof.
  intros H. induction c as [|a c IH]; simpl; [reflexivity|].
  rewrite existsb_map, IH. f_equal.
  clear IH. induction c as [|b c IH]; simpl; [reflexivity|].
  now rewrite H, IH.
Qed.

Lemma as_frontend_timeslots (schedule : Backend.Schedule) :
  Frontend.all_timeslots (map as_frontend schedule)
  = map as_frontend_timeslot (flat_map Backend.timeslots schedule).
Proof.
  unfold Frontend.all_timeslots.
  induction schedule as [|s schedule IH]; simpl; [reflexivity|].
  now rewrite IH, map_app.
Qed.

Lemma fold_left_map {A B S : Type} (f : S -> B -> S) (g : A -> B)
  (l : list A) :
  forall s, fold_left f (map g l) s = fold_left (fun s x => f s (g x)) l s.
Proof. induction l as [|x l IH]; intros s; simpl; [reflexivity|apply IH]. Qed.

Lemma as_frontend_group_by_day (schedule : Backend.Schedule) :
  Frontend.group_by_day (map as_frontend schedule)
  = Backend.group_by_day schedule.
Proof.
  unfold Frontend.group_by_day, Backend.group_by_day.
  rewrite as_frontend_timeslots, fold_left_map.
  symmetry.
  apply (fold_left_flat_map
           (fun daily ts => Backend.push_daily daily (Backend.ts_day ts)
                              (Backend.ts_start ts, Backend.ts_end ts))
           Backend.timeslots schedule).
Qed.

Lemma as_frontend_countBackToBack (schedule : Backend.Schedule) :
  Frontend.countBackToBack (map as_frontend schedule)
  = Backend.countBackToBack schedule.
Proof.
  unfold Frontend.countBackToBack, Backend.countBackToBack.
  rewrite as_frontend_group_by_day.
  generalize (Backend.group_by_day schedule) as daily. intros daily.
  generalize (Dict.keys daily) as days. intros days.
  cut (forall count,
          fold_left
            (fun b2bCount day =>
               match Dict.get daily day with
               | Some slots =>
                   Frontend.count_adjacent (JS.sort Frontend.by_start slots)
                                           b2bCount
               | None => b2bCount
               end) days count
          = fold_left
              (fun backToBackCount day =>
                 match Dict.get daily day with
                 | Some slots =>
                     if (List.length slots <? 2)%nat then backToBackCount
                     else Backend.count_adjacent
                            (JS.sort Backend.by_start slots) backToBackCount
                 | None => backToBackCount
                 end) days count); [intros H; apply H|].
  induction days as [|d days IH]; intros count; simpl; [reflexivity|].
  rewrite IH. f_equal.
  destruct (Dict.get daily d) as [slots|]; [|reflexivity].
  change (Frontend.count_adjacent (JS.sort Frontend.by_start slots) count)
    with (Backend.count_adjacent (JS.sort Backend.by_start slots) count).
  destruct (Nat.ltb_spec (List.length slots) 2) as [Hshort|_];
    [|reflexivity].
  rewrite count_adjacent_spec, close_pairs_short; [lia|].
  now rewrite sort_length.
Qed.

(** X15: the two implementations of the engine compute the same thing.  On
    the backend's sections read as frontend sections, the conflict test,
    the search for a conflicting pair and the five counts of the scorer
    give the same results, and the frontend score is the backend score for
    the cutoffs that the frontend parses from its two time inputs. *)
Theorem frontend_agrees_with_backend :
  (forall a b,
      Frontend.conflictsWith (as_frontend a) (as_frontend b)
      = Backend.conflictsWith a b)
  /\ (forall c,
         Backend.hasConflict c
         = Normal (Frontend.hasConflict (map as_frontend c)))
  /\ (forall schedule cutoff,
         Frontend.countMorningClasses (map as_frontend schedule) cutoff
         = Backend.countMorningClasses schedule cutoff
         /\ Frontend.countEveningClasses (map as_frontend schedule) cutoff
            = Backend.countEveningClasses schedule cutoff)
  /\ (forall schedule,
         Frontend.countFridayClasses (map as_frontend schedule)
         = Backend.countFridayClasses schedule
         /\ Frontend.countDaysUsed (map as_frontend schedule)
            = Backend.countDaysUsed schedule
         /\ Frontend.countBackToBack (map as_frontend schedule)
            = Backend.countBackToBack schedule)
  /\ (forall schedule prefs,
         exists before after,
           Frontend.parseTime (JS.VStr (Frontend.beforeTime prefs ++ " AM"))
           = Normal before
           /\ Frontend.parseTime (JS.VStr (Frontend.afterTime prefs ++ " PM"))
              = Normal after
           /\ Frontend.scoreSchedule (map as_frontend schedule) prefs
              = Normal
                  (Backend.scoreSchedule schedule
                     (Backend.mkPreferences
                        (Frontend.noBefore prefs) before
                        (Frontend.noAfter prefs) after
                        (Frontend.avoidFriday prefs)
                        (Frontend.avoidB2B prefs)
                        (Frontend.minimizeDays prefs)))).
Proof.
  assert (forall schedule cutoff,
             Frontend.countMorningClasses (map as_frontend schedule) cutoff
             = Backend.countMorningClasses schedule cutoff
             /\ Frontend.countEveningClasses (map as_frontend schedule) cutoff
                = Backend.countEveningClasses schedule cutoff) as Hcut.
  { intros schedule cutoff.
    unfold Frontend.countMorningClasses, Frontend.countEveningClasses,
      Backend.countMorningClasses, Backend.countEveningClasses.
    rewrite !count_by_section, as_frontend_timeslots, !filter_map_length.
    auto. }
  assert (forall schedule,
             Frontend.countFridayClasses (map as_frontend schedule)
             = Backend.countFridayClasses schedule
             /\ Frontend.countDaysUsed (map as_frontend schedule)
                = Backend.countDaysUsed schedule
             /\ Frontend.countBackToBack (map as_frontend schedule)
                = Backend.countBackToBack schedule) as Hcount.
  { intros schedule. split; [|split].
    - unfold Frontend.countFridayClasses, Backend.countFridayClasses.
      rewrite count_by_section, as_frontend_timeslots, filter_map_length.
      reflexivity.
    - unfold Frontend.countDaysUsed.
      rewrite backend_countDaysUsed_spec, set_size_distinct,
        as_frontend_timeslots, map_map. reflexivity.
    - apply as_frontend_countBackToBack. }
  split; [exact as_frontend_conflictsWith|].
  split; [|split; [exact Hcut|split; [exact Hcount|]]].
  - intros c. rewrite backend_hasConflict_spec, frontend_hasConflict_spec.
    f_equal. symmetry. apply any_pair_map, as_frontend_conflictsWith.
  - intros schedule prefs.
    destruct (frontend_parseTime_total
                (JS.VStr (Frontend.beforeTime prefs ++ " AM"))) as [bc Hbc].
    destruct (frontend_parseTime_total
                (JS.VStr (Frontend.afterTime prefs ++ " PM"))) as [ac Hac].
    exists bc, ac. split; [exact Hbc|]. split; [exact Hac|].
    unfold Frontend.scoreSchedule, Backend.scoreSchedule.
    rewrite Hbc, Hac.
    cbn [Backend.no_before Backend.before_cutoff Backend.no_after
         Backend.after_cutoff Backend.avoid_friday Backend.avoid_back_to_back
         Backend.minimize_days].
    destruct (Hcut schedule bc) as [Hm _].
    destruct (Hcut schedule ac) as [_ He].
    destruct (Hcount schedule) as (Hf & Hd & Hb).
    destruct (Frontend.noBefore prefs), (Frontend.noAfter prefs),
      (Frontend.avoidFriday prefs), (Frontend.avoidB2B prefs),
      (Frontend.minimizeDays prefs); cbn [bind];
      rewrite ?Hm, ?He, ?Hf, ?Hd, ?Hb; reflexivity.
Qed.

(** ** The courses offered and the courses of the catalog *)

(** A loop each of whose steps adds one key, [key x], to the keys of its
    accumulator: the keys at the end. *)
Lemma foldM_keys {A S : Type} (keys : S -> list string) (key : A -> string)
  (f : S -> A -> completion S) (l : list A) :
  forall s s',
    foldM f l s = Normal s' ->
    (forall s x s', In x l -> f s x = Normal s' ->
                    forall k, In k (keys s') <-> In k (keys s) \/ k = key x) ->
    forall k, In k (keys s')
              <-> In k (keys s) \/ exists x, In x l /\ key x = k.
Proof.
  induction l as [|x l IH]; intros s s'; simpl.
  - intros [= <-] _ k. split; [tauto|]. intros [H|(x & [] & _)]. exact H.
  - destruct (f s x) as [s1| |] eqn:E; try discriminate. cbn [bind].
    intros Hrun Hf k.
    rewrite (IH s1 s' Hrun (fun s0 y s0' Hy => Hf s0 y s0' (or_intror Hy)) k).
    rewrite (Hf s x s1 (or_introl eq_refl) E k). split.
    + intros [[H| ->]|(y & Hy & <-)]; eauto.
    + intros [H|(y & [<-|Hy] & <-)]; eauto.
Qed.

Lemma uniqueCourses_keys (data : Backend.CourseData) (u : Dict.t string) :
  (forall k, In k (Dict.keys data) -> inherited_property k = false) ->
  Server.uniqueCourses data = Normal u ->
  forall k, In k (map fst u)
            <-> exists fullCode, In fullCode (Dict.keys data)
                                 /\ Backend.getBaseCode fullCode = k.
Proof.
  intros Hown H k. unfold Server.uniqueCourses in H.
  rewrite (foldM_keys (fun d : Dict.t string => map fst d)
             Backend.getBaseCode _ _ _ H).
  - simpl. tauto.
  - intros s x s' Hx. destruct (Dict.get data x); [|discriminate].
    cbv zeta. rewrite (getBaseCode_own _ (Hown x Hx)).
    intros [= <-] k'.
    destruct (Dict.get s (Backend.getBaseCode x)) as [name|] eqn:E.
    + cbn [JS.truthy]. destruct (negb _); [|apply set_keys_in].
      split; [tauto|]. intros [Hk| ->]; [exact Hk|].
      apply get_some_in in E. apply (in_map fst) in E. exact E.
    + apply set_keys_in.
Qed.

Lemma processCourseData_keys (data : Backend.CourseData)
  (catalog : Dict.t (list Backend.Section)) :
  (forall k, In k (Dict.keys data) -> inherited_property k = false) ->
  Backend.processCourseData data = Normal catalog ->
  forall k, In k (map fst catalog)
            <-> exists fullCode, In fullCode (Dict.keys data)
                                 /\ Backend.getBaseCode fullCode = k.
Proof.
  intros Hown H k. unfold Backend.processCourseData in H.
  rewrite (foldM_keys (fun d : Dict.t (list Backend.Section) => map fst d)
             Backend.getBaseCode _ _ _ H).
  - simpl. tauto.
  - intros s x s' Hx. cbv zeta.
    rewrite (getBaseCode_own _ (Hown x Hx)).
    set (baseCode := Backend.getBaseCode x).
    set (s1 := match Dict.get s baseCode with
               | Some _ => s
               | None => Dict.set s baseCode []
               end).
    assert (forall k', In k' (map fst s1) <-> In k' (map fst s) \/ k' = baseCode)
      as Hs1.
    { intros k'. subst s1. destruct (Dict.get s baseCode) eqn:E.
      - split; [tauto|]. intros [Hk| ->]; [exact Hk|].
        apply get_some_in in E. apply (in_map fst) in E. exact E.
      - apply set_keys_in. }
    clearbody s1.
    destruct (Dict.get data x); [|discriminate].
    destruct (foldM Backend.session_timeslots _ []) as [ts| |];
      try discriminate.
    cbn [bind]. destruct ts as [|t ts].
    + intros [= <-]. exact Hs1.
    + destruct (Dict.get s1 baseCode); [|discriminate].
      intros [= <-] k'. rewrite set_keys_in, Hs1. tauto.
Qed.

Lemma uniqueCourses_total (data : Backend.CourseData) :
  exists u, Server.uniqueCourses data = Normal u.
Proof.
  unfold Server.uniqueCourses.
  destruct (@foldM_invariant string (Dict.t string) (fun _ => True))
    with (l := Dict.keys data) (s := @Dict.empty string)
         (f := fun (uniqueCourses : Dict.t string) fullCode =>
                 let baseCode := Backend.getBaseCode fullCode in
                 match Dict.get data fullCode with
                 | None => Throw TypeError
                 | Some courseInfo =>
                     let recorded :=
                       match Dict.get uniqueCourses baseCode with
                       | Some name => JS.truthy (JS.VStr name)
                       | None => inherited_property baseCode
                       end in
                     Normal (if recorded then uniqueCourses
                             else Dict.set uniqueCourses baseCode
                                    (Backend.course_name courseInfo))
                 end)
    as (u & Hu & _); [|exact I|eauto].
  intros s x Hx _. apply (proj1 (in_keys_iff _ _)) in Hx.
  destruct (in_keys_get _ _ Hx) as [info ->]. cbv zeta. eauto.
Qed.

(** X9: the course codes that [/api/courses] offers are exactly the course
    codes of the catalog that [/api/generate-schedules] builds from the
    same data: the base codes of the scraped section identifiers.  So a
    selection that holds an offered code is never answered with status
    400.  The section identifiers and the selected codes are taken not to
    name a property that every object inherits, such as ["constructor"]:
    on such a name the lookups of the two handlers find the inherited
    member. *)
Theorem offered_courses_are_catalog_courses (data : Backend.CourseData) :
  (forall k, In k (Dict.keys data) -> inherited_property k = false) ->
  exists offered catalog,
    Server.courses_handler (Some data) = Normal (Server.CoursesJson offered)
    /\ Backend.processCourseData data = Normal catalog
    /\ (forall code,
           In code (Dict.keys offered)
           <-> exists fullCode, In fullCode (Dict.keys data)
                                /\ Backend.getBaseCode fullCode = code)
    /\ (forall code, In code (Dict.keys offered) <-> In code (Dict.keys catalog))
    /\ (forall selected prefs code,
           (forall c, In c selected -> inherited_property c = false) ->
           In code (Dict.keys offered) -> In code selected ->
           exists schedules,
             Backend.handler (Some data) selected prefs
             = Normal (Backend.Json schedules)).
Proof.
  intros Hown.
  destruct (uniqueCourses_total data) as [u Hu].
  destruct (processCourseData_spec data Hown) as (catalog & Hp & _).
  exists u, catalog. unfold Server.courses_handler. rewrite Hu. cbn [bind].
  split; [reflexivity|]. split; [exact Hp|].
  assert (forall code,
             In code (Dict.keys u)
             <-> exists fullCode, In fullCode (Dict.keys data)
                                  /\ Backend.getBaseCode fullCode = code)
    as Hoffered.
  { intros code. rewrite in_keys_iff. now apply uniqueCourses_keys. }
  assert (forall code, In code (Dict.keys u) <-> In code (Dict.keys catalog))
    as Hsame.
  { intros code. rewrite Hoffered, in_keys_iff.
    symmetry. now apply processCourseData_keys. }
  split; [exact Hoffered|]. split; [exact Hsame|].
  intros selected prefs code Hnames Hcode Hsel.
  rewrite (@handler_run data catalog selected prefs Hp Hnames). cbv zeta.
  destruct (coursesToSchedule_spec catalog selected) as (_ & Hin & _).
  cbv zeta in Hin.
  assert (In code (Dict.keys (Backend.coursesToSchedule catalog selected)))
    as Hkey.
  { apply in_keys_iff, Hin. split; [exact Hsel|].
    apply (proj1 (Hsame code)) in Hcode.
    apply (proj1 (in_keys_iff _ _)) in Hcode.
    intros Hnone. apply get_none_iff in Hnone. contradiction. }
  destruct (Dict.keys (Backend.coursesToSchedule catalog selected));
    [destruct Hkey|].
  cbn [List.length Nat.eqb]. eauto.
Qed.

(** PH150, which has no section with a time, is offered, and selecting it
    is answered with a list, not with status 400. *)
Lemma offered_courses_are_catalog_courses_witness :
  exists schedules,
    Backend.handler (Some Example.catalog_data) ["PH150"]%string
                    Example.no_preferences
    = Normal (Backend.Json schedules).
Proof.
  destruct (offered_courses_are_catalog_courses Example.catalog_data)
    as (offered & catalog & Ho & _ & _ & _ & Hsel).
  - intros k Hk. vm_compute in Hk.
    repeat (destruct Hk as [<-|Hk]; [reflexivity|]). destruct Hk.
  - vm_compute in Ho. injection Ho as <-.
    apply (Hsel ["PH150"%string] Example.no_preferences "PH150"%string).
    + intros c [<-|[]]. reflexivity.
    + vm_compute. auto.
    + simpl. auto.
Defined.

(** ** No section of the table is lost *)

(** A row of a selected course leaves its identifier among the keys of
    [sectionsData], and no key is ever removed. *)
Lemma add_row_keeps (selected : list string) (row : Frontend.Row)
  (sd : Dict.t Frontend.SectionData) :
  (forall k, In k (map fst sd) ->
             In k (map fst (Frontend.add_row selected sd row)))
  /\ (forall code,
         JS.match_letters_digits (Frontend.Course row) = Some code ->
         In code selected ->
         In (Frontend.Course row)
            (map fst (Frontend.add_row selected sd row))).
Proof.
  unfold Frontend.add_row.
  destruct (JS.match_letters_digits (Frontend.Course row)) as [code|] eqn:Em.
  2: { split; [auto|discriminate]. }
  cbn [Frontend.includes].
  destruct (existsb (String.eqb code) selected) eqn:Ein.
  2: { split; [auto|]. intros c [= <-] Hc. exfalso.
       assert (existsb (String.eqb code) selected = true) as E
         by (apply existsb_exists; exists code; split;
             [exact Hc|apply String.eqb_refl]).
       congruence. }
  set (id := Frontend.Course row).
  set (sd1 := match Dict.get sd id with
              | Some _ => sd
              | None => Dict.set sd id (Frontend.mkSectionData code [])
              end).
  assert (forall k, In k (map fst sd1) <-> In k (map fst sd) \/ k = id) as H1.
  { intros k. subst sd1. destruct (Dict.get sd id) eqn:E.
    - split; [tauto|]. intros [H| ->]; [exact H|].
      apply get_some_in in E. apply (in_map fst) in E. exact E.
    - apply set_keys_in. }
  clearbody sd1.
  assert (forall sd2 : Dict.t Frontend.SectionData,
             map fst
               (fold_left
                  (fun sectionsData day =>
                     match Dict.get sectionsData id with
                     | Some data =>
                         Dict.set sectionsData id
                           (Frontend.mkSectionData
                              (Frontend.data_courseCode data)
                              (Frontend.timeslotsRaw data ++
                                 [Frontend.mkRawSlot (JS.charAt0_upper day)
                                    (Frontend.Start_Time row)
                                    (Frontend.End_Time row)]))
                     | None => sectionsData
                     end) (Frontend.row_days row) sd2)
             = map fst sd2) as Hfold.
  { induction (Frontend.row_days row) as [|day days IH]; intros sd2;
      simpl; [reflexivity|].
    rewrite IH. destruct (Dict.get sd2 id) eqn:E; [|reflexivity].
    apply set_existing_keys. apply get_some_in in E.
    apply (in_map fst) in E. exact E. }
  rewrite Hfold. split.
  - intros k Hk. apply H1. now left.
  - intros c _ _. apply H1. now right.
Qed.

Lemma add_rows_keep (selected : list string) (rows : list Frontend.Row) :
  forall (sd : Dict.t Frontend.SectionData) row code,
    In row rows ->
    JS.match_letters_digits (Frontend.Course row) = Some code ->
    In code selected ->
    In (Frontend.Course row)
       (map fst (fold_left (Frontend.add_row selected) rows sd)).
Proof.
  induction rows as [|r rows IH]; intros sd row code; simpl; [tauto|].
  intros [->|Hin] Hm Hsel.
  - apply (@fold_left_preserves Frontend.Row (Dict.t Frontend.SectionData)
             (fun d => In (Frontend.Course row) (map fst d))).
    + intros s x _. apply (proj1 (add_row_keeps selected x s)).
    + apply (proj2 (add_row_keeps selected row sd) code Hm Hsel).
  - apply (IH _ row code Hin Hm Hsel).
Qed.

(** Every key of [sectionsData] becomes a section of the group of its
    course, and a section once filed stays. *)
Lemma add_sections_complete (sd : Dict.t Frontend.SectionData)
  (keys : list string) :
  forall courses courses' : Dict.t (list Frontend.Section),
    foldM (Frontend.add_section sd) keys courses = Normal courses' ->
    (forall k g s, Dict.get courses k = Some g -> In s g ->
                   exists g', Dict.get courses' k = Some g' /\ In s g')
    /\ (forall k, In k keys ->
                  exists data g' s,
                    Dict.get sd k = Some data
                    /\ Dict.get courses' (Frontend.data_courseCode data)
                       = Some g'
                    /\ In s g' /\ Frontend.sectionId s = k).
Proof.
  induction keys as [|k keys IH]; intros courses courses'; simpl.
  - intros [= <-]. split; [eauto|tauto].
  - unfold Frontend.add_section at 1.
    destruct (Dict.get sd k) as [data|] eqn:Hdata; [|discriminate].
    destruct (mapM _ (Frontend.timeslotsRaw data)) as [ts| |];
      [|discriminate|discriminate].
    cbn [bind].
    destruct (Dict.get courses (Frontend.data_courseCode data))
      as [group|] eqn:Hg; [|discriminate].
    cbn [bind]. intros Hrun.
    destruct (IH _ _ Hrun) as [Hstay Hnew].
    set (section := Frontend.mkSection (Frontend.data_courseCode data) k ts)
      in *.
    split.
    + intros k0 g s Hk0 Hs.
      destruct (string_dec (Frontend.data_courseCode data) k0) as [E|E].
      * subst k0. rewrite Hg in Hk0. injection Hk0 as <-.
        apply (Hstay (Frontend.data_courseCode data) (group ++ [section]) s).
        -- apply get_set_same.
        -- apply in_or_app. now left.
      * apply (Hstay k0 g s); [|exact Hs].
        rewrite get_set_other by exact E. exact Hk0.
    + intros k0 [<-|Hk0]; [|now apply Hnew].
      destruct (Hstay (Frontend.data_courseCode data) (group ++ [section])
                  section) as (g' & Hg' & Hs').
      * apply get_set_same.
      * apply in_or_app. right. now left.
      * exists data, g', section. auto.
Qed.

(** The sections of a course that is the one selected course. *)
Lemma product_single {A : Type} (group : list A) :
  Backend.product [group] = map (fun s => [s]) group.
Proof.
  simpl. induction group as [|s group IH]; simpl; [reflexivity|].
  now rewrite IH.
Qed.

(** The schedules of one selected course. *)
Lemma generateSchedules_single_course (rows : list Frontend.Row) (row : Frontend.Row)
  (code : string) :
  In row rows ->
  JS.match_letters_digits (Frontend.Course row) = Some code ->
  exists group,
    Frontend.generateSchedules rows [code]
    = Normal (map (fun s => [s]) group)
    /\ (exists s, In s group /\ Frontend.sectionId s = Frontend.Course row)
    /\ (forall s, In s group -> Frontend.courseCode s = code).
Proof.
  intros Hrow Hm.
  destruct (build_courses_spec rows [code])
    as (courses & Hb & Hkeys & Hlen & Hnd & Hok).
  assert (map fst courses = [code]) as Horder.
  { pose proof Hb as Hb'. unfold Frontend.build_courses in Hb'.
    rewrite (add_sections_keys _ _ _ Hb'). reflexivity. }
  destruct courses as [|[k group] [|e courses]]; try discriminate Horder.
  injection Horder as ->.
  pose proof Hb as Hb'. unfold Frontend.build_courses in Hb'.
  destruct (add_sections_complete _ _ _ Hb') as [_ Hnew].
  destruct (Hnew (Frontend.Course row)) as (data & g' & s & Hdata & Hg' & Hs & Hid).
  { apply in_keys_iff.
    apply (@add_rows_keep [code] rows Dict.empty row code Hrow Hm).
    now left. }
  assert (g' = group) as ->.
  { apply get_some_in in Hg'. destruct Hg' as [[= _ ->]|[]]. reflexivity. }
  exists group.
  rewrite (frontend_generateSchedules_spec _ _ Hb). cbv zeta.
  assert (Dict.entries [(code, group)] = [(code, group)]) as Hent.
  { apply entries_no_index. intros e [<-|[]]. simpl.
    apply (base_code_not_index _ Hm). }
  unfold Dict.values. rewrite Hent. cbn [map snd filter].
  destruct group as [|s0 group]; [destruct Hs|].
  cbn [List.length Nat.ltb Nat.leb filter Nat.eqb negb].
  rewrite frontend_product_eq, product_single.
  split; [|split].
  - f_equal. generalize (s0 :: group). intros l.
    induction l as [|x l IH]; simpl; [reflexivity|]. now rewrite IH.
  - eauto.
  - intros s' Hs'. apply (Hok code (s0 :: group) s'); [now left|exact Hs'].
Qed.

(** X16: no section of the course table is lost.  With one course code
    selected, the frontend generator returns one schedule for each section
    of that course, the schedule of that section alone; and every row of
    the table whose identifier has that base code is among them, so that
    the result is not empty once the table has such a row. *)
Theorem single_course_sections (rows : list Frontend.Row) (row : Frontend.Row)
  (code : string) :
  In row rows ->
  JS.match_letters_digits (Frontend.Course row) = Some code ->
  exists group,
    Frontend.generateSchedules rows [code]
    = Normal (map (fun s => [s]) group)
    /\ (exists s, In s group /\ Frontend.sectionId s = Frontend.Course row)
    /\ (forall s, In s group -> Frontend.courseCode s = code).
Proof. apply generateSchedules_single_course. Qed.

(** CS101 alone gives the two schedules of its two sections. *)
Lemma single_course_sections_witness :
  exists group,
    Frontend.generateSchedules course_table ["CS101"%string]
    = Normal (map (fun s => [s]) group)
    /\ (exists s, In s group /\ Frontend.sectionId s = "CS101-02"%string)
    /\ (forall s, In s group -> Frontend.courseCode s = "CS101"%string).
Proof.
  apply (@single_course_sections course_table
           (Frontend.mkRow "CS101-02" "T,R" "10:00 AM" "11:00 AM") "CS101").
  - simpl. auto.
  - reflexivity.
Defined.

(** ** The options of the course selector *)

Lemma find_snoc {A : Type} (p : A -> bool) (l : list A) (x : A) :
  find p (l ++ [x])
  = match find p l with
    | Some y => Some y
    | None => if p x then Some x else None
    end.
Proof.
  induction l as [|y l IH]; simpl; [reflexivity|].
  destruct (p y); [reflexivity|exact IH].
Qed.

Lemma label_truthy (code name : string) :
  JS.truthy
    (JS.VStr (code ++ " " ++ Dashboard.em_dash ++ " " ++ name)%string)
  = true.
Proof. destruct code; reflexivity. Qed.

(** What the loop of [courseOptions] has recorded after the courses of a
    list: under each base code that is not empty and names no inherited
    property, the label made from the first course with that base code. *)
Lemma add_options_spec (allCourses : list Dashboard.Course) :
  let unique := fold_left Dashboard.add_option allCourses Dict.empty in
  NoDup (map fst unique)
  /\ forall v l,
       In (v, l) unique
       <-> v <> EmptyString /\ inherited_property v = false
           /\ exists c,
                find (fun c => String.eqb (Dashboard.baseCode c) v) allCourses
                = Some c
                /\ l = (v ++ " " ++ Dashboard.em_dash ++ " "
                          ++ Dashboard.Course_Name c)%string.
Proof.
  cbv zeta. induction allCourses as [|c l IH] using rev_ind.
  - simpl. split; [constructor|]. intros v lab. split; [intros []|].
    intros (_ & _ & c & Hc & _). discriminate Hc.
  - rewrite fold_left_app. cbn [fold_left].
    destruct IH as [Hnd IH].
    set (d := fold_left Dashboard.add_option l Dict.empty) in *.
    unfold Dashboard.add_option. set (b := Dashboard.baseCode c).
    change (JS.truthy (JS.VStr b)) with (negb (String.eqb b "")).
    destruct (Dict.get d b) as [lab0|] eqn:Hget.
    + (* the base code is listed already *)
      pose proof (get_some_in _ _ Hget) as Hin0.
      destruct (proj1 (IH b lab0) Hin0) as (Hb1 & Hb2 & c0 & Hc0 & ->).
      rewrite label_truthy. rewrite andb_false_r.
      split; [exact Hnd|]. intros v lab. rewrite IH, find_snoc.
      destruct (find (fun c1 => String.eqb (Dashboard.baseCode c1) v) l)
        as [c1|] eqn:Hf; [reflexivity|].
      fold b. destruct (String.eqb_spec b v) as [E|E].
      * subst v. congruence.
      * reflexivity.
    + destruct (negb (String.eqb b "") && negb (inherited_property b))
        eqn:Hadd.
      * (* a new base code *)
        apply andb_true_iff in Hadd. destruct Hadd as [Hne Hown].
        apply negb_true_iff in Hne, Hown.
        apply String.eqb_neq in Hne.
        assert (~ In b (map fst d)) as Hnew by (now apply get_none_iff).
        rewrite (@set_new_keys _ d b _ Hnew).
        split.
        { rewrite map_app. simpl.
          apply NoDup_app_remove_l with (l := []). simpl.
          apply Permutation_NoDup with (l := b :: map fst d);
            [apply Permutation_cons_append|].
          constructor; assumption. }
        intros v lab. rewrite in_app_iff, IH, find_snoc. fold b.
        destruct (find (fun c1 => String.eqb (Dashboard.baseCode c1) v) l)
          as [c1|] eqn:Hf.
        -- split; [|tauto]. intros [H|[[= <- <-]|[]]]; [exact H|].
           exfalso. apply Hnew.
           assert (In (b, (b ++ " " ++ Dashboard.em_dash ++ " "
                             ++ Dashboard.Course_Name c1)%string) d) as Hin
             by (apply IH; eauto).
           apply (in_map fst) in Hin. exact Hin.
        -- destruct (String.eqb_spec b v) as [E|E].
           ++ subst v. split.
              ** intros [(_ & _ & c1 & Hc1 & _)|[[= <-]|[]]];
                   [discriminate Hc1|]. eauto.
              ** intros (_ & _ & c1 & [= <-] & ->). right. now left.
           ++ split.
              ** intros [(_ & _ & c1 & Hc1 & _)|[[= <- _]|[]]];
                   [discriminate Hc1|contradiction].
              ** intros (_ & _ & c1 & Hc1 & _). discriminate Hc1.
      * (* an empty base code, or the name of an inherited property *)
        split; [exact Hnd|]. intros v lab. rewrite IH, find_snoc. fold b.
        destruct (find (fun c1 => String.eqb (Dashboard.baseCode c1) v) l)
          as [c1|] eqn:Hf; [reflexivity|].
        destruct (String.eqb_spec b v) as [E|E]; [|reflexivity].
        subst v. split.
        -- intros (_ & _ & c1 & Hc1 & _). discriminate Hc1.
        -- intros (Hb1 & Hb2 & _). exfalso.
           apply andb_false_iff in Hadd. destruct Hadd as [H|H].
           ++ apply negb_false_iff, String.eqb_eq in H. contradiction.
           ++ rewrite Hb2 in H. discriminate H.
Qed.

(** X17: the selector offers one option for each base code of the course
    table that is not empty (and names no property that every object
    inherits), labelled with the name of the first course of the table
    that has this base code; no value is offered twice. *)
Theorem courseOptions_first_course (allCourses : list Dashboard.Course) :
  NoDup (map Dashboard.value (Dashboard.courseOptions allCourses))
  /\ forall o,
       In o (Dashboard.courseOptions allCourses)
       <-> Dashboard.value o <> EmptyString
           /\ inherited_property (Dashboard.value o) = false
           /\ exists c,
                find (fun c => String.eqb (Dashboard.baseCode c)
                                          (Dashboard.value o)) allCourses
                = Some c
                /\ Dashboard.label o
                   = (Dashboard.value o ++ " " ++ Dashboard.em_dash ++ " "
                        ++ Dashboard.Course_Name c)%string.
Proof.
  destruct (add_options_spec allCourses) as [Hnd Hin]. cbv zeta in Hnd, Hin.
  unfold Dashboard.courseOptions.
  set (unique := fold_left Dashboard.add_option allCourses Dict.empty) in *.
  split.
  - rewrite map_map. cbn [Dashboard.value].
    apply (Permutation_NoDup (Permutation_sym (keys_perm unique))), Hnd.
  - intros [v l]. cbn [Dashboard.value Dashboard.label].
    rewrite <- Hin. split.
    + intros H. apply in_map_iff in H. destruct H as ([v' l'] & [= -> ->] & H).
      apply (Permutation_in _ (entries_perm unique) H).
    + intros H. apply in_map_iff. exists (v, l). split; [reflexivity|].
      apply (Permutation_in _ (Permutation_sym (entries_perm unique)) H).
Qed.

(** An option comes from a course of the table with its value as base
    code. *)
Lemma courseOptions_first_course_aux (allCourses : list Dashboard.Course)
  (o : Dashboard.Option) :
  In o (Dashboard.courseOptions allCourses) ->
  exists c, In c allCourses /\ Dashboard.baseCode c = Dashboard.value o.
Proof.
  destruct (add_options_spec allCourses) as [_ Hin]. cbv zeta in Hin.
  unfold Dashboard.courseOptions. intros H.
  apply in_map_iff in H. destruct H as ([v l] & <- & H).
  apply (Permutation_in _ (entries_perm _)) in H.
  apply Hin in H. destruct H as (_ & _ & c & Hc & _).
  apply find_some in Hc. destruct Hc as [Hc E].
  apply String.eqb_eq in E. exists c. auto.
Qed.

(** X18: an option can be scheduled exactly when its value has the form
    of a base code.  Selected alone, an option of that form gives one
    schedule for each section of its course, at least one; an option whose
    value is a whole identifier that the pattern does not match gives no
    schedule, alone or with any other options, because the generator
    looks for rows by base code only. *)
Theorem option_schedulable (allCourses : list Dashboard.Course)
  (o : Dashboard.Option) :
  In o (Dashboard.courseOptions allCourses) ->
  match JS.match_letters_digits (Dashboard.value o) with
  | Some _ =>
      exists s group,
        Dashboard.schedules_of allCourses [o]
        = Normal (map (fun s => [s]) (s :: group))
  | None =>
      forall selectedCourses,
        In o selectedCourses ->
        Dashboard.schedules_of allCourses selectedCourses = Normal []
  end.
Proof.
  intros Ho.
  destruct (courseOptions_first_course_aux allCourses o Ho) as (c & Hc & Hv).
  destruct (JS.match_letters_digits (Dashboard.value o)) as [m|] eqn:Em.
  - assert (JS.match_letters_digits (Frontend.Course (Dashboard.row c))
            = Some (Dashboard.value o)) as Hm.
    { unfold Dashboard.baseCode in Hv.
      destruct (JS.match_letters_digits (Frontend.Course (Dashboard.row c)))
        as [m'|] eqn:E; [now subst|].
      rewrite <- Hv in Em. congruence. }
    destruct (@generateSchedules_single_course
                (map Dashboard.row allCourses) (Dashboard.row c)
                (Dashboard.value o)) as (group & Hrun & (s & Hs & _) & _).
    + now apply in_map.
    + exact Hm.
    + destruct group as [|s0 group]; [destruct Hs|].
      exists s0, group. exact Hrun.
  - intros selectedCourses Hsel. unfold Dashboard.schedules_of.
    apply frontend_no_section_no_schedule with (code := Dashboard.value o).
    + now apply in_map.
    + intros row _ Hrow.
      rewrite (match_letters_digits_fixed _ Hrow) in Em. discriminate Em.
Qed.

(** In the table with CS101-01 and LAB-A both are offered; CS101 gives a
    schedule, the option LAB-A never does. *)
Lemma option_schedulable_witness :
  (exists s group,
      Dashboard.schedules_of lab_table
        [Dashboard.mkOption "CS101"
           ("CS101 " ++ Dashboard.em_dash ++ " Programming")]
      = Normal (map (fun s => [s]) (s :: group)))
  /\ (forall selectedCourses,
         In (Dashboard.mkOption "LAB-A"
               ("LAB-A " ++ Dashboard.em_dash ++ " Laboratory"))
            selectedCourses ->
         Dashboard.schedules_of lab_table selectedCourses = Normal []).
Proof.
  split.
  - apply (@option_schedulable lab_table
             (Dashboard.mkOption "CS101"
                ("CS101 " ++ Dashboard.em_dash ++ " Programming"))).
    vm_compute. auto.
  - apply (@option_schedulable lab_table
             (Dashboard.mkOption "LAB-A"
                ("LAB-A " ++ Dashboard.em_dash ++ " Laboratory"))).
    vm_compute. auto.
Defined.

(** ** Stepping through the best schedules *)

(** X19: the index of the schedule on display stays an index of the list
    of best schedules.  On the backend's page the two buttons step
    cyclically: the successor of the last index is 0, the predecessor of 0
    is the last index, and each button undoes the other.  On the dashboard
    they stop at the two ends. *)
Theorem schedule_index_in_range (length i : Z) :
  (0 <= i < length)%Z ->
  (Legacy.navigateSchedules length i 1
   = (if (i + 1 =? length)%Z then 0 else i + 1)%Z
   /\ Legacy.navigateSchedules length i (-1)
      = (if (i =? 0)%Z then length - 1 else i - 1)%Z
   /\ Legacy.navigateSchedules length
        (Legacy.navigateSchedules length i 1) (-1) = i
   /\ Legacy.navigateSchedules length
        (Legacy.navigateSchedules length i (-1)) 1 = i)
  /\ (Dashboard.next length i
      = (if (i + 1 =? length)%Z then i else i + 1)%Z
      /\ Dashboard.prev i = (if (i =? 0)%Z then 0 else i - 1)%Z
      /\ (0 <= Dashboard.next length i < length)%Z
      /\ (0 <= Dashboard.prev i < length)%Z).
Proof.
  intros Hi.
  assert (forall j, (0 <= j < length)%Z ->
                    Legacy.navigateSchedules length j 1
                    = (if (j + 1 =? length)%Z then 0 else j + 1)%Z) as Hnext.
  { intros j Hj. unfold Legacy.navigateSchedules.
    destruct (Z.eqb_spec length 0) as [E|_]; [lia|].
    destruct (Z.eqb_spec (j + 1) length) as [E|E].
    - replace (j + 1 + length)%Z with (2 * length)%Z by lia.
      apply Z.rem_mul. lia.
    - rewrite Z.rem_mod_nonneg by lia.
      symmetry. apply (Z.mod_unique_pos _ _ 1); lia. }
  assert (forall j, (0 <= j < length)%Z ->
                    Legacy.navigateSchedules length j (-1)
                    = (if (j =? 0)%Z then length - 1 else j - 1)%Z) as Hprev.
  { intros j Hj. unfold Legacy.navigateSchedules.
    destruct (Z.eqb_spec length 0) as [E|_]; [lia|].
    destruct (Z.eqb_spec j 0) as [E|E].
    - subst j. replace (0 + -1 + length)%Z with (length - 1)%Z by lia.
      apply Z.rem_small. lia.
    - rewrite Z.rem_mod_nonneg by lia.
      symmetry. apply (Z.mod_unique_pos _ _ 1); lia. }
  split; [split; [now apply Hnext|split; [now apply Hprev|split]]|].
  - rewrite (Hnext i Hi).
    destruct (Z.eqb_spec (i + 1) length) as [E|E].
    + rewrite Hprev by lia. simpl. lia.
    + rewrite Hprev by lia.
      destruct (Z.eqb_spec (i + 1) 0); lia.
  - rewrite (Hprev i Hi).
    destruct (Z.eqb_spec i 0) as [E|E].
    + rewrite Hnext by lia.
      destruct (Z.eqb_spec (length - 1 + 1) length); lia.
    + rewrite Hnext by lia.
      destruct (Z.eqb_spec (i - 1 + 1) length); lia.
  - unfold Dashboard.next, Dashboard.prev.
    destruct (Z.eqb_spec (i + 1) length), (Z.eqb_spec i 0); lia.
Qed.

(** With three schedules, the successor of the last index is 0 on the
    backend's page and the last index on the dashboard. *)
Lemma schedule_index_in_range_witness :
  Legacy.navigateSchedules 3 2 1 = 0%Z /\ Dashboard.next 3 2 = 2%Z.
Proof.
  destruct (@schedule_index_in_range 3 2) as [(H1 & _) (H2 & _)]; [lia|].
  split; [exact H1|exact H2].
Defined.

(** ** The timing check *)

Section MapValues.
Variables V W : Type.
Variable f : V -> W.

Lemma get_map_values (d : Dict.t V) (k : string) :
  Dict.get (map_values f d) k = option_map f (Dict.get d k).
Proof.
  induction d as [|[k0 v0] d IH]; simpl; [reflexivity|].
  destruct (String.eqb k0 k); [reflexivity|exact IH].
Qed.

Lemma set_map_values (d : Dict.t V) (k : string) (v : V) :
  Dict.set (map_values f d) k (f v) = map_values f (Dict.set d k v).
Proof.
  induction d as [|[k0 v0] d IH]; simpl; [reflexivity|].
  destruct (String.eqb k0 k); simpl; [reflexivity|]. now rewrite IH.
Qed.

Lemma map_values_nil : map_values f [] = [].
Proof. reflexivity. Qed.

Lemma keys_map_values (d : Dict.t V) :
  map fst (map_values f d) = map fst d.
Proof. unfold map_values. rewrite map_map. reflexivity. Qed.

End MapValues.

(** In a map with distinct keys an entry is what the lookup finds. *)
Lemma in_get_nodup {V : Type} (d : Dict.t V) (k : string) (v : V) :
  NoDup (map fst d) -> In (k, v) d -> Dict.get d k = Some v.
Proof.
  induction d as [|[k0 v0] d IH]; simpl; [tauto|].
  intros Hnd. inversion Hnd as [|? ? Hk0 Hnd']; subst.
  intros [[= -> ->]|Hin].
  - now rewrite String.eqb_refl.
  - destruct (String.eqb_spec k0 k) as [->|E]; [|now apply IH].
    exfalso. apply Hk0. apply (in_map fst) in Hin. exact Hin.
Qed.

(** The elements of all the groups, after one more is pushed. *)
Lemma flat_set_push {A : Type} (d : Dict.t (list A)) (k : string)
  (g : list A) (x y : A) :
  Dict.get d k = Some g ->
  In y (flat_map snd (Dict.set d k (g ++ [x])))
  <-> In y (flat_map snd d) \/ y = x.
Proof.
  induction d as [|[k0 g0] d IH]; simpl; [discriminate|].
  destruct (String.eqb_spec k0 k) as [->|E].
  - intros [= ->]. simpl. rewrite !in_app_iff. simpl. intuition congruence.
  - intros H. simpl. rewrite !in_app_iff, (IH H). tauto.
Qed.

Lemma flat_set_new {A : Type} (d : Dict.t (list A)) (k : string) (x y : A) :
  Dict.get d k = None ->
  In y (flat_map snd (Dict.set d k [x]))
  <-> In y (flat_map snd d) \/ y = x.
Proof.
  intros H. apply get_none_iff in H.
  rewrite (@set_new_keys _ d k [x] H), flat_map_app, in_app_iff.
  simpl. intuition congruence.
Qed.

(** The own code of a row is truthy, or the row takes the last code. *)
Lemma code_of_cases (row : Scraper.Row) (lastCode : option string) :
  (exists code, Scraper.trimmed (Scraper.Course row) = Some code
                /\ JS.truthy (JS.VStr code) = true
                /\ Scraper.code_of row lastCode = Some code)
  \/ (Scraper.code_of row lastCode = lastCode
      /\ Scraper.code_of row None = None).
Proof.
  unfold Scraper.code_of.
  destruct (Scraper.trimmed (Scraper.Course row)) as [code|]; [|auto].
  destruct (JS.truthy (JS.VStr code)) eqn:E; eauto.
Qed.

Section Paired.
Let currents (gp : Dict.t (list (Scraper.Row * Scraper.Row))) := map_values (map fst) gp.
Let backups (gp : Dict.t (list (Scraper.Row * Scraper.Row))) := map_values (map snd) gp.
Let last_ok (last : option string) : Prop :=
  forall c, last = Some c ->
            JS.truthy (JS.VStr c) = true /\ inherited_property c = false.

(** One row of each file, with the same course column, filed in step. *)
Lemma group_row_paired (current backup : Scraper.Row)
  (gp : Dict.t (list (Scraper.Row * Scraper.Row))) (last : option string) :
  same_course current backup -> code_own current -> last_ok last ->
  NoDup (map fst gp) ->
  exists gp' last',
    Scraper.group_row (currents gp, last) current
    = Normal (currents gp', last')
    /\ Scraper.group_row (backups gp, last) backup
       = Normal (backups gp', last')
    /\ last_ok last' /\ NoDup (map fst gp')
    /\ (last <> None -> last' <> None)
    /\ (forall p, In p (flat_map snd gp') ->
                  In p (flat_map snd gp) \/ p = (current, backup))
    /\ (forall p, In p (flat_map snd gp) -> In p (flat_map snd gp'))
    /\ (Scraper.code_of current last <> None ->
        last' <> None /\ In (current, backup) (flat_map snd gp')).
Proof.
  intros Hsame Hown Hlast Hnd.
  assert (Scraper.code_of backup last = Scraper.code_of current last) as Hcode.
  { unfold Scraper.code_of. now rewrite Hsame. }
  unfold Scraper.group_row. cbn [fst snd]. rewrite Hcode.
  destruct (Scraper.code_of current last) as [code|] eqn:Ec.
  2: { exists gp, last.
       split; [reflexivity|]. split; [reflexivity|].
       split; [exact Hlast|]. split; [exact Hnd|].
       split; [auto|]. split; [auto|]. split; [auto|].
       intros H. now contradiction H. }
  assert (JS.truthy (JS.VStr code) = true /\ inherited_property code = false)
    as [Htruthy Hinh].
  { destruct (code_of_cases current last) as [(c & Hc & Ht & E)|[E _]].
    - rewrite Ec in E. injection E as ->. split; [exact Ht|].
      now apply Hown.
    - rewrite Ec in E. symmetry in E. now apply Hlast. }
  rewrite Htruthy. cbn [negb].
  unfold currents, backups. rewrite !get_map_values.
  destruct (Dict.get gp code) as [group|] eqn:Hg; cbn [option_map].
  - exists (Dict.set gp code (group ++ [(current, backup)])), (Some code).
    rewrite <- !set_map_values, !map_app. cbn [map fst snd].
    split; [reflexivity|]. split; [reflexivity|].
    split; [intros c [= <-]; auto|].
    split; [now apply set_nodup|].
    split; [discriminate|].
    split; [intros p Hp;
            now apply (proj1 (@flat_set_push _ gp code group
                                (current, backup) p Hg))|].
    split; [intros p Hp;
            apply (proj2 (@flat_set_push _ gp code group
                            (current, backup) p Hg)); now left|].
    intros _. split; [discriminate|].
    apply (proj2 (@flat_set_push _ gp code group (current, backup)
                    (current, backup) Hg)). now right.
  - rewrite Hinh.
    exists (Dict.set gp code [(current, backup)]), (Some code).
    rewrite <- !set_map_values. cbn [map fst snd].
    split; [reflexivity|]. split; [reflexivity|].
    split; [intros c [= <-]; auto|].
    split; [now apply set_nodup|].
    split; [discriminate|].
    split; [intros p Hp;
            now apply (proj1 (@flat_set_new _ gp code (current, backup)
                                p Hg))|].
    split; [intros p Hp;
            apply (proj2 (@flat_set_new _ gp code (current, backup) p Hg));
            now left|].
    intros _. split; [discriminate|].
    apply (proj2 (@flat_set_new _ gp code (current, backup)
                    (current, backup) Hg)). now right.
Qed.

(** The rows of the two files, filed in step. *)
Lemma group_rows_paired (current backup : list Scraper.Row) :
  Forall2 same_course current backup -> Forall code_own current ->
  forall (gp : Dict.t (list (Scraper.Row * Scraper.Row))) (last : option string),
    last_ok last -> NoDup (map fst gp) ->
    exists gp' last',
      foldM Scraper.group_row current (currents gp, last)
      = Normal (currents gp', last')
      /\ foldM Scraper.group_row backup (backups gp, last)
         = Normal (backups gp', last')
      /\ NoDup (map fst gp')
      /\ (forall p, In p (flat_map snd gp') ->
                    In p (flat_map snd gp) \/ In p (combine current backup))
      /\ (forall p, In p (flat_map snd gp) -> In p (flat_map snd gp'))
      /\ (last <> None \/ first_coded current ->
          forall p, In p (combine current backup) ->
                    In p (flat_map snd gp')).
Proof.
  induction 1 as [|c b current backup Hcb Hrest IH]; intros Hown gp last Hlast Hnd.
  - exists gp, last. simpl. repeat split; auto. intros _ p [].
  - inversion Hown as [|? ? Hc Hown']; subst.
    destruct (group_row_paired gp Hcb Hc Hlast Hnd)
      as (gp1 & last1 & Hr1 & Hr2 & Hlast1 & Hnd1 & Hkeep & Hsub & Hmono
          & Hcoded).
    destruct (IH Hown' gp1 last1 Hlast1 Hnd1)
      as (gp' & last' & Hf1 & Hf2 & Hnd' & Hsub' & Hmono' & Hall').
    exists gp', last'. cbn [foldM]. rewrite Hr1, Hr2. cbn [bind].
    split; [exact Hf1|]. split; [exact Hf2|]. split; [exact Hnd'|].
    split; [|split].
    + intros p Hp. destruct (Hsub' p Hp) as [H1|H1].
      * destruct (Hsub p H1) as [H2| ->]; [now left|]. right. now left.
      * right. now right.
    + intros p Hp. now apply Hmono', Hmono.
    + intros Hstart p [<-|Hp].
      * apply Hmono'. apply Hcoded.
        destruct Hstart as [Hl|Hf].
        -- destruct (code_of_cases c last) as [(code & _ & _ & ->)|[-> _]];
             [discriminate|exact Hl].
        -- simpl in Hf.
           destruct (code_of_cases c last) as [(code & _ & _ & ->)|[_ E]];
             [discriminate|contradiction].
      * apply Hall'; [|exact Hp]. left. apply Hcoded.
        destruct Hstart as [Hl|Hf].
        -- destruct (code_of_cases c last) as [(code & _ & _ & ->)|[-> _]];
             [discriminate|exact Hl].
        -- simpl in Hf.
           destruct (code_of_cases c last) as [(code & _ & _ & ->)|[_ E]];
             [discriminate|contradiction].
Qed.

End Paired.

(** Each step of the comparison only adds to the changes. *)
Lemma compare_session_app (code : string) (backupSessions : list Scraper.Row)
  (changes : list string) (index : nat) (current : Scraper.Row) :
  Scraper.compare_session code backupSessions changes index current
  = changes
      ++ Scraper.compare_session code backupSessions [] index current.
Proof.
  unfold Scraper.compare_session.
  destruct (nth_error backupSessions index) as [backup|]; [|reflexivity].
  destruct (_ || _); [reflexivity|]. now rewrite app_nil_r.
Qed.

Lemma differ_false_iff (a b : option string) :
  Scraper.differ a b = false <-> a = b.
Proof.
  destruct a as [x|], b as [y|]; simpl; try (split; congruence).
  rewrite negb_false_iff, String.eqb_eq. split; congruence.
Qed.

(** A session is passed over when the backup has a session at its place,
    with the same times. *)
Lemma compare_session_nil (code : string) (backupSessions : list Scraper.Row)
  (index : nat) (current : Scraper.Row) :
  Scraper.compare_session code backupSessions [] index current = []
  <-> exists backup, nth_error backupSessions index = Some backup
                     /\ same_times current backup.
Proof.
  unfold Scraper.compare_session, same_times.
  destruct (nth_error backupSessions index) as [backup|].
  - destruct (Scraper.differ _ _ || Scraper.differ _ _) eqn:E.
    + split; [discriminate|]. intros (b & [= <-] & H1 & H2).
      apply orb_true_iff in E.
      destruct E as [E|E]; [rewrite H1 in E|rewrite H2 in E];
        rewrite (proj2 (differ_false_iff _ _) eq_refl) in E; discriminate E.
    + apply orb_false_iff in E. destruct E as [E1 E2].
      apply differ_false_iff in E1, E2. split; [eauto|reflexivity].
  - split; [discriminate|]. intros (b & H & _). discriminate H.
Qed.

Lemma fold_left_append {A B : Type} (step : list B -> A -> list B)
  (e : A -> list B) (l : list A) :
  (forall acc x, step acc x = acc ++ e x) ->
  forall acc, fold_left step l acc = acc ++ flat_map e l.
Proof.
  intros Hstep. induction l as [|x l IH]; intros acc; simpl.
  - now rewrite app_nil_r.
  - rewrite IH, Hstep, <- app_assoc. reflexivity.
Qed.

Lemma flat_map_nil {A B : Type} (e : A -> list B) (l : list A) :
  flat_map e l = [] <-> forall x, In x l -> e x = [].
Proof.
  induction l as [|x l IH]; simpl; [tauto|]. split.
  - intros H. apply app_eq_nil in H. destruct H as [Hx Hl].
    intros y [<-|Hy]; [exact Hx|]. now apply IH.
  - intros H. rewrite (H x (or_introl eq_refl)).
    apply IH. intros y Hy. apply H. now right.
Qed.

Lemma in_indexed {A : Type} (l : list A) (x : A) (i : nat) :
  forall start,
    In (i, x) (combine (seq start (List.length l)) l)
    <-> start <= i /\ nth_error l (i - start) = Some x.
Proof.
  induction l as [|y l IH]; intros start; simpl.
  - split; [tauto|]. intros [_ H]. destruct (i - start); discriminate H.
  - rewrite IH. split.
    + intros [[= <- <-]|[Hle H]].
      * rewrite Nat.sub_diag. auto.
      * split; [lia|]. replace (i - start) with (S (i - S start)) by lia.
        exact H.
    + intros [Hle H]. destruct (i - start) as [|n] eqn:E.
      * left. injection H as <-. f_equal. lia.
      * right. split; [lia|]. replace (i - S start) with n by lia. exact H.
Qed.

(** The comparison of the groups of two files that were filed in step. *)
Lemma compare_groups_paired (gp : Dict.t (list (Scraper.Row * Scraper.Row))) :
  NoDup (map fst gp) ->
  Scraper.compare_groups (map_values (map fst) gp) (map_values (map snd) gp)
  = []
  <-> forall p, In p (flat_map snd gp) -> same_times (fst p) (snd p).
Proof.
  intros Hnd. unfold Scraper.compare_groups.
  rewrite fold_left_append
    with (e := fun code =>
                 match Dict.get (map_values (map fst) gp) code with
                 | Some currentSessions =>
                     flat_map
                       (fun indexed =>
                          Scraper.compare_session code
                            match Dict.get (map_values (map snd) gp) code with
                            | Some group => group
                            | None => []
                            end [] (fst indexed) (snd indexed))
                       (combine (seq 0 (List.length currentSessions))
                                currentSessions)
                 | None => []
                 end).
  2: { intros acc code.
       destruct (Dict.get (map_values (map fst) gp) code) as [cur|];
         [|now rewrite app_nil_r].
       apply fold_left_append. intros acc' indexed.
       apply compare_session_app. }
  cbn [app]. rewrite flat_map_nil. split.
  - intros H [c b] Hp. cbn [fst snd].
    apply in_flat_map in Hp. destruct Hp as ([k g] & Hkg & Hp).
    cbn [snd] in Hp.
    assert (In k (Dict.keys (map_values (map fst) gp))) as Hk.
    { apply in_keys_iff. rewrite keys_map_values.
      apply (in_map fst) in Hkg. exact Hkg. }
    specialize (H k Hk). rewrite !get_map_values in H.
    rewrite (@in_get_nodup _ gp k g Hnd Hkg) in H. cbn [option_map] in H.
    apply In_nth_error in Hp. destruct Hp as [i Hi].
    rewrite flat_map_nil in H.
    specialize (H (i, c)). cbn [fst snd] in H.
    assert (In (i, c) (combine (seq 0 (List.length (map fst g))) (map fst g)))
      as Hic.
    { apply (proj2 (@in_indexed _ (map fst g) c i 0)). split; [lia|].
      rewrite Nat.sub_0_r, nth_error_map, Hi. reflexivity. }
    specialize (H Hic).
    apply (proj1 (compare_session_nil _ _ _ _)) in H.
    destruct H as (b' & Hb' & Ht).
    rewrite nth_error_map, Hi in Hb'. cbn in Hb'. now injection Hb' as <-.
  - intros H k Hk. rewrite !get_map_values.
    destruct (Dict.get gp k) as [g|] eqn:Hg; [|reflexivity].
    cbn [option_map]. apply flat_map_nil. intros [i c] Hic. cbn [fst snd].
    apply (proj1 (@in_indexed _ (map fst g) c i 0)) in Hic.
    destruct Hic as [_ Hi]. rewrite Nat.sub_0_r, nth_error_map in Hi.
    destruct (nth_error g i) as [[c' b]|] eqn:Ei; [|discriminate Hi].
    cbn in Hi. injection Hi as ->.
    apply compare_session_nil. exists b. split.
    + rewrite nth_error_map, Ei. reflexivity.
    + apply (H (c, b)). apply in_flat_map. exists (k, g). split.
      * now apply get_some_in.
      * apply nth_error_In in Ei. exact Ei.
Qed.

Lemma Forall2_combine {A B : Type} (P : A -> B -> Prop) (l : list A)
  (l' : list B) :
  List.length l = List.length l' ->
  (Forall2 P l l' <-> forall p, In p (combine l l') -> P (fst p) (snd p)).
Proof.
  revert l'. induction l as [|x l IH]; intros [|y l'] Hlen;
    try discriminate Hlen; simpl.
  - split; [tauto|constructor].
  - injection Hlen as Hlen. split.
    + intros H. inversion H as [|? ? ? ? Hxy Hrest]; subst.
      intros p [<-|Hp]; [exact Hxy|]. now apply (proj1 (IH l' Hlen)).
    + intros H. constructor; [apply (H (x, y)); now left|].
      apply IH; [exact Hlen|]. intros p Hp. apply H. now right.
Qed.

(** Grouping and comparing two lists of rows that list the same courses
    at the same places. *)
Lemma groups_paired (current backup : list Scraper.Row) :
  Forall2 same_course current backup -> Forall code_own current ->
  exists currentGroups backupGroups,
    Scraper.groupCourses current = Normal currentGroups
    /\ Scraper.groupCourses backup = Normal backupGroups
    /\ (Forall2 same_times current backup ->
        Scraper.compare_groups currentGroups backupGroups = [])
    /\ (first_coded current ->
        Scraper.compare_groups currentGroups backupGroups = [] ->
        Forall2 same_times current backup).
Proof.
  intros Hsame Hown.
  destruct (@group_rows_paired current backup Hsame Hown [] None)
    as (gp & last & Hc & Hb & Hnd & Hsub & _ & Hall).
  { intros c H. discriminate H. }
  { constructor. }
  rewrite map_values_nil in Hc, Hb.
  exists (map_values (map fst) gp), (map_values (map snd) gp).
  unfold Scraper.groupCourses, Dict.empty.
  rewrite Hc, Hb. cbn [bind fst].
  split; [reflexivity|]. split; [reflexivity|].
  pose proof (Forall2_length Hsame) as Hlen.
  split.
  - intros Ht. apply (compare_groups_paired gp Hnd). intros p Hp.
    destruct (Hsub p Hp) as [[]|Hin].
    now apply (proj1 (Forall2_combine same_times current backup Hlen) Ht).
  - intros Hfirst Hnil.
    apply (Forall2_combine same_times current backup Hlen).
    intros p Hp. apply (proj1 (compare_groups_paired gp Hnd) Hnil).
    apply Hall; [now right|exact Hp].
Qed.

(** X20: the timing check never reports a change.  Without the current
    file it resolves to the one notice that the data was not found.  With
    it, the first read throws ([fs] is the promise interface, which has no
    [existsSync]) and the check is rejected before a row is compared,
    whatever the two files hold.  The steps that follow the reads, taken
    on their own: on two lists of rows that list the same courses at the
    same places, grouping both and comparing the groups gives no change
    when every session has the times it had, blanks around them apart,
    and only then, provided the first row carries a course code (a row
    before the first code is not grouped); and a session that is only in
    the backup is never reported.  There the course codes are taken not to
    name a property that every object inherits; the grouping throws on
    such a name. *)
Theorem timing_check_never_compares :
  (forall backup,
      Scraper.checkTimingChanges None backup
      = Normal ["Current course data not found. Please scrape first."%string])
  /\ (forall rows backup,
         Scraper.checkTimingChanges (Some rows) backup = Throw TypeError)
  /\ (forall file, Scraper.readCsv file = Throw TypeError)
  /\ (forall current backup,
         Forall2 same_course current backup -> Forall code_own current ->
         exists currentGroups backupGroups,
           Scraper.groupCourses current = Normal currentGroups
           /\ Scraper.groupCourses backup = Normal backupGroups
           /\ (Forall2 same_times current backup ->
               Scraper.compare_groups currentGroups backupGroups = [])
           /\ (first_coded current ->
               Scraper.compare_groups currentGroups backupGroups = [] ->
               Forall2 same_times current backup))
  /\ (forall backupGroups,
         Scraper.groupCourses [] = Normal Dict.empty
         /\ Scraper.compare_groups Dict.empty backupGroups = []).
Proof.
  split; [reflexivity|]. split; [reflexivity|]. split; [reflexivity|].
  split; [exact groups_paired|].
  intros backupGroups. split; reflexivity.
Qed.

(** With both files present the check is rejected, although the second
    session of MA201 was an hour later in the backup, which the comparison
    of the grouped rows would report. *)
Lemma timing_check_never_compares_witness :
  Scraper.checkTimingChanges (Some timing_rows) (Some timing_rows_before)
  = Throw TypeError
  /\ exists currentGroups backupGroups change changes,
       Scraper.groupCourses timing_rows = Normal currentGroups
       /\ Scraper.groupCourses timing_rows_before = Normal backupGroups
       /\ Scraper.compare_groups currentGroups backupGroups
          = change :: changes.
Proof.
  split; [apply (proj1 (proj2 timing_check_never_compares))|].
  destruct (proj1 (proj2 (proj2 (proj2 timing_check_never_compares)))
              timing_rows timing_rows_before)
    as (currentGroups & backupGroups & Hc & Hb & _ & Hdetect).
  - repeat constructor.
  - repeat constructor; intros code [= <-]; reflexivity.
  - exists currentGroups, backupGroups.
    destruct (Scraper.compare_groups currentGroups backupGroups)
      as [|change changes] eqn:E;
      [|exists change, changes; split; [exact Hc|split; [exact Hb|reflexivity]]].
    exfalso.
    assert (first_coded timing_rows) as Hfirst by (simpl; discriminate).
    pose proof (Hdetect Hfirst eq_refl) as H.
    inversion H as [|? ? ? ? _ Hrest]; subst.
    inversion Hrest as [|? ? ? ? [Hstart _] _]; subst.
    discriminate Hstart.
Defined.

(** ** The labels and rows of the charts *)

Lemma check_tooltip_holds : on_every_clock24 tooltip_ok = true.
Proof. vm_compute. reflexivity. Qed.

Lemma check_row_holds : on_every_clock24 row_ok = true.
Proof. vm_compute. reflexivity. Qed.

(** X21: the tooltip and the ticks of the chart of the backend's page show
    a time of the catalog as the catalog wrote it: formatting the number
    parsed from a well-formed ["H:MM"] or ["HH:MM"] gives ["HH:MM"] back.
    Not every number is shown as a clock time: half a minute before the
    hour the minutes are rounded up to 60. *)
Theorem formatTime_round_trip (pad : bool) (h m : nat) :
  h <= 23 -> m <= 59 ->
  Tooltip.formatTime (Legacy.parseTimeToFloat (clock24 pad h m))
  = Some (clock24 true h m)
  /\ Tooltip.formatTime 9.9921875%float = Some "09:60"%string.
Proof.
  intros Hh Hm. split; [|vm_compute; reflexivity].
  pose proof (on_every_clock24_spec tooltip_ok check_tooltip_holds
                pad Hh Hm) as H.
  unfold tooltip_ok in H.
  destruct (Tooltip.formatTime _) as [s|]; [|discriminate H].
  apply String.eqb_eq in H. now subst.
Qed.

(** ["9:05"] is shown as ["09:05"]. *)
Lemma formatTime_round_trip_witness :
  Tooltip.formatTime (Legacy.parseTimeToFloat "9:05") = Some "09:05"%string
  /\ Tooltip.formatTime 9.9921875%float = Some "09:60"%string.
Proof.
  apply (@formatTime_round_trip false 9 5); lia.
Defined.

(** X22: on the grid of the frontend a class is drawn from the row of the
    label of its starting hour, one row lower from a quarter past and two
    rows lower from a quarter to the next hour, to the row found in the
    same way for its end; the labels are the hours from 08:00 to 20:00,
    two rows apart, and a later time never has an earlier row.  A class
    that starts and ends within the same quarter of an hour around a grid
    line gets the same row twice. *)
Theorem grid_rows_follow_labels (day : string) (h m h' m' : nat) :
  8 <= h <= 20 -> m <= 59 -> 8 <= h' <= 20 -> m' <= 59 ->
  nth_error SchedulePlot.timeLabels (h - 8) = Some (clock24 true h 0)
  /\ SchedulePlot.grid_row (hours_of h m)
     = JS.Z2float (Z.of_nat (row_of h m))
  /\ SchedulePlot.gridRow
       (Frontend.mkTimeslot day (hours_of h m) (hours_of h' m'))
     = Some (NilZero.string_of_uint (Nat.to_uint (row_of h m))
               ++ " / "
               ++ NilZero.string_of_uint (Nat.to_uint (row_of h' m')))%string
  /\ row_of h 0 = SchedulePlot.label_row (h - 8)
  /\ (m < 15 -> row_of h m = row_of h 0)
  /\ (60 * h + m <= 60 * h' + m' -> row_of h m <= row_of h' m').
Proof.
  intros Hh Hm Hh' Hm'.
  assert (forall a b, 8 <= a <= 20 -> b <= 59 ->
                      SchedulePlot.grid_row (hours_of a b)
                      = JS.Z2float (Z.of_nat (row_of a b))
                      /\ integer_toString (JS.Z2float (Z.of_nat (row_of a b)))
                         = Some (NilZero.string_of_uint
                                   (Nat.to_uint (row_of a b)))) as Hrow.
  { intros a b Ha Hb.
    assert (a <= 23) as Ha' by lia.
    pose proof (on_every_clock24_spec row_ok check_row_holds
                  true Ha' Hb) as H.
    unfold row_ok in H.
    assert ((a <? SchedulePlot.HOUR_START) = false) as E1
      by (apply Nat.ltb_ge; unfold SchedulePlot.HOUR_START; lia).
    assert ((SchedulePlot.HOUR_END <? a) = false) as E2
      by (apply Nat.ltb_ge; unfold SchedulePlot.HOUR_END; lia).
    rewrite E1, E2 in H. cbn [orb] in H.
    apply andb_true_iff in H. destruct H as [H1 H2].
    apply FloatAxioms.Leibniz.eqb_spec in H1. split; [exact H1|].
    destruct (integer_toString _) as [s|]; [|discriminate H2].
    apply String.eqb_eq in H2. now subst. }
  destruct (Hrow h m Hh Hm) as [Hs Hst].
  destruct (Hrow h' m' Hh' Hm') as [He Het].
  split; [|split; [exact Hs|split; [|split; [|split]]]].
  - assert (In (h - 8) (seq 0 13)) as Hin by (apply in_seq; lia).
    replace h with (h - 8 + 8) at 2 by lia.
    revert Hin. generalize (h - 8). intros i Hi.
    simpl in Hi.
    repeat (destruct Hi as [<-|Hi]; [vm_compute; reflexivity|]).
    destruct Hi.
  - unfold SchedulePlot.gridRow. cbn [Frontend.startTime Frontend.endTime].
    now rewrite Hs, He, Hst, Het.
  - unfold row_of. change ((0 + 15) / 30) with 0.
    unfold SchedulePlot.HOUR_START. lia.
  - intros Hlt. unfold row_of. f_equal.
    rewrite (Nat.div_small (0 + 15) 30) by lia.
    apply Nat.div_small. lia.
  - unfold row_of, SchedulePlot.label_row, SchedulePlot.HOUR_START.
    pose proof (Nat.div_mod_eq (m + 15) 30) as D.
    pose proof (Nat.mod_upper_bound (m + 15) 30) as U.
    pose proof (Nat.div_mod_eq (m' + 15) 30) as D'.
    pose proof (Nat.mod_upper_bound (m' + 15) 30) as U'.
    lia.
Qed.

(** A class from 10:00 to 10:10 is drawn from row 5 to row 5. *)
Lemma grid_rows_follow_labels_witness :
  SchedulePlot.gridRow
    (Frontend.mkTimeslot "M" (hours_of 10 0) (hours_of 10 10))
  = Some "5 / 5"%string.
Proof.
  apply (@grid_rows_follow_labels "M" 10 0 10 10); lia.
Defined.

(** ** The colours of the grid *)

(** What the [reduce] of [colorMap] leaves under a code, from a place
    [start] on. *)
Lemma colorMap_from (codes : list string) :
  forall (start : nat) (acc : Dict.t string),
    NoDup codes ->
    let map :=
      fold_left (fun acc indexed =>
                   if String.eqb (snd indexed) "__proto__" then acc
                   else Dict.set acc (snd indexed)
                          (nth (fst indexed mod List.length SchedulePlot.colors)
                               SchedulePlot.colors EmptyString))
                (combine (seq start (List.length codes)) codes) acc in
    (forall c, ~ In c codes -> Dict.get map c = Dict.get acc c)
    /\ (forall i c, nth_error codes i = Some c -> c <> "__proto__"%string ->
                    Dict.get map c
                    = Some (nth ((start + i) mod List.length SchedulePlot.colors)
                                SchedulePlot.colors EmptyString)).
Proof.
  induction codes as [|code codes IH]; intros start acc Hnd; cbv zeta.
  - simpl. split; [reflexivity|]. intros [|i] c H; discriminate H.
  - inversion Hnd as [|? ? Hcode Hnd']; subst.
    cbn [List.length seq combine fold_left fst snd].
    set (acc1 := if String.eqb code "__proto__" then acc
                 else Dict.set acc code _).
    destruct (IH (S start) acc1 Hnd') as [Hout Hin]. split.
    + intros c Hc. rewrite Hout by (intros H; apply Hc; now right).
      subst acc1. destruct (String.eqb code "__proto__"); [reflexivity|].
      apply get_set_other. intros ->. apply Hc. now left.
    + intros [|i] c Hi Hproto.
      * injection Hi as ->. rewrite (Hout c Hcode). subst acc1.
        apply String.eqb_neq in Hproto. rewrite Hproto.
        rewrite Nat.add_0_r. apply get_set_same.
      * rewrite (Hin i c Hi Hproto). do 3 f_equal. lia.
Qed.

Lemma colors_distinct (i j : nat) :
  i < 10 -> j < 10 ->
  nth i SchedulePlot.colors EmptyString = nth j SchedulePlot.colors EmptyString ->
  i = j.
Proof.
  intros Hi Hj. apply NoDup_nth; [|exact Hi|exact Hj].
  repeat (constructor; [simpl; intuition discriminate|]). constructor.
Qed.

(** ["__proto__"] is never a key of [colorMap]. *)
Lemma colorMap_keys_exclude (schedule : Frontend.Schedule) :
  ~ In "__proto__"%string (map fst (SchedulePlot.colorMap schedule)).
Proof.
  unfold SchedulePlot.colorMap.
  apply (@fold_left_preserves (nat * string) (Dict.t string)
           (fun d => ~ In "__proto__"%string (map fst d))).
  - intros d [i c] _ Hd. cbn [fst snd].
    destruct (String.eqb_spec c "__proto__") as [E|E]; [exact Hd|].
    rewrite set_keys_in. intros [H|H]; [now apply Hd|congruence].
  - intros [].
Qed.

(** X23: on the grid every section of a schedule is drawn in a colour of
    the palette (unless its course code is ["__proto__"], which a plain
    object cannot hold as a key): the colour at the place of its course
    among the distinct course codes of the schedule, counted around the
    palette.  Sections of one course have one colour, and as long as the
    schedule has at most ten courses, sections of different courses have
    different colours. *)
Theorem grid_colours (schedule : Frontend.Schedule) :
  NoDup (SchedulePlot.courseCodes schedule)
  /\ (forall s, In s schedule ->
                Frontend.courseCode s <> "__proto__"%string ->
                exists i,
                  nth_error (SchedulePlot.courseCodes schedule) i
                  = Some (Frontend.courseCode s)
                  /\ SchedulePlot.backgroundColor schedule s
                     = Some (nth (i mod 10) SchedulePlot.colors EmptyString))
  /\ (forall s s', Frontend.courseCode s = Frontend.courseCode s' ->
                   SchedulePlot.backgroundColor schedule s
                   = SchedulePlot.backgroundColor schedule s')
  /\ (List.length (SchedulePlot.courseCodes schedule) <= 10 ->
      forall s s',
        In s schedule -> In s' schedule ->
        Frontend.courseCode s <> "__proto__"%string ->
        SchedulePlot.backgroundColor schedule s
        = SchedulePlot.backgroundColor schedule s' ->
        Frontend.courseCode s = Frontend.courseCode s').
Proof.
  destruct (fold_set_add (map Frontend.courseCode schedule) (NoDup_nil string))
    as [Hnd Hin].
  fold (SchedulePlot.courseCodes schedule) in Hnd, Hin.
  destruct (colorMap_from 0 Dict.empty Hnd) as [Hout Hget].
  cbv zeta in Hout, Hget. fold (SchedulePlot.colorMap schedule) in Hout, Hget.
  assert (forall s, In s schedule ->
                    Frontend.courseCode s <> "__proto__"%string ->
                    exists i,
                      nth_error (SchedulePlot.courseCodes schedule) i
                      = Some (Frontend.courseCode s)
                      /\ SchedulePlot.backgroundColor schedule s
                         = Some (nth (i mod 10) SchedulePlot.colors
                                     EmptyString)) as Hcolour.
  { intros s Hs Hproto.
    assert (In (Frontend.courseCode s) (SchedulePlot.courseCodes schedule))
      as Hc by (apply Hin; right; now apply in_map).
    apply In_nth_error in Hc. destruct Hc as [i Hi].
    exists i. split; [exact Hi|].
    unfold SchedulePlot.backgroundColor. apply (Hget i _ Hi Hproto). }
  split; [exact Hnd|]. split; [exact Hcolour|]. split.
  - intros s s' E. unfold SchedulePlot.backgroundColor. now rewrite E.
  - intros Hlen s s' Hs Hs' Hproto E.
    destruct (Hcolour s Hs Hproto) as (i & Hi & Ei).
    assert (i < 10) as Hi10.
    { assert (i < List.length (SchedulePlot.courseCodes schedule))
        by (apply nth_error_Some; congruence). lia. }
    destruct (String.eqb_spec (Frontend.courseCode s') "__proto__")
      as [Hp|Hp].
    + exfalso. rewrite Ei in E. unfold SchedulePlot.backgroundColor in E.
      rewrite Hp in E.
      destruct (in_dec string_dec "__proto__"%string
                  (SchedulePlot.courseCodes schedule)) as [Hin'|Hout'].
      * apply In_nth_error in Hin'. destruct Hin' as [j Hj].
        clear - E Hnd Hj.
        assert (Dict.get (SchedulePlot.colorMap schedule) "__proto__" = None)
          as Hnone; [|congruence].
        apply get_none_iff. intros Hkey.
        apply (colorMap_keys_exclude schedule Hkey).
      * rewrite (Hout _ Hout') in E. discriminate E.
    + destruct (Hcolour s' Hs' Hp) as (j & Hj & Ej).
      assert (j < 10) as Hj10.
      { assert (j < List.length (SchedulePlot.courseCodes schedule))
          by (apply nth_error_Some; congruence). lia. }
      rewrite (Nat.mod_small i 10 Hi10) in Ei.
      rewrite (Nat.mod_small j 10 Hj10) in Ej.
      assert (i = j) as <-; [|congruence].
      apply colors_distinct; [exact Hi10|exact Hj10|congruence].
Qed.

(** In a schedule of CS101 and MA201 the section of MA201 has the second
    colour of the palette. *)
Lemma grid_colours_witness :
  exists i,
    nth_error
      (SchedulePlot.courseCodes
         [Frontend.mkSection "CS101" "CS101-01" [];
          Frontend.mkSection "MA201" "MA201-01" []]) i
    = Some "MA201"%string
    /\ SchedulePlot.backgroundColor
         [Frontend.mkSection "CS101" "CS101-01" [];
          Frontend.mkSection "MA201" "MA201-01" []]
         (Frontend.mkSection "MA201" "MA201-01" [])
       = Some (nth (i mod 10) SchedulePlot.colors EmptyString).
Proof.
  apply (proj1 (proj2 (grid_colours
                         [Frontend.mkSection "CS101" "CS101-01" [];
                          Frontend.mkSection "MA201" "MA201-01" []]))
           (Frontend.mkSection "MA201" "MA201-01" [])).
  - simpl. auto.
  - simpl. discriminate.
Defined.

(** ** Filling the course columns down *)

Lemma fill_from_snoc (courses : list ScrapeCourses.Course)
  (c : ScrapeCourses.Course) :
  ScrapeCourses.fill_from (courses ++ [c])
  = ScrapeCourses.fill (ScrapeCourses.fill_from courses) c.
Proof. unfold ScrapeCourses.fill_from. now rewrite fold_left_app. Qed.

Lemma nth_last {A : Type} (l : list A) (d : A) :
  nth (List.length l - 1) l d = List.last l d.
Proof.
  induction l as [|x l IH]; [reflexivity|].
  destruct l as [|y l]; [reflexivity|].
  replace (List.length (x :: y :: l) - 1)
    with (S (List.length (y :: l) - 1)) by (simpl; lia).
  change (nth (S (List.length (y :: l) - 1)) (x :: y :: l) d)
    with (nth (List.length (y :: l) - 1) (y :: l) d).
  rewrite IH. reflexivity.
Qed.

(** After every row [lastCourse] holds the course columns of the row that
    was returned last. *)
Lemma fill_from_spec (courses : list ScrapeCourses.Course) :
  let last := fst (ScrapeCourses.fill_from courses) in
  let out := ScrapeCourses.processedCourses courses in
  List.length out = List.length courses
  /\ map ScrapeCourses.details out = map ScrapeCourses.details courses
  /\ last = match courses with
            | [] => ScrapeCourses.mkLast "" "" ""
            | _ => course_columns
                     (List.last out (ScrapeCourses.mkCourse "" "" "" []))
            end
  /\ ScrapeCourses.fill_from out = ScrapeCourses.fill_from courses.
Proof.
  cbv zeta. unfold ScrapeCourses.processedCourses.
  induction courses as [|c courses IH] using rev_ind.
  - simpl. auto.
  - destruct IH as (Hlen & Hdet & Hlast & Hidem).
    rewrite fill_from_snoc.
    destruct (ScrapeCourses.fill_from courses) as [last out] eqn:E.
    cbn [fst snd] in *.
    assert (forall p, List.last (out ++ [p])
                        (ScrapeCourses.mkCourse "" "" "" []) = p) as Hl
      by (intros p; apply last_last).
    assert (match courses ++ [c] with
            | [] => ScrapeCourses.mkLast "" "" ""
            | _ :: _ => course_columns
                          (List.last (snd (ScrapeCourses.fill (last, out) c))
                             (ScrapeCourses.mkCourse "" "" "" []))
            end
            = course_columns
                (List.last (snd (ScrapeCourses.fill (last, out) c))
                   (ScrapeCourses.mkCourse "" "" "" []))) as ->
      by (destruct courses; reflexivity).
    unfold ScrapeCourses.fill. cbn [fst snd].
    destruct (JS.truthy (JS.VStr (ScrapeCourses.Course_code c))) eqn:Hc;
      cbn [fst snd]; rewrite length_app, !map_app, !length_app, Hl;
      cbn [List.length map].
    + split; [lia|]. split; [now rewrite Hdet|]. split; [reflexivity|].
      rewrite fill_from_snoc, Hidem. unfold ScrapeCourses.fill.
      cbn [fst snd]. now rewrite Hc.
    + split; [lia|]. split; [now rewrite Hdet|].
      split; [now destruct last|].
      rewrite fill_from_snoc, Hidem. unfold ScrapeCourses.fill.
      cbn [fst snd ScrapeCourses.Course_code ScrapeCourses.Course_Name
           ScrapeCourses.Credits ScrapeCourses.details].
      destruct (JS.truthy (JS.VStr (ScrapeCourses.last_Course last)));
        [now destruct last|reflexivity].
Qed.

(** X24: the scraper fills the course columns down before it writes the
    rows: a row with a course code is written as it is and a row without
    one takes the three course columns of the row written before it (empty
    columns when it is the first); no row is added or dropped and the
    other columns are kept.  Filling down a second time changes nothing,
    and when the first row has a course code every row is written with
    one. *)
Theorem processedCourses_fills_down (courses : list ScrapeCourses.Course) :
  let out := ScrapeCourses.processedCourses courses in
  List.length out = List.length courses
  /\ map ScrapeCourses.details out = map ScrapeCourses.details courses
  /\ ScrapeCourses.processedCourses out = out
  /\ (forall i c,
         nth_error courses i = Some c ->
         nth_error out i
         = Some (if JS.truthy (JS.VStr (ScrapeCourses.Course_code c)) then c
                 else
                   let before :=
                     match i with
                     | 0 => ScrapeCourses.mkLast "" "" ""
                     | S j => course_columns
                                (nth j out (ScrapeCourses.mkCourse "" "" "" []))
                     end in
                   ScrapeCourses.mkCourse
                     (ScrapeCourses.last_Course before)
                     (ScrapeCourses.last_Course_Name before)
                     (ScrapeCourses.last_Credits before)
                     (ScrapeCourses.details c)))
  /\ (forall first rest,
         courses = first :: rest ->
         ScrapeCourses.Course_code first <> EmptyString ->
         Forall (fun c => ScrapeCourses.Course_code c <> EmptyString) out).
Proof.
  cbv zeta.
  destruct (fill_from_spec courses) as (Hlen & Hdet & _ & Hidem).
  cbv zeta in Hlen, Hdet, Hidem.
  split; [exact Hlen|]. split; [exact Hdet|]. split.
  { unfold ScrapeCourses.processedCourses at 1. now rewrite Hidem. }
  assert (forall i c,
             nth_error courses i = Some c ->
             nth_error (ScrapeCourses.processedCourses courses) i
             = Some (if JS.truthy (JS.VStr (ScrapeCourses.Course_code c))
                     then c
                     else
                       let before :=
                         match i with
                         | 0 => ScrapeCourses.mkLast "" "" ""
                         | S j => course_columns
                                    (nth j (ScrapeCourses.processedCourses
                                              courses)
                                       (ScrapeCourses.mkCourse "" "" "" []))
                         end in
                       ScrapeCourses.mkCourse
                         (ScrapeCourses.last_Course before)
                         (ScrapeCourses.last_Course_Name before)
                         (ScrapeCourses.last_Credits before)
                         (ScrapeCourses.details c))) as Hrows.
  { clear. induction courses as [|c0 courses IH] using rev_ind.
    - intros [|i] c H; discriminate H.
    - intros i c Hi.
      destruct (fill_from_spec courses) as (Hlen & _ & Hlast & _).
      cbv zeta in Hlen, Hlast.
      unfold ScrapeCourses.processedCourses in *.
      rewrite fill_from_snoc.
      destruct (ScrapeCourses.fill_from courses) as [last out] eqn:E.
      cbn [fst snd] in *.
      assert (snd (ScrapeCourses.fill (last, out) c0)
              = out ++ [if JS.truthy (JS.VStr (ScrapeCourses.Course_code c0))
                        then c0
                        else ScrapeCourses.mkCourse
                               (ScrapeCourses.last_Course last)
                               (ScrapeCourses.last_Course_Name last)
                               (ScrapeCourses.last_Credits last)
                               (ScrapeCourses.details c0)]) as ->.
      { unfold ScrapeCourses.fill. cbn [fst snd].
        now destruct (JS.truthy _). }
      destruct (Nat.lt_ge_cases i (List.length courses)) as [Hlt|Hge].
      + rewrite nth_error_app1 in Hi by exact Hlt.
        rewrite nth_error_app1 by lia.
        rewrite (IH i c Hi). do 2 f_equal.
        destruct (JS.truthy _); [reflexivity|].
        destruct i as [|j]; [reflexivity|].
        cbv zeta. rewrite app_nth1 by lia. reflexivity.
      + assert (i = List.length courses) as ->.
        { apply Nat.le_antisymm; [|exact Hge].
          assert (List.length courses
                  < List.length (courses ++ [c0]) -> True) by auto.
          apply Nat.lt_succ_r.
          replace (S (List.length courses))
            with (List.length (courses ++ [c0]))
            by (rewrite length_app; simpl; lia).
          apply nth_error_Some. congruence. }
        rewrite nth_error_app2 in Hi by lia.
        rewrite Nat.sub_diag in Hi. injection Hi as <-.
        rewrite nth_error_app2 by lia.
        rewrite Hlen, Nat.sub_diag. cbn [nth_error]. do 2 f_equal.
        destruct (JS.truthy _); [reflexivity|].
        rewrite Hlast. cbv zeta.
        destruct courses as [|c1 courses']; [reflexivity|].
        cbn [List.length]. rewrite app_nth1 by (rewrite Hlen; simpl; lia).
        rewrite <- nth_last, Hlen. cbn [List.length].
        replace (S (List.length courses') - 1) with (List.length courses')
          by lia.
        reflexivity. }
  split; [exact Hrows|].
  intros first rest -> Hfirst.
  apply Forall_forall. intros p Hp.
  apply In_nth_error in Hp. destruct Hp as [i Hi].
  revert p Hi. induction i as [|i IHi]; intros p Hi.
  - pose proof (Hrows 0 first eq_refl) as Hr.
    assert (JS.truthy (JS.VStr (ScrapeCourses.Course_code first)) = true)
      as Ht by (cbn; now apply negb_true_iff, String.eqb_neq).
    rewrite Ht in Hr. rewrite Hr in Hi. injection Hi as <-. exact Hfirst.
  - assert (S i < List.length (first :: rest)) as Hlt.
    { rewrite <- Hlen. apply nth_error_Some. congruence. }
    destruct (nth_error (first :: rest) (S i)) as [c|] eqn:Ec.
    2: { apply nth_error_None in Ec. lia. }
    pose proof (Hrows (S i) c Ec) as Hr.
    destruct (nth_error (ScrapeCourses.processedCourses (first :: rest)) i)
      as [q|] eqn:Eq.
    2: { apply nth_error_None in Eq. lia. }
    pose proof (IHi q eq_refl) as Hq.
    destruct (JS.truthy (JS.VStr (ScrapeCourses.Course_code c))) eqn:Hc.
    + rewrite Hr in Hi. injection Hi as <-.
      cbn in Hc. now apply negb_true_iff, String.eqb_neq in Hc.
    + cbv zeta in Hr. rewrite (nth_error_nth _ _ _ Eq) in Hr.
      rewrite Hr in Hi. injection Hi as <-. exact Hq.
Qed.
